(** * Flight radar controller: a shallow embedding

  Source: [src/services/FlightRadarController.ts].

  Conventions of the embedding.
  - Integer-valued JavaScript numbers (session token, failure counter,
    provider cursor, timer handles, delays in ms) are [Z]; they stay far
    below 2^53, where double arithmetic on integers is exact.
  - The configuration numbers (lat, lon, rangeKm) and the numbers of a
    JSON document are finite and are represented by the rational they
    denote ([Q]); [!==] and [>] on them are the rational comparisons.
  - The normalizer's trigonometry is interpreted over the reals ([R]);
    a failed numeric cast ([NaN]) is [None].
  - The browser (timers, fetch, navigator.onLine) is an explicit
    environment: the controller is a transition system driven by calls
    of its public methods and by timer and fetch completions. *)

From Stdlib Require Import ZArith QArith List String Ascii Bool Lia.
From Stdlib Require Import Reals Lra Qreals.
Import ListNotations.

Set Implicit Arguments.
Set Warnings "-register-all".

(* ------------------------------------------------------------------ *)
(** ** The fragment of JavaScript the controller relies on *)

Module JS.

(** Values produced by [response.json()] and by property reads. *)
Inductive value : Type :=
  | VUndef
  | VNull
  | VBool (b : bool)
  | VNum (q : Q)
  | VStr (s : string)
  | VArr (items : list value)
  | VObj (fields : list (string * value)).

(** A thrown [Error]: only [name] and [message] are ever inspected. *)
Record error : Type := mkError { name : string; message : string }.

Inductive result (A : Type) : Type :=
  | Ok (a : A)
  | Throw (e : error).
Arguments Ok {A} a.
Arguments Throw {A} e.

Definition bind {A B} (r : result A) (k : A -> result B) : result B :=
  match r with
  | Ok a => k a
  | Throw e => Throw e
  end.

Definition TypeError (msg : string) : error := mkError "TypeError" msg.
Definition SyntaxError (msg : string) : error := mkError "SyntaxError" msg.
Definition AbortError : error :=
  mkError "AbortError" "The user aborted a request.".
Definition Error (msg : string) : error := mkError "Error" msg.

(** ToBoolean. *)
Definition truthy (v : value) : bool :=
  match v with
  | VUndef | VNull => false
  | VBool b => b
  | VNum q => negb (Qeq_bool q 0)
  | VStr s => negb (String.eqb s "")
  | VArr _ | VObj _ => true
  end.

(** [a || b]. *)
Definition or_else (a b : value) : value := if truthy a then a else b.

(** Own property of a parsed object; a repeated key keeps its last
  occurrence, as [JSON.parse] does. *)
Fixpoint lookup (key : string) (fields : list (string * value)) : value :=
  match fields with
  | [] => VUndef
  | (k, v) :: rest =>
      match lookup key rest with
      | VUndef => if String.eqb k key then v else VUndef
      | later => later
      end
  end.

(** [v.key] for a key that no prototype defines: reading a property of
  [null] or [undefined] throws, primitives and arrays answer
  [undefined]. *)
Definition get (v : value) (key : string) : result value :=
  match v with
  | VUndef | VNull => Throw (TypeError "Cannot read properties of null")
  | VObj fields => Ok (lookup key fields)
  | _ => Ok VUndef
  end.

(** [s.startsWith(p)]. *)
Definition startsWith (s p : string) : bool := String.prefix p s.

(** [toUpperCase] on the ASCII range. *)
Definition upper_ascii (c : ascii) : ascii :=
  let n := nat_of_ascii c in
  if (97 <=? n)%nat && (n <=? 122)%nat then ascii_of_nat (n - 32) else c.

Fixpoint toUpperCase (s : string) : string :=
  match s with
  | EmptyString => EmptyString
  | String c rest => String (upper_ascii c) (toUpperCase rest)
  end.

(** [trim] for the ASCII white space characters. *)
Definition is_space (c : ascii) : bool :=
  let n := nat_of_ascii c in
  ((9 <=? n)%nat && (n <=? 13)%nat) || (n =? 32)%nat.

Fixpoint trimStart (s : string) : string :=
  match s with
  | EmptyString => EmptyString
  | String c rest => if is_space c then trimStart rest else s
  end.

Fixpoint trimEnd (s : string) : string :=
  match s with
  | EmptyString => EmptyString
  | String c rest =>
      match trimEnd rest with
      | EmptyString => if is_space c then EmptyString else String c EmptyString
      | kept => String c kept
      end
  end.

Definition trim (s : string) : string := trimEnd (trimStart s).

End JS.

(* ------------------------------------------------------------------ *)
(** ** Normalizer: [processTargets] *)

Module Normalizer.
Import JS.
Local Open Scope R_scope.

(** One raw element of the provider's list after the casts of
  [processTargets]: [Number(item.f)] is [None] when it is [NaN]. *)
Record Reading : Type := mkReading {
  r_lat : option R;        (* Number(item.lat) *)
  r_lon : option R;        (* Number(item.lon) *)
  r_gs : option R;         (* Number(item.gs) *)
  r_track : option R;      (* Number(item.track) *)
  r_alt_baro : option R;   (* Number(item.alt_baro) *)
  r_t : string;            (* String(item.t || '') *)
  r_hex : string;          (* String(item.hex || item.id || 'UNK') *)
  r_callsign : string;     (* String(item.callsign || item.flight || '') *)
  r_r : string             (* String(item.r || '') *)
  }.

Inductive TargetStatus : Type := UNKNOWN | FRIENDLY | HOSTILE | NEUTRAL.

Record RadarTarget : Type := mkTarget {
  id : string;
  callsign : string;
  position_x : R;
  position_y : R;
  velocity_vx : R;
  velocity_vy : R;
  altitude : R;
  rcs : R;
  status : TargetStatus;
  classification : string;
  typeCode : string;
  registration : string;
  geo_lat : R;
  geo_lon : R;
  geo_track : R
  }.

(** [Number(v) || 0]: [NaN] and [0] both give [0]. *)
Definition or_zero (v : option R) : R :=
  match v with
  | Some x => x
  | None => 0
  end.

(** The radar cross section rule table, first match wins. *)
Definition rcs_of_type (type : string) : R :=
  if startsWith type "B7" || startsWith type "A3" then 50
  else if startsWith type "C1" || startsWith type "P2" then 2
  else if startsWith type "F" || startsWith type "M" then 10
  else 5.

(** Body of the [map] callback; [None] is the [null] that the final
  [filter] removes. [this_lat] and [this_lon] are the controller's
  current origin. *)
Definition processItem (this_lat this_lon : R) (item : Reading)
  : option RadarTarget :=
  match r_lat item, r_lon item with
  | Some lat, Some lon =>
      let latDiff := lat - this_lat in
      let lngDiff := lon - this_lon in
      let y := latDiff * 110574 in
      let x := lngDiff * (111320 * cos (this_lat * PI / 180)) in
      let speedKnots := or_zero (r_gs item) in
      let speedMs := speedKnots * 0.514444 in
      let headingRad := or_zero (r_track item) * PI / 180 in
      let type := toUpperCase (r_t item) in
      Some {| id := toUpperCase (r_hex item);
              callsign := trim (r_callsign item);
              position_x := x;
              position_y := y;
              velocity_vx := speedMs * sin headingRad;
              velocity_vy := speedMs * cos headingRad;
              altitude := or_zero (r_alt_baro item) * 0.3048;
              rcs := rcs_of_type type;
              status := NEUTRAL;
              classification :=
                if String.eqb type "" then "UNCORRELATED"%string else type;
              typeCode := type;
              registration := r_r item;
              geo_lat := lat;
              geo_lon := lon;
              geo_track := or_zero (r_track item) |}
  | _, _ => None
  end.

(** [rawData.map(...).filter(t => t !== null)]. *)
Fixpoint processTargets (this_lat this_lon : R) (rawData : list Reading)
  : list RadarTarget :=
  match rawData with
  | [] => []
  | item :: rest =>
      match processItem this_lat this_lon item with
      | Some t => t :: processTargets this_lat this_lon rest
      | None => processTargets this_lat this_lon rest
      end
  end.

End Normalizer.

(* ------------------------------------------------------------------ *)
(** ** Controller: [FlightRadarController] and its environment *)

Module Controller.
Import JS.
Local Open Scope Z_scope.

Inductive SystemState : Type := IDLE | SCANNING | RECOVERY | FAULT.

Definition SystemState_eqb (a b : SystemState) : bool :=
  match a, b with
  | IDLE, IDLE | SCANNING, SCANNING | RECOVERY, RECOVERY | FAULT, FAULT => true
  | _, _ => false
  end.

(** At run time a provider is a string; the type of the source only
  restricts what well-typed callers pass. *)
Definition FlightProvider : Type := string.

Inductive Level : Type := INFO | WARN | ERROR | SUCCESS.

(** The call sites of [this.log]; time stamps and the free-text details
  are left out. *)
Inductive LogMessage : Type :=
  | ConfigurationUpdated
  | SystemStartSequenceInitiated
  | SystemShutdownSequence
  | NetworkLinkOffline
  | Uplinking
  | TargetLock (count : nat) (provider : option FlightProvider)
  | SectorClear (provider : option FlightProvider)
  | ScanFailed (provider : option FlightProvider) (reason : string)
  | ReroutingDataLink (fallback : option FlightProvider).

Record LogEntry : Type := mkLog { level : Level; text : LogMessage }.

Record RadarUpdate : Type := mkUpdate {
  targets : list Normalizer.RadarTarget;
  update_state : SystemState;
  update_provider : option FlightProvider
  }.

(** What reaches the two sinks, oldest first. *)
Inductive Output : Type :=
  | Logged (entry : LogEntry)
  | Snapshot (update : RadarUpdate).

(** The mutable fields of the class. *)
Record Fields : Type := mkFields {
  state : SystemState;
  timer : option Z;
  abortController : option Z;
  failures : Z;
  currentProviderIndex : Z;
  lat : Q;
  lon : Q;
  rangeKm : Q;
  sessionId : Z
  }.

Definition MAX_FAILURES_PER_PROVIDER : Z := 2.
Definition PROVIDER_ORDER : list FlightProvider :=
  ["ADSB_LOL"; "AIRPLANES_LIVE"; "OPENSKY"]%string.

(** A callback registered with [window.setTimeout]:
  [() => this.scanLoop(activeSessionId)]. *)
Record Timeout : Type := mkTimeout {
  handle : Z;
  delay : Z;
  timeout_session : Z
  }.

(** A [scanLoop] activation suspended at [await executeFetchStrategy]:
  the locals it captured and whether its signal has been aborted. *)
Record Request : Type := mkRequest {
  signal : Z;
  request_session : Z;
  request_provider : option FlightProvider;
  aborted : bool
  }.

(** The controller together with the browser state it interacts with. *)
Record World : Type := mkWorld {
  this : Fields;
  onLine : bool;                  (* navigator.onLine *)
  protocol : string;              (* window.location.protocol *)
  timeouts : list Timeout;        (* timeouts not yet fired or cleared *)
  inflight : list Request;        (* fetches not yet settled *)
  nextHandle : Z;                 (* supply of timer and signal identities *)
  emitted : list Output
  }.

(** *** Field updates *)

Definition with_this (f : Fields -> Fields) (w : World) : World :=
  mkWorld (f (this w)) (onLine w) (protocol w) (timeouts w) (inflight w)
          (nextHandle w) (emitted w).

Definition set_state (v : SystemState) (c : Fields) : Fields :=
  mkFields v (timer c) (abortController c) (failures c)
           (currentProviderIndex c) (lat c) (lon c) (rangeKm c) (sessionId c).
Definition set_timer (v : option Z) (c : Fields) : Fields :=
  mkFields (state c) v (abortController c) (failures c)
           (currentProviderIndex c) (lat c) (lon c) (rangeKm c) (sessionId c).
Definition set_abortController (v : option Z) (c : Fields) : Fields :=
  mkFields (state c) (timer c) v (failures c)
           (currentProviderIndex c) (lat c) (lon c) (rangeKm c) (sessionId c).
Definition set_failures (v : Z) (c : Fields) : Fields :=
  mkFields (state c) (timer c) (abortController c) v
           (currentProviderIndex c) (lat c) (lon c) (rangeKm c) (sessionId c).
Definition set_currentProviderIndex (v : Z) (c : Fields) : Fields :=
  mkFields (state c) (timer c) (abortController c) (failures c)
           v (lat c) (lon c) (rangeKm c) (sessionId c).
Definition set_position (la lo rg : Q) (c : Fields) : Fields :=
  mkFields (state c) (timer c) (abortController c) (failures c)
           (currentProviderIndex c) la lo rg (sessionId c).
Definition set_sessionId (v : Z) (c : Fields) : Fields :=
  mkFields (state c) (timer c) (abortController c) (failures c)
           (currentProviderIndex c) (lat c) (lon c) (rangeKm c) v.

Definition set_timeouts (ts : list Timeout) (w : World) : World :=
  mkWorld (this w) (onLine w) (protocol w) ts (inflight w)
          (nextHandle w) (emitted w).
Definition set_inflight (rs : list Request) (w : World) : World :=
  mkWorld (this w) (onLine w) (protocol w) (timeouts w) rs
          (nextHandle w) (emitted w).
Definition set_onLine (b : bool) (w : World) : World :=
  mkWorld (this w) b (protocol w) (timeouts w) (inflight w)
          (nextHandle w) (emitted w).
Definition fresh (w : World) : World :=
  mkWorld (this w) (onLine w) (protocol w) (timeouts w) (inflight w)
          (nextHandle w + 1) (emitted w).
Definition emit (o : Output) (w : World) : World :=
  mkWorld (this w) (onLine w) (protocol w) (timeouts w) (inflight w)
          (nextHandle w) (emitted w ++ [o]).

(** *** Sinks *)

Definition log (l : Level) (m : LogMessage) (w : World) : World :=
  emit (Logged (mkLog l m)) w.

Definition dispatch (ts : list Normalizer.RadarTarget)
           (provider : option FlightProvider) (w : World) : World :=
  emit (Snapshot (mkUpdate ts (state (this w)) provider)) w.

(** *** Provider sequence *)

Fixpoint indexOf_from (i : Z) (l : list FlightProvider) (x : FlightProvider) : Z :=
  match l with
  | [] => -1
  | y :: rest => if String.eqb y x then i else indexOf_from (i + 1) rest x
  end.

Definition indexOf (l : list FlightProvider) (x : FlightProvider) : Z :=
  indexOf_from 0 l x.

(** [PROVIDER_ORDER[i]]; [None] is [undefined]. *)
Definition providerAt (i : Z) : option FlightProvider :=
  if i <? 0 then None else nth_error PROVIDER_ORDER (Z.to_nat i).

Definition rotateProvider (w : World) : World :=
  with_this
    (fun c => set_currentProviderIndex
                (Z.rem (currentProviderIndex c + 1)
                       (Z.of_nat (List.length PROVIDER_ORDER))) c) w.

(** *** Timers and cancellation *)

Definition clearTimeout (h : Z) (w : World) : World :=
  set_timeouts (filter (fun t => negb (handle t =? h)) (timeouts w)) w.

Definition abort_request (h : Z) (r : Request) : Request :=
  if signal r =? h
  then mkRequest (signal r) (request_session r) (request_provider r) true
  else r.

(** [controller.abort()]: the fetch listening on this signal will
  reject with an [AbortError]. *)
Definition abort (h : Z) (w : World) : World :=
  set_inflight (map (abort_request h) (inflight w)) w.

Definition cleanup (w : World) : World :=
  let w1 := match timer (this w) with
            | Some h => if h =? 0 then w else clearTimeout h w
            | None => w
            end in
  let w2 := match abortController (this w1) with
            | Some h => abort h w1
            | None => w1
            end in
  with_this (fun c => set_abortController None (set_timer None c)) w2.

Definition scheduleNext (d : Z) (activeSessionId : Z) (w : World) : World :=
  if SystemState_eqb (state (this w)) IDLE
     || negb (activeSessionId =? sessionId (this w))
  then w
  else
    let h := nextHandle w in
    fresh (set_timeouts (timeouts w ++ [mkTimeout h d activeSessionId])
             (with_this (set_timer (Some h)) w)).

(** *** [scanLoop] up to the [await] *)

Definition scanLoop (activeSessionId : Z) (w : World) : World :=
  if negb (activeSessionId =? sessionId (this w)) then w
  else if SystemState_eqb (state (this w)) IDLE then w
  else if negb (onLine w) then
    scheduleNext 5000 activeSessionId
      (with_this (set_state FAULT) (log ERROR NetworkLinkOffline w))
  else
    let h := nextHandle w in
    let w1 := fresh (with_this (set_abortController (Some h)) w) in
    let provider := providerAt (currentProviderIndex (this w1)) in
    (* executeFetchStrategy up to [await fetch] *)
    let w2 := log INFO Uplinking w1 in
    set_inflight (inflight w2 ++ [mkRequest h activeSessionId provider false]) w2.

(** *** Public API *)

Definition restart (w : World) : World :=
  let w1 := cleanup w in
  scanLoop (sessionId (this w1)) w1.

Definition setConfig (provider : FlightProvider) (la lo rg : Q) (w : World)
  : World :=
  let newIndex := indexOf PROVIDER_ORDER provider in
  let w1 := with_this
              (set_currentProviderIndex (if 0 <=? newIndex then newIndex else 0))
              w in
  let changed := negb (Qeq_bool (lat (this w1)) la)
                 || negb (Qeq_bool (lon (this w1)) lo)
                 || negb (Qeq_bool (rangeKm (this w1)) rg) in
  let w2 := with_this (set_position la lo rg) w1 in
  if changed then
    let w3 := log INFO ConfigurationUpdated w2 in
    let w4 := with_this (fun c => set_sessionId (sessionId c + 1) c) w3 in
    if SystemState_eqb (state (this w4)) SCANNING then restart w4 else w4
  else w2.

Definition start (w : World) : World :=
  if SystemState_eqb (state (this w)) SCANNING then w
  else
    let w1 := log INFO SystemStartSequenceInitiated w in
    let w2 := with_this (fun c => set_state SCANNING (set_failures 0 c)) w1 in
    scanLoop (sessionId (this w2)) w2.

Definition stop (w : World) : World :=
  if SystemState_eqb (state (this w)) IDLE then w
  else
    let w1 := log INFO SystemShutdownSequence w in
    cleanup (with_this (set_state IDLE) w1).

(** *** Completion of a fetch *)

(** How the browser settles [fetch(url)] followed by [response.json()]:
  the promise rejects, or a response arrives whose body is valid JSON
  ([Some]) or not ([None]). *)
Inductive Settlement : Type :=
  | Rejected (e : error)
  | Responded (ok : bool) (status : string) (body : option value).

Definition provider_is (p : option FlightProvider) (n : string) : bool :=
  match p with
  | Some s => String.eqb s n
  | None => false
  end.

(** The constant prefix of the request URL (the rest interpolates the
  configuration); [ADSB_API_URL] is ["https://api.adsb.lol/v2"]. *)
Definition requestUrl (p : option FlightProvider) : string :=
  if provider_is p "ADSB_LOL" then "https://api.adsb.lol/v2/lat/"
  else if provider_is p "AIRPLANES_LIVE" then "https://api.airplanes.live/v2/point/"
  else if provider_is p "OPENSKY"
       then "https://opensky-network.org/api/states/all?lamin="
  else "".

Section Completion.

(** The casts [Number(item.f)] and [String(item.f || ...)] applied to
  one non-null element of the raw list. *)
Variable coerce : value -> Normalizer.Reading.

(** The OpenSky callback [s => ({hex: s[0], ..., t: '', r: ''})]
  applied to one non-null state vector. *)
Variable stateVector : value -> value.

(** [l.map(f)] for a callback that dereferences its argument. *)
Fixpoint mapNonNull {B : Type} (f : value -> B) (l : list value)
    : result (list B) :=
    match l with
    | [] => Ok []
    | (VNull | VUndef) :: _ =>
        Throw (TypeError "Cannot read properties of null")
    | v :: rest => bind (mapNonNull f rest) (fun r => Ok (f v :: r))
    end.

(** "Validation / Parsing" of the decoded body. *)
Definition parseBody (provider : option FlightProvider) (json : value)
    : result value :=
    if provider_is provider "ADSB_LOL" || provider_is provider "AIRPLANES_LIVE"
    then bind (get json "ac") (fun ac => Ok (or_else ac (VArr [])))
    else if provider_is provider "OPENSKY"
    then bind (get json "states") (fun states =>
           match or_else states (VArr []) with
           | VArr l => bind (mapNonNull stateVector l) (fun r => Ok (VArr r))
           | _ => Throw (TypeError "map is not a function")
           end)
    else Ok (VArr []).

(** The [catch] of [executeFetchStrategy]. *)
Definition rethrow (page_protocol url : string) (e : error) : error :=
    if String.eqb (message e) "Failed to fetch" then
      if String.eqb page_protocol "https:" && startsWith url "http:"
      then Error "Mixed Content Blocked"
      else Error "Network Error (CORS/Connection Refused)"
    else e.

(** [executeFetchStrategy] from [await fetch] on. *)
Definition executeFetchStrategy (page_protocol : string)
             (provider : option FlightProvider) (s : Settlement)
    : result value :=
    let attempt :=
      match s with
      | Rejected e => Throw e
      | Responded ok status body =>
          if negb ok then Throw (Error ("HTTP " ++ status))
          else match body with
               | None => Throw (SyntaxError "Unexpected token in JSON")
               | Some json => parseBody provider json
               end
      end in
    match attempt with
    | Ok rawData => Ok rawData
    | Throw e => Throw (rethrow page_protocol (requestUrl provider) e)
    end.

(** [processTargets]: [rawData.map] exists only on arrays. *)
Definition processTargets (c : Fields) (rawData : value)
    : result (list Normalizer.RadarTarget) :=
    match rawData with
    | VArr items =>
        bind (mapNonNull coerce items) (fun readings =>
          Ok (Normalizer.processTargets (Q2R (lat c)) (Q2R (lon c)) readings))
    | _ => Throw (TypeError "rawData.map is not a function")
    end.

(** The [catch] block of [scanLoop]. *)
Definition scanLoop_catch (activeSessionId : Z)
             (provider : option FlightProvider) (e : error) (w : World)
    : World :=
    if negb (activeSessionId =? sessionId (this w)) then w
    else if String.eqb (name e) "AbortError" then w
    else
      let w1 := with_this (fun c => set_failures (failures c + 1) c) w in
      let w2 := log ERROR (ScanFailed provider (message e)) w1 in
      if MAX_FAILURES_PER_PROVIDER <=? failures (this w2) then
        let w3 := rotateProvider (with_this (set_failures 0) w2) in
        let w4 := log WARN
                    (ReroutingDataLink
                       (providerAt (currentProviderIndex (this w3)))) w3 in
        scheduleNext 1000 activeSessionId w4
      else scheduleNext 3000 activeSessionId w2.

(** The [try] block of [scanLoop] after the [await]. *)
Definition scanLoop_resume (activeSessionId : Z)
             (provider : option FlightProvider) (s : Settlement) (w : World)
    : World :=
    match executeFetchStrategy (protocol w) provider s with
    | Throw e => scanLoop_catch activeSessionId provider e w
    | Ok rawData =>
        if negb (activeSessionId =? sessionId (this w)) then w
        else
          match processTargets (this w) rawData with
          | Throw e => scanLoop_catch activeSessionId provider e w
          | Ok ts =>
              let w1 := with_this
                          (fun c => set_state SCANNING (set_failures 0 c)) w in
              let w2 := if (0 <? List.length ts)%nat
                        then log SUCCESS (TargetLock (List.length ts) provider) w1
                        else log INFO (SectorClear provider) w1 in
              let w3 := dispatch ts provider w2 in
              scheduleNext
                (if negb (Qle_bool (rangeKm (this w3)) 300) then 15000 else 6000)
                activeSessionId w3
          end
    end.

(** *** The transition system *)

Inductive Event : Type :=
  | CallSetConfig (provider : FlightProvider) (la lo rg : Q)
  | CallStart
  | CallStop
  | Connectivity (online : bool)
  | TimeoutFires (h : Z)
  | FetchSettles (h : Z) (s : Settlement).

Definition fire (h : Z) (w : World) : World :=
    match find (fun t => handle t =? h) (timeouts w) with
    | None => w
    | Some t => scanLoop (timeout_session t) (clearTimeout h w)
    end.

(** A fetch whose signal was aborted rejects with an [AbortError],
  whatever the network delivered. *)
Definition settle (h : Z) (s : Settlement) (w : World) : World :=
    match find (fun r => signal r =? h) (inflight w) with
    | None => w
    | Some r =>
        scanLoop_resume (request_session r) (request_provider r)
          (if aborted r then Rejected AbortError else s)
          (set_inflight
             (filter (fun r' => negb (signal r' =? h)) (inflight w)) w)
    end.

Definition step (w : World) (e : Event) : World :=
    match e with
    | CallSetConfig p la lo rg => setConfig p la lo rg w
    | CallStart => start w
    | CallStop => stop w
    | Connectivity b => set_onLine b w
    | TimeoutFires h => fire h w
    | FetchSettles h s => settle h s w
    end.

Definition run (w : World) (es : list Event) : World := fold_left step es w.

End Completion.

(** The state right after [new FlightRadarController()] on a page
  served over [page_protocol]. *)
Definition initial (page_protocol : string) : World :=
  {| this := {| state := IDLE; timer := None; abortController := None;
                failures := 0; currentProviderIndex := 0;
                lat := 0; lon := 0; rangeKm := 50; sessionId := 0 |};
     onLine := true;
     protocol := page_protocol;
     timeouts := [];
     inflight := [];
     nextHandle := 1;
     emitted := [] |}.

End Controller.

(* ------------------------------------------------------------------ *)
(** ** Sample instances of the element casts

    They agree with the JavaScript casts on provider data whose numeric
    fields are JSON numbers (or absent) and whose text fields are JSON
    strings (or absent); the theorems below hold for every instance. *)

Module Plain.
Import JS.

Definition number (v : value) : option R :=
    match v with
    | VNum q => Some (Q2R q)
    | _ => None
    end.

Definition text (v : value) (default : string) : string :=
    match v with
    | VStr s => if String.eqb s "" then default else s
    | _ => default
    end.

Definition field (item : value) (key : string) : value :=
    match item with
    | VObj fields => lookup key fields
    | _ => VUndef
    end.

Definition coerce (item : value) : Normalizer.Reading :=
    {| Normalizer.r_lat := number (field item "lat");
       Normalizer.r_lon := number (field item "lon");
       Normalizer.r_gs := number (field item "gs");
       Normalizer.r_track := number (field item "track");
       Normalizer.r_alt_baro := number (field item "alt_baro");
       Normalizer.r_t := text (field item "t") "";
       Normalizer.r_hex := text (field item "hex") (text (field item "id") "UNK");
       Normalizer.r_callsign :=
         text (field item "callsign") (text (field item "flight") "");
       Normalizer.r_r := text (field item "r") "" |}.

Definition at_index (s : value) (i : nat) : value :=
    match s with
    | VArr l => nth i l VUndef
    | _ => VUndef
    end.

Definition scaled (v : value) (k : Q) : value :=
    match v with
    | VNum q => VNum (q * k)
    | _ => VNum 0
    end.

Definition stateVector (s : value) : value :=
    VObj [("hex", at_index s 0); ("callsign", at_index s 1);
          ("lat", at_index s 6); ("lon", at_index s 5);
          ("alt_baro", scaled (at_index s 7) 3.28084);
          ("gs", scaled (at_index s 9) 1.94384);
          ("track", at_index s 10);
          ("t", VStr ""); ("r", VStr "")]%string.

End Plain.

(* ------------------------------------------------------------------ *)
(** ** How each operation acts on the controller's fields *)

Module Effects.
Import JS Controller.
Local Open Scope Z_scope.

(** Comparisons on strings and rationals are kept folded by [simpl]. *)
Arguments String.eqb : simpl never.
Arguments String.prefix : simpl never.
Arguments Qeq_bool : simpl never.
Arguments Qle_bool : simpl never.
Arguments Z.rem : simpl never.
Arguments indexOf : simpl never.
Arguments providerAt : simpl never.
Arguments executeFetchStrategy : simpl never.
Arguments processTargets : simpl never.

Ltac open_ops :=
    unfold scanLoop, restart, cleanup, scheduleNext, rotateProvider, abort,
      clearTimeout, log, dispatch, emit, fresh, set_timeouts, set_inflight,
      set_onLine, with_this, set_state, set_timer, set_abortController,
      set_failures, set_currentProviderIndex, set_position, set_sessionId
      in *.

(** Reduces field reads through the straight-line updates only. *)
Ltac project :=
  cbn [this onLine protocol timeouts inflight nextHandle emitted
       state timer abortController failures currentProviderIndex
       lat lon rangeKm sessionId
       with_this set_state set_timer set_abortController set_failures
       set_currentProviderIndex set_position set_sessionId
       set_timeouts set_inflight set_onLine fresh emit log dispatch
       rotateProvider clearTimeout abort].

Ltac split_ifs :=
    repeat match goal with
      | |- context [if ?c then _ else _] => destruct c eqn:?
      | |- context [match ?x with Some _ => _ | None => _ end] => destruct x eqn:?
      | |- context [match ?x with Ok _ => _ | Throw _ => _ end] => destruct x eqn:?
      end.

Ltac crush :=
    cbv zeta; intros; open_ops; simpl; split_ifs; simpl in *;
    repeat split; auto; try congruence; try lia.


Lemma state_eqb_neq (a b : SystemState) :
    SystemState_eqb a b = false <-> a <> b.
Proof. destruct a, b; simpl; split; congruence. Qed.

(** [scheduleNext] only writes the timer handle. *)
Lemma scheduleNext_fields d sid w :
    let w' := scheduleNext d sid w in
    state (this w') = state (this w)
    /\ failures (this w') = failures (this w)
    /\ currentProviderIndex (this w') = currentProviderIndex (this w)
    /\ sessionId (this w') = sessionId (this w)
    /\ abortController (this w') = abortController (this w)
    /\ inflight w' = inflight w
    /\ emitted w' = emitted w.
Proof. crush. Qed.

Lemma cleanup_fields w :
    let w' := cleanup w in
    state (this w') = state (this w)
    /\ failures (this w') = failures (this w)
    /\ currentProviderIndex (this w') = currentProviderIndex (this w)
    /\ sessionId (this w') = sessionId (this w)
    /\ timer (this w') = None
    /\ abortController (this w') = None
    /\ emitted w' = emitted w
    /\ nextHandle w' = nextHandle w.
Proof. crush. Qed.

Lemma scanLoop_fields sid w :
    let w' := scanLoop sid w in
    (state (this w') = state (this w) \/ state (this w') = FAULT)
    /\ failures (this w') = failures (this w)
    /\ currentProviderIndex (this w') = currentProviderIndex (this w)
    /\ sessionId (this w') = sessionId (this w).
Proof. crush. Qed.

End Effects.

(* ------------------------------------------------------------------ *)
(** ** Bookkeeping invariants of the environment *)

Module Bookkeeping.
Import JS Controller Effects.
Local Open Scope Z_scope.

(** [w'] has the same suspended requests as [w]; handles and the
    session token did not go back. *)
Definition frames (w w' : World) : Prop :=
    inflight w' = inflight w
    /\ nextHandle w <= nextHandle w'
    /\ sessionId (this w) <= sessionId (this w').

Lemma frames_refl w : frames w w.
Proof. unfold frames; repeat split; lia. Qed.

Lemma frames_trans w1 w2 w3 : frames w1 w2 -> frames w2 w3 -> frames w1 w3.
Proof.
    unfold frames; intros (A & B & C) (D & E & F); repeat split;
      [congruence | lia | lia].
Qed.

Lemma frames_scheduleNext d sid w : frames w (scheduleNext d sid w).
Proof. unfold frames; crush. Qed.

Lemma frames_log l m w : frames w (log l m w).
Proof. unfold frames; crush. Qed.

Lemma frames_dispatch ts p w : frames w (dispatch ts p w).
Proof. unfold frames; crush. Qed.

Lemma frames_with_this f w :
    sessionId (this w) <= sessionId (f (this w)) -> frames w (with_this f w).
Proof. unfold frames; crush. Qed.

Lemma frames_clearTimeout h w : frames w (clearTimeout h w).
Proof. unfold frames; crush. Qed.

Lemma frames_rotateProvider w : frames w (rotateProvider w).
Proof. unfold frames, rotateProvider, with_this; simpl; repeat split; lia. Qed.

Lemma frames_after w x y : frames x y -> frames w x -> frames w y.
Proof. intros A B; exact (frames_trans B A). Qed.

(** Walks a nest of frame-preserving operations from the outside in. *)
Ltac frames_chain :=
  repeat first
    [ apply frames_refl
    | eapply frames_after; [apply frames_scheduleNext|]
    | eapply frames_after; [apply frames_log|]
    | eapply frames_after; [apply frames_dispatch|]
    | eapply frames_after; [apply frames_rotateProvider|]
    | eapply frames_after; [apply frames_clearTimeout|]
    | eapply frames_after; [apply frames_with_this; simpl; lia|] ].

(** Every suspended request carries a handle already handed out and a
      token not newer than the current one; handles identify requests. *)
Record tidy (w : World) : Prop := mkTidy {
    tidy_fresh : forall r, In r (inflight w) -> signal r < nextHandle w;
    tidy_session :
      forall r, In r (inflight w) -> request_session r <= sessionId (this w);
    tidy_unique :
      forall r r', In r (inflight w) -> In r' (inflight w) ->
                   signal r = signal r' -> request_session r = request_session r'
  }.

(** Every request listening on signal [h] was dispatched under an older
    token, and [h] will not be handed out again. *)
Definition stale_in (h : Z) (w : World) : Prop :=
    h < nextHandle w
    /\ forall r, In r (inflight w) -> signal r = h ->
                 request_session r < sessionId (this w).

Lemma tidy_frames w w' : frames w w' -> tidy w -> tidy w'.
Proof.
    intros (A & B & C) [F S U]; split; rewrite A.
    - intros r Hr; specialize (F r Hr); lia.
    - intros r Hr; specialize (S r Hr); lia.
    - exact U.
Qed.

Lemma stale_frames h w w' : frames w w' -> stale_in h w -> stale_in h w'.
Proof.
    intros (A & B & C) (F & S); split; [lia|].
    rewrite A; intros r Hr E; specialize (S r Hr E); lia.
Qed.

Lemma scanLoop_inflight sid w :
    frames w (scanLoop sid w)
    \/ (sid = sessionId (this w)
        /\ sessionId (this (scanLoop sid w)) = sessionId (this w)
        /\ nextHandle (scanLoop sid w) = nextHandle w + 1
        /\ exists p, inflight (scanLoop sid w)
                     = inflight w ++ [mkRequest (nextHandle w) sid p false]).
Proof.
    unfold scanLoop.
    destruct (negb (sid =? sessionId (this w))) eqn:E1;
      [left; apply frames_refl|].
    destruct (SystemState_eqb (state (this w)) IDLE);
      [left; apply frames_refl|].
    destruct (negb (onLine w)).
    - left. eapply frames_trans; [|apply frames_scheduleNext].
      unfold frames; crush.
    - right. apply negb_false_iff, Z.eqb_eq in E1.
      repeat split; auto. eexists; reflexivity.
Qed.

Lemma tidy_scanLoop sid w : tidy w -> tidy (scanLoop sid w).
Proof.
    intros T. destruct (scanLoop_inflight sid w) as [F | (E & S & N & p & I)].
    - eapply tidy_frames; eauto.
    - destruct T as [F S' U]. split; rewrite I, ?S, ?N.
      + intros r Hr. apply in_app_or in Hr as [Hr | [<- | []]]; simpl;
          [specialize (F r Hr)|]; lia.
      + intros r Hr. apply in_app_or in Hr as [Hr | [<- | []]]; simpl;
          [specialize (S' r Hr)|]; lia.
      + intros r r' Hr Hr' Eq.
        apply in_app_or in Hr as [Hr | [<- | []]];
          apply in_app_or in Hr' as [Hr' | [<- | []]]; simpl in *; auto.
        * specialize (F r Hr); lia.
        * specialize (F r' Hr'); lia.
Qed.

Lemma stale_scanLoop h sid w : stale_in h w -> stale_in h (scanLoop sid w).
Proof.
    intros St. destruct (scanLoop_inflight sid w) as [F | (E & S & N & p & I)].
    - eapply stale_frames; eauto.
    - destruct St as (F & S'). split; [lia|].
      rewrite I, S. intros r Hr Eq.
      apply in_app_or in Hr as [Hr | [<- | []]]; simpl in *; auto. lia.
Qed.

Lemma abort_request_same h r :
    signal (abort_request h r) = signal r
    /\ request_session (abort_request h r) = request_session r.
Proof. unfold abort_request; destruct (signal r =? h); auto. Qed.

Lemma cleanup_inflight w :
    nextHandle (cleanup w) = nextHandle w
    /\ sessionId (this (cleanup w)) = sessionId (this w)
    /\ forall r', In r' (inflight (cleanup w)) ->
         exists r, In r (inflight w) /\ signal r' = signal r
                   /\ request_session r' = request_session r.
Proof.
    repeat split; try (crush; fail).
    intros r'. unfold cleanup.
    set (w1 := match timer (this w) with
               | Some h => if h =? 0 then w else clearTimeout h w
               | None => w end).
    assert (I1 : inflight w1 = inflight w) by (subst w1; crush).
    destruct (abortController (this w1)); simpl; rewrite ?I1.
    - intros Hr. apply in_map_iff in Hr as (r & <- & Hr).
      exists r. split; auto. apply abort_request_same.
    - intros Hr. exists r'. auto.
Qed.

Lemma tidy_cleanup w : tidy w -> tidy (cleanup w).
Proof.
    intros [F S U]. destruct (cleanup_inflight w) as (N & Se & I).
    split; rewrite ?N, ?Se.
    - intros r' Hr'. destruct (I r' Hr') as (r & Hr & -> & _). auto.
    - intros r' Hr'. destruct (I r' Hr') as (r & Hr & _ & ->). auto.
    - intros r1 r2 H1 H2 Eq.
      destruct (I r1 H1) as (q1 & Hq1 & E1 & ->).
      destruct (I r2 H2) as (q2 & Hq2 & E2 & ->).
      apply U; auto; congruence.
Qed.

Lemma stale_cleanup h w : stale_in h w -> stale_in h (cleanup w).
Proof.
    intros (F & S). destruct (cleanup_inflight w) as (N & Se & I).
    split; rewrite ?N, ?Se; auto.
    intros r' Hr' Eq. destruct (I r' Hr') as (r & Hr & E1 & ->).
    apply S; auto; congruence.
Qed.

Lemma tidy_filter f w :
    tidy w -> tidy (set_inflight (filter f (inflight w)) w).
Proof.
    intros [F S U]. split; simpl.
    - intros r Hr. apply filter_In in Hr as [Hr _]. auto.
    - intros r Hr. apply filter_In in Hr as [Hr _]. auto.
    - intros r r' Hr Hr'. apply filter_In in Hr as [Hr _].
      apply filter_In in Hr' as [Hr' _]. auto.
Qed.

Lemma stale_filter h f w :
    stale_in h w -> stale_in h (set_inflight (filter f (inflight w)) w).
Proof.
    intros (F & S). split; simpl; auto.
    intros r Hr. apply filter_In in Hr as [Hr _]. auto.
Qed.

End Bookkeeping.

(* ------------------------------------------------------------------ *)
(** ** Invariants of every run *)

Module Invariants.
Import JS Controller Effects Bookkeeping.
Local Open Scope Z_scope.

Section Runs.
Variable coerce : value -> Normalizer.Reading.
Variable stateVector : value -> value.

Local Abbreviation step := (step coerce stateVector).
Local Abbreviation run := (run coerce stateVector).
Local Abbreviation scanLoop_resume := (scanLoop_resume coerce stateVector).

Lemma frames_catch sid p e w : frames w (scanLoop_catch sid p e w).
Proof.
  unfold scanLoop_catch.
  destruct (negb _); [apply frames_refl|].
  destruct (String.eqb _ _); [apply frames_refl|].
  destruct (_ <=? _); frames_chain.
Qed.

Lemma frames_resume sid p s w : frames w (scanLoop_resume sid p s w).
Proof.
      unfold Controller.scanLoop_resume.
      destruct (executeFetchStrategy _ _ _ _); [|apply frames_catch].
      destruct (negb _); [apply frames_refl|].
      destruct (processTargets _ _ _); [|apply frames_catch].
      destruct (_ <? _)%nat; frames_chain.
Qed.

(** The environment bookkeeping is preserved by every event. *)
Lemma tidy_step w e : tidy w -> tidy (step w e).
Proof.
      intros T. destruct e as [p la lo rg | | | b | h | h s]; simpl.
      - unfold setConfig.
        match goal with |- context [with_this (set_position la lo rg) ?x] =>
          set (w2 := with_this (set_position la lo rg) x) end.
        assert (T2 : tidy w2)
          by (eapply tidy_frames; [|exact T]; subst w2; unfold frames; crush).
        destruct (_ || _); auto.
        match goal with |- context [with_this ?f (log ?l ?m w2)] =>
          set (w4 := with_this f (log l m w2)) end.
        assert (T4 : tidy w4)
          by (eapply tidy_frames; [|exact T2]; subst w4; unfold frames; crush).
        destruct (SystemState_eqb _ _); auto.
        unfold restart. apply tidy_scanLoop, tidy_cleanup, T4.
      - unfold start. destruct (SystemState_eqb _ _); auto.
        apply tidy_scanLoop. eapply tidy_frames; [|exact T].
        unfold frames; crush.
      - unfold stop. destruct (SystemState_eqb _ _); auto.
        apply tidy_cleanup. eapply tidy_frames; [|exact T].
        unfold frames; crush.
      - eapply tidy_frames; [|exact T]. unfold frames; crush.
      - unfold fire. destruct (find _ _); auto.
        apply tidy_scanLoop. eapply tidy_frames; [|exact T].
        apply frames_clearTimeout.
      - unfold settle. destruct (find _ _); auto.
        eapply tidy_frames; [apply frames_resume|]. apply tidy_filter, T.
Qed.

Lemma stale_step k w e : stale_in k w -> stale_in k (step w e).
Proof.
      intros T. destruct e as [p la lo rg | | | b | h | h s]; simpl.
      - unfold setConfig.
        match goal with |- context [with_this (set_position la lo rg) ?x] =>
          set (w2 := with_this (set_position la lo rg) x) end.
        assert (T2 : stale_in k w2)
          by (eapply stale_frames; [|exact T]; subst w2; unfold frames; crush).
        destruct (_ || _); auto.
        match goal with |- context [with_this ?f (log ?l ?m w2)] =>
          set (w4 := with_this f (log l m w2)) end.
        assert (T4 : stale_in k w4)
          by (eapply stale_frames; [|exact T2]; subst w4; unfold frames; crush).
        destruct (SystemState_eqb _ _); auto.
        unfold restart. apply stale_scanLoop, stale_cleanup, T4.
      - unfold start. destruct (SystemState_eqb _ _); auto.
        apply stale_scanLoop. eapply stale_frames; [|exact T].
        unfold frames; crush.
      - unfold stop. destruct (SystemState_eqb _ _); auto.
        apply stale_cleanup. eapply stale_frames; [|exact T].
        unfold frames; crush.
      - eapply stale_frames; [|exact T]. unfold frames; crush.
      - unfold fire. destruct (find _ _); auto.
        apply stale_scanLoop. eapply stale_frames; [|exact T].
        apply frames_clearTimeout.
      - unfold settle. destruct (find _ _); auto.
        eapply stale_frames; [apply frames_resume|]. apply stale_filter, T.
Qed.

Lemma tidy_run es : forall w, tidy w -> tidy (run w es).
Proof.
      induction es as [|e es IH]; simpl; auto using tidy_step.
Qed.

Lemma stale_run k es : forall w, stale_in k w -> stale_in k (run w es).
Proof.
      induction es as [|e es IH]; simpl; auto using stale_step.
Qed.

Lemma tidy_initial proto : tidy (initial proto).
Proof. split; simpl; intros; contradiction. Qed.

(** A stale completion changes nothing but the list of suspended
    requests. *)
Lemma settle_stale h s w :
      stale_in h w ->
      this (settle coerce stateVector h s w) = this w
      /\ emitted (settle coerce stateVector h s w) = emitted w
      /\ timeouts (settle coerce stateVector h s w) = timeouts w
      /\ nextHandle (settle coerce stateVector h s w) = nextHandle w.
Proof.
      intros (_ & S). unfold settle.
      destruct (find _ _) as [r|] eqn:F; auto.
      apply find_some in F as [Hr E]. apply Z.eqb_eq in E.
      specialize (S r Hr E).
      assert (N : negb (request_session r =? sessionId (this w)) = true)
        by (apply negb_true_iff, Z.eqb_neq; lia).
      unfold Controller.scanLoop_resume, scanLoop_catch; simpl.
      destruct (executeFetchStrategy _ _ _ _); rewrite N; auto.
Qed.

End Runs.

End Invariants.

(* ------------------------------------------------------------------ *)
(** ** Properties of the fields that every operation respects *)

Module Shape.
Import JS Controller Effects Bookkeeping.
Local Open Scope Z_scope.

Lemma indexOf_range p :
  indexOf PROVIDER_ORDER p = -1 \/ 0 <= indexOf PROVIDER_ORDER p < 3.
Proof.
  cbv [indexOf indexOf_from PROVIDER_ORDER].
  repeat match goal with
    | |- context [if String.eqb ?a ?b then _ else _] => destruct (String.eqb a b)
    end; lia.
Qed.

Lemma indexOf_absent p :
  ~ In p PROVIDER_ORDER -> indexOf PROVIDER_ORDER p = -1.
Proof.
  intros N. cbv [indexOf indexOf_from PROVIDER_ORDER].
  cbv [In PROVIDER_ORDER] in N.
  repeat match goal with
    | |- context [if String.eqb ?a ?b then _ else _] =>
        destruct (String.eqb_spec a b); [exfalso; apply N; auto 6|]
    end.
  reflexivity.
Qed.

(** [setConfig] always moves the cursor to the requested provider, or
    to 0 when the name is unknown. *)
Lemma cursor_setConfig p la lo rg w :
  currentProviderIndex (this (setConfig p la lo rg w))
  = if 0 <=? indexOf PROVIDER_ORDER p then indexOf PROVIDER_ORDER p else 0.
Proof.
  unfold setConfig.
  match goal with |- context [with_this (set_position la lo rg) ?x] =>
    set (w2 := with_this (set_position la lo rg) x) end.
  assert (E2 : currentProviderIndex (this w2)
               = if 0 <=? indexOf PROVIDER_ORDER p
                 then indexOf PROVIDER_ORDER p else 0) by reflexivity.
  clearbody w2.
  destruct (_ || _); auto.
  match goal with |- context [with_this ?f (log ?l ?m w2)] =>
    set (w4 := with_this f (log l m w2)) end.
  assert (E4 : currentProviderIndex (this w4) = currentProviderIndex (this w2))
    by reflexivity.
  clearbody w4.
  destruct (SystemState_eqb _ _); [|congruence].
  unfold restart.
  destruct (scanLoop_fields (sessionId (this (cleanup w4))) (cleanup w4))
    as (_ & _ & -> & _).
  destruct (cleanup_fields w4) as (_ & _ & -> & _). congruence.
Qed.

Definition cursor_ok (i : Z) : Prop := 0 <= i < 3.

(** A property of the fields that survives each assignment the class
    makes: any timer, abort controller, failure count, position or next
    token, any state but RECOVERY, and a cursor that is valid whenever
    the one it replaces was. *)
Record respected (P : Fields -> Prop) : Prop := mkRespected {
  r_timer : forall c v, P c -> P (set_timer v c);
  r_abort : forall c v, P c -> P (set_abortController v c);
  r_failures : forall c v, P c -> P (set_failures v c);
  r_position : forall c la lo rg, P c -> P (set_position la lo rg c);
  r_session : forall c, P c -> P (set_sessionId (sessionId c + 1) c);
  r_state : forall c s, s <> RECOVERY -> P c -> P (set_state s c);
  r_cursor : forall c i,
      (cursor_ok (currentProviderIndex c) -> cursor_ok i) ->
      P c -> P (set_currentProviderIndex i c)
}.

Lemma this_cleanup w :
  this (cleanup w) = set_abortController None (set_timer None (this w)).
Proof.
  unfold cleanup.
  destruct (timer (this w)) as [h|]; [destruct (h =? 0)|]; simpl;
    destruct (abortController (this w)); reflexivity.
Qed.

Section Respect.
Variable P : Fields -> Prop.
Hypothesis HP : respected P.

Lemma keep_scheduleNext d sid w :
  P (this w) -> P (this (scheduleNext d sid w)).
Proof.
  intros H. unfold scheduleNext. destruct (_ || _); simpl; auto.
  apply (r_timer HP), H.
Qed.

Lemma keep_cleanup w : P (this w) -> P (this (cleanup w)).
Proof.
  intros H. rewrite this_cleanup. apply (r_abort HP), (r_timer HP), H.
Qed.

Lemma keep_scanLoop sid w : P (this w) -> P (this (scanLoop sid w)).
Proof.
  intros H. unfold scanLoop.
  destruct (negb _); auto.
  destruct (SystemState_eqb _ _); auto.
  destruct (negb _).
  - apply keep_scheduleNext. simpl. apply (r_state HP); [discriminate|exact H].
  - simpl. apply (r_abort HP), H.
Qed.

Lemma keep_rotate w :
  P (this w) -> P (this (rotateProvider w)).
Proof.
  intros H. unfold rotateProvider. simpl. apply (r_cursor HP); auto.
  unfold cursor_ok. change (Z.of_nat (List.length PROVIDER_ORDER)) with 3.
  intros B. pose proof (Z.rem_bound_pos (currentProviderIndex (this w) + 1) 3).
  lia.
Qed.

Lemma keep_setConfig p la lo rg w :
  P (this w) -> P (this (setConfig p la lo rg w)).
Proof.
  intros H. unfold setConfig.
  match goal with |- context [with_this (set_position la lo rg) ?x] =>
    set (w2 := with_this (set_position la lo rg) x) end.
  assert (H2 : P (this w2)).
  { subst w2. simpl. apply (r_position HP), (r_cursor HP); auto.
    intros _. unfold cursor_ok.
    destruct (indexOf_range p) as [-> | B]; simpl; [lia|].
    destruct (0 <=? indexOf PROVIDER_ORDER p) eqn:E; lia. }
  clearbody w2.
  destruct (_ || _); auto.
  match goal with |- context [with_this ?f (log ?l ?m w2)] =>
    set (w4 := with_this f (log l m w2)) end.
  assert (H4 : P (this w4)) by (subst w4; simpl; apply (r_session HP), H2).
  destruct (SystemState_eqb _ _); auto.
  unfold restart. apply keep_scanLoop, keep_cleanup, H4.
Qed.

Lemma keep_start w : P (this w) -> P (this (start w)).
Proof.
  intros H. unfold start. destruct (SystemState_eqb _ _); auto.
  apply keep_scanLoop. simpl.
  apply (r_state HP); [discriminate|]. apply (r_failures HP), H.
Qed.

Lemma keep_stop w : P (this w) -> P (this (stop w)).
Proof.
  intros H. unfold stop. destruct (SystemState_eqb _ _); auto.
  apply keep_cleanup. simpl. apply (r_state HP); [discriminate|exact H].
Qed.

Lemma keep_catch sid p e w :
  P (this w) -> P (this (scanLoop_catch sid p e w)).
Proof.
  intros H. unfold scanLoop_catch.
  destruct (negb _); auto.
  destruct (String.eqb _ _); auto.
  assert (H1 : P (set_failures (failures (this w) + 1) (this w)))
    by apply (r_failures HP), H.
  destruct (_ <=? _); apply keep_scheduleNext.
  - change (P (this (rotateProvider
               (with_this (set_failures 0)
                  (log ERROR (ScanFailed p (message e))
                     (with_this (fun c => set_failures (failures c + 1) c) w)))))).
    apply keep_rotate. simpl. apply (r_failures HP), H1.
  - exact H1.
Qed.

Variable coerce : value -> Normalizer.Reading.
Variable stateVector : value -> value.

Lemma keep_resume sid p s w :
  P (this w) -> P (this (scanLoop_resume coerce stateVector sid p s w)).
Proof.
  intros H. unfold scanLoop_resume.
  destruct (executeFetchStrategy _ _ _ _); [|apply keep_catch, H].
  destruct (negb _); auto.
  destruct (processTargets _ _ _); [|apply keep_catch, H].
  apply keep_scheduleNext.
  assert (H1 : P (set_state SCANNING (set_failures 0 (this w)))).
  { apply (r_state HP); [discriminate|]. apply (r_failures HP), H. }
  destruct (_ <? _)%nat; exact H1.
Qed.

(** Every event respects the property. *)
Lemma keep_step w e : P (this w) -> P (this (step coerce stateVector w e)).
Proof.
  intros H. destruct e as [p la lo rg | | | b | h | h s]; simpl.
  - apply keep_setConfig, H.
  - apply keep_start, H.
  - apply keep_stop, H.
  - exact H.
  - unfold fire. destruct (find _ _); auto. apply keep_scanLoop, H.
  - unfold settle. destruct (find _ _); auto. apply keep_resume, H.
Qed.

Lemma keep_run es :
  forall w, P (this w) -> P (this (run coerce stateVector w es)).
Proof. induction es as [|e es IH]; simpl; auto using keep_step. Qed.

End Respect.

Lemma respected_state : respected (fun c => state c <> RECOVERY).
Proof. split; simpl; auto. Qed.

Lemma respected_cursor :
  respected (fun c => cursor_ok (currentProviderIndex c)).
Proof. split; simpl; auto. Qed.

Lemma respected_session k : respected (fun c => k <= sessionId c).
Proof. split; simpl; auto. intros; lia. Qed.

End Shape.

(* ------------------------------------------------------------------ *)
(** ** Session tokens, machine states and the provider cursor *)

Module Sessions.
Import JS Controller Effects Bookkeeping.
Local Open Scope Z_scope.

Section Runs.
Variable coerce : value -> Normalizer.Reading.
Variable stateVector : value -> value.

Local Abbreviation step := (step coerce stateVector).
Local Abbreviation run := (run coerce stateVector).

(** C1. Once a suspended fetch carries a session token different from the
    controller's current one, its completion is discarded whenever it
    arrives, after any further calls and events and whatever the network
    delivered: the controller's fields, the pending timeouts and the two
    sinks (log and snapshot) are all left as they were, so no snapshot is
    dispatched, nothing is logged and nothing is rescheduled. *)
Theorem stale_result_never_delivered :
  forall (page_protocol : string) (before after : list Event)
         (r : Request) (s : Settlement),
    let w1 := run (initial page_protocol) before in
    In r (inflight w1) ->
    request_session r <> sessionId (this w1) ->
    let w2 := run w1 after in
    let w3 := step w2 (FetchSettles (signal r) s) in
    request_session r < sessionId (this w2)
    /\ this w3 = this w2
    /\ emitted w3 = emitted w2
    /\ timeouts w3 = timeouts w2.
Proof.
  intros proto before after r s w1 Hin Hne w2 w3.
  assert (T1 : tidy w1)
    by (apply Invariants.tidy_run, Invariants.tidy_initial).
  assert (S1 : stale_in (signal r) w1).
  { destruct T1 as [F S U]. split; [auto|].
    intros r' Hr' E. rewrite (U r' r Hr' Hin E).
    specialize (S r Hin). lia. }
  assert (S2 : stale_in (signal r) w2)
    by (apply Invariants.stale_run, S1).
  split.
  - assert (M : sessionId (this w1) <= sessionId (this w2))
      by (apply (Shape.keep_run (Shape.respected_session _)); lia).
    destruct T1 as [F S U]. specialize (S r Hin). lia.
  - destruct (Invariants.settle_stale coerce stateVector s S2)
      as (A & B & C & _).
    auto.
Qed.

(** C9. In every state the controller can reach from its initial state,
    under any sequence of calls, timer expiries and fetch completions, the
    machine state is IDLE, SCANNING or FAULT: RECOVERY is never assigned. *)
Theorem recovery_never_assigned :
  forall (page_protocol : string) (es : list Event),
    let s := state (this (run (initial page_protocol) es)) in
    s = IDLE \/ s = SCANNING \/ s = FAULT.
Proof.
  intros proto es s.
  assert (N : s <> RECOVERY).
  { subst s. apply (Shape.keep_run Shape.respected_state). discriminate. }
  destruct s; auto; congruence.
Qed.

(** C10. The provider cursor is a valid index of the three-element
    provider sequence in every reachable state, and [setConfig] with a
    provider that is not in the sequence sets the cursor to 0, the
    position of ADSB_LOL. *)
Theorem provider_cursor_always_valid :
  forall (page_protocol : string) (es : list Event),
    let w := run (initial page_protocol) es in
    (0 <= currentProviderIndex (this w) < 3
     /\ exists p, providerAt (currentProviderIndex (this w)) = Some p
                  /\ In p PROVIDER_ORDER)
    /\ forall (provider : FlightProvider) (la lo rg : Q),
        ~ In provider PROVIDER_ORDER ->
        let w' := step w (CallSetConfig provider la lo rg) in
        currentProviderIndex (this w') = 0
        /\ providerAt (currentProviderIndex (this w')) = Some "ADSB_LOL"%string.
Proof.
  intros proto es w.
  assert (R : 0 <= currentProviderIndex (this w) < 3).
  { subst w. apply (Shape.keep_run Shape.respected_cursor).
    unfold Shape.cursor_ok; simpl; lia. }
  split; [split; [exact R|]|].
  - assert (C : currentProviderIndex (this w) = 0
                \/ currentProviderIndex (this w) = 1
                \/ currentProviderIndex (this w) = 2) by lia.
    destruct C as [-> | [-> | ->]]; eexists; (split; [reflexivity|]);
      simpl; auto.
  - intros p la lo rg N w'.
    assert (E : currentProviderIndex (this w') = 0).
    { subst w'. simpl. rewrite Shape.cursor_setConfig.
      rewrite (Shape.indexOf_absent N). reflexivity. }
    rewrite E. split; reflexivity.
Qed.

End Runs.

Local Open Scope string_scope.

(** An ADSB_LOL fetch issued in state FAULT is overtaken by a move of the
    origin; it later completes successfully and is dropped. *)
Lemma stale_result_never_delivered_witness :
  let before := [Connectivity false; CallStart; Connectivity true;
                 TimeoutFires 1; CallSetConfig "ADSB_LOL" 40 (-74) 50] in
  let after := [CallSetConfig "OPENSKY" 40 (-74) 50] in
  let r := mkRequest 2 0 (Some "ADSB_LOL"%string) false in
  let s := Responded true "200" (Some (VObj [("ac"%string, VArr [VObj []])])) in
  let w1 := run Plain.coerce Plain.stateVector (initial "https:") before in
  let w2 := run Plain.coerce Plain.stateVector w1 after in
  let w3 := step Plain.coerce Plain.stateVector w2 (FetchSettles 2 s) in
  In r (inflight w1)
  /\ request_session r <> sessionId (this w1)
  /\ request_session r < sessionId (this w2)
  /\ this w3 = this w2 /\ emitted w3 = emitted w2 /\ timeouts w3 = timeouts w2.
Proof.
  intros before after r s w1 w2 w3.
  assert (Hin : In r (inflight w1)) by (vm_compute; left; reflexivity).
  assert (Hne : request_session r <> sessionId (this w1))
    by (vm_compute; discriminate).
  split; [exact Hin|]. split; [exact Hne|].
  exact (stale_result_never_delivered Plain.coerce Plain.stateVector
           "https:" before after r s Hin Hne).
Defined.

(** [setConfig] with an unknown provider name from a cursor at OPENSKY. *)
Lemma provider_cursor_always_valid_witness :
  let es := [CallSetConfig "OPENSKY" 51.47%Q (-0.4543)%Q 50%Q] in
  let w := run Plain.coerce Plain.stateVector (initial "https:") es in
  let w' := step Plain.coerce Plain.stateVector w
              (CallSetConfig "FLIGHTAWARE" 51.47%Q (-0.4543)%Q 50%Q) in
  currentProviderIndex (this w) = 2
  /\ ~ In "FLIGHTAWARE"%string PROVIDER_ORDER
  /\ currentProviderIndex (this w') = 0
  /\ providerAt (currentProviderIndex (this w')) = Some "ADSB_LOL"%string.
Proof.
  intros es w w'.
  assert (N : ~ In "FLIGHTAWARE"%string PROVIDER_ORDER)
    by (simpl; intros [H | [H | [H | []]]]; discriminate H).
  split; [vm_compute; reflexivity|]. split; [exact N|].
  exact (proj2 (provider_cursor_always_valid Plain.coerce Plain.stateVector
                  "https:" es) "FLIGHTAWARE"%string 51.47%Q (-0.4543)%Q 50%Q N).
Defined.

End Sessions.

(* ------------------------------------------------------------------ *)
(** ** One loop iteration: the unreachable branch and the success path *)

Module Iteration.
Import JS Controller Effects Bookkeeping.
Local Open Scope Z_scope.

(** C5. An iteration that runs (current token, state other than IDLE)
    while the network is reported unreachable logs one ERROR entry, sets
    the state to FAULT, arms one timer of exactly 5000 ms under the same
    token and issues no fetch; the provider cursor, the failure counter
    and the token are left as they were, whatever the counter's value. *)
Theorem unreachable_iteration :
  forall (w : World) (activeSessionId : Z),
    activeSessionId = sessionId (this w) ->
    state (this w) <> IDLE ->
    onLine w = false ->
    let w' := scanLoop activeSessionId w in
    emitted w' = emitted w ++ [Logged (mkLog ERROR NetworkLinkOffline)]
    /\ state (this w') = FAULT
    /\ timeouts w' = timeouts w ++ [mkTimeout (nextHandle w) 5000 activeSessionId]
    /\ timer (this w') = Some (nextHandle w)
    /\ inflight w' = inflight w
    /\ abortController (this w') = abortController (this w)
    /\ currentProviderIndex (this w') = currentProviderIndex (this w)
    /\ failures (this w') = failures (this w)
    /\ sessionId (this w') = sessionId (this w).
Proof.
  intros w sid -> Hs Ho. cbv zeta. unfold scanLoop.
  rewrite Z.eqb_refl. simpl negb. cbv iota.
  apply state_eqb_neq in Hs. rewrite Hs, Ho. simpl negb. cbv iota.
  unfold scheduleNext. simpl. rewrite Z.eqb_refl. simpl.
  repeat split.
Qed.

Section Resume.
Variable coerce : value -> Normalizer.Reading.
Variable stateVector : value -> value.

Local Abbreviation step := (step coerce stateVector).

(** The request listening on [h], if one is suspended. *)
Definition awaiting (h : Z) (w : World) : option Request :=
  find (fun r => signal r =? h) (inflight w).

(** C7. When a fetch of the current session settles successfully, the
    controller sets the failure counter to 0 and the state to SCANNING,
    logs, then emits a snapshot that carries state SCANNING, and arms
    exactly one timer under the same token: 15000 ms when rangeKm is
    greater than 300 and 6000 ms otherwise (so 15000 ms for 400 km and
    6000 ms for 50 km). *)
Theorem success_iteration :
  forall (w : World) (r : Request) (s : Settlement) (rawData : value)
         (ts : list Normalizer.RadarTarget),
    awaiting (signal r) w = Some r ->
    aborted r = false ->
    request_session r = sessionId (this w) ->
    executeFetchStrategy stateVector (protocol w) (request_provider r) s
      = Ok rawData ->
    processTargets coerce (this w) rawData = Ok ts ->
    let w' := step w (FetchSettles (signal r) s) in
    let d := if negb (Qle_bool (rangeKm (this w)) 300) then 15000 else 6000 in
    failures (this w') = 0
    /\ state (this w') = SCANNING
    /\ (exists entry,
          emitted w'
          = emitted w ++ [Logged entry;
                          Snapshot (mkUpdate ts SCANNING (request_provider r))])
    /\ timeouts w'
       = timeouts w ++ [mkTimeout (nextHandle w) d (request_session r)]
    /\ ((300 < rangeKm (this w))%Q -> d = 15000)
    /\ ((rangeKm (this w) <= 300)%Q -> d = 6000)
    /\ ((rangeKm (this w) == 400)%Q -> d = 15000)
    /\ ((rangeKm (this w) == 50)%Q -> d = 6000).
Proof.
  intros w r s rawData ts Hf Ha Hs He Hp. cbv zeta.
  assert (D1 : (300 < rangeKm (this w))%Q ->
               (if negb (Qle_bool (rangeKm (this w)) 300) then 15000 else 6000)
               = 15000).
  { intros L. destruct (Qle_bool _ _) eqn:E; auto.
    apply Qle_bool_iff in E. exfalso. exact (Qlt_not_le _ _ L E). }
  assert (D2 : (rangeKm (this w) <= 300)%Q ->
               (if negb (Qle_bool (rangeKm (this w)) 300) then 15000 else 6000)
               = 6000).
  { intros L. apply Qle_bool_iff in L. rewrite L. reflexivity. }
  simpl. unfold settle. unfold awaiting in Hf. rewrite Hf, Ha.
  unfold scanLoop_resume.
  change (protocol (set_inflight _ w)) with (protocol w).
  change (this (set_inflight _ w)) with (this w).
  rewrite He, Hs, Z.eqb_refl. simpl negb. cbv iota. rewrite Hp.
  unfold scheduleNext.
  assert (D3 : (rangeKm (this w) == 400)%Q -> (300 < rangeKm (this w))%Q)
    by (intros E; rewrite E; reflexivity).
  assert (D4 : (rangeKm (this w) == 50)%Q -> (rangeKm (this w) <= 300)%Q)
    by (intros E; rewrite E; discriminate).
  destruct (0 <? List.length ts)%nat; simpl; rewrite Z.eqb_refl; simpl;
    rewrite <- app_assoc; simpl;
    (split; [reflexivity|]); (split; [reflexivity|]);
    (split; [eexists; reflexivity|]); (split; [reflexivity|]);
    repeat split; auto.
Qed.

End Resume.

Local Open Scope string_scope.

(** The controller was started on line and then lost the network. *)
Lemma unreachable_iteration_witness :
  let w := run Plain.coerce Plain.stateVector (initial "https:")
             [CallStart; Connectivity false] in
  let w' := scanLoop 0 w in
  failures (this w) = 0
  /\ emitted w' = (emitted w ++ [Logged (mkLog ERROR NetworkLinkOffline)])%list
  /\ state (this w') = FAULT
  /\ timeouts w' = (timeouts w ++ [mkTimeout (nextHandle w) 5000 0])%list.
Proof.
  intros w w'.
  assert (A : 0 = sessionId (this w)) by (vm_compute; reflexivity).
  assert (B : state (this w) <> IDLE) by (vm_compute; discriminate).
  assert (C : onLine w = false) by (vm_compute; reflexivity).
  pose proof (unreachable_iteration w A B C) as H. cbv zeta in H.
  split; [vm_compute; reflexivity|].
  destruct H as (H1 & H2 & H3 & _). auto.
Defined.

(** A 400 km configuration: an empty ADSB_LOL list arrives. *)
Lemma success_iteration_witness :
  let w := run Plain.coerce Plain.stateVector (initial "https:")
             [CallSetConfig "ADSB_LOL" 51.47%Q (-0.4543)%Q 400%Q; CallStart] in
  let r := mkRequest 1 1 (Some "ADSB_LOL") false in
  let s := Responded true "200" (Some (VObj [("ac", VArr [])])) in
  let w' := step Plain.coerce Plain.stateVector w (FetchSettles 1 s) in
  awaiting 1 w = Some r
  /\ failures (this w') = 0
  /\ state (this w') = SCANNING
  /\ timeouts w' = (timeouts w ++ [mkTimeout (nextHandle w) 15000 1])%list.
Proof.
  intros w r s w'.
  assert (A : awaiting (signal r) w = Some r) by (vm_compute; reflexivity).
  assert (B : request_session r = sessionId (this w))
    by (vm_compute; reflexivity).
  assert (C : executeFetchStrategy Plain.stateVector (protocol w)
                (request_provider r) s = Ok (VArr []))
    by (vm_compute; reflexivity).
  assert (D : processTargets Plain.coerce (this w) (VArr []) = Ok [])
    by (vm_compute; reflexivity).
  pose proof (@success_iteration Plain.coerce Plain.stateVector w r s
                (VArr []) [] A eq_refl B C D) as H.
  cbv zeta in H. destruct H as (H1 & H2 & _ & H4 & _ & _ & H7 & _).
  split; [exact A|]. split; [exact H1|]. split; [exact H2|].
  rewrite H7 in H4 by (vm_compute; reflexivity). exact H4.
Defined.

End Iteration.

(* ------------------------------------------------------------------ *)
(** ** Reconfiguration *)

Module Reconfiguration.
Import JS Controller Effects Bookkeeping.
Local Open Scope Z_scope.

Lemma timeouts_cleanup w :
  timeouts (cleanup w)
  = match timer (this w) with
    | Some h => if h =? 0 then timeouts w
                else filter (fun t => negb (handle t =? h)) (timeouts w)
    | None => timeouts w
    end.
Proof.
  unfold cleanup.
  destruct (timer (this w)) as [h|]; [destruct (h =? 0)|]; simpl;
    destruct (abortController (this w)); reflexivity.
Qed.

Lemma inflight_cleanup w :
  inflight (cleanup w)
  = match abortController (this w) with
    | Some h => map (abort_request h) (inflight w)
    | None => inflight w
    end.
Proof.
  unfold cleanup.
  destruct (timer (this w)) as [h|]; [destruct (h =? 0)|]; simpl;
    destruct (abortController (this w)); reflexivity.
Qed.

Lemma emitted_cleanup w : emitted (cleanup w) = emitted w.
Proof. apply cleanup_fields. Qed.

Lemma nextHandle_cleanup w : nextHandle (cleanup w) = nextHandle w.
Proof. apply cleanup_fields. Qed.



Lemma scanLoop_online sid w :
  sid = sessionId (this w) -> state (this w) <> IDLE -> onLine w = true ->
  scanLoop sid w
  = set_inflight
      (inflight w ++ [mkRequest (nextHandle w) sid
                        (providerAt (currentProviderIndex (this w))) false])
      (log INFO Uplinking
         (fresh (with_this (set_abortController (Some (nextHandle w))) w))).
Proof.
  intros -> Hs Ho. unfold scanLoop.
  rewrite Z.eqb_refl. simpl negb. cbv iota.
  apply state_eqb_neq in Hs. rewrite Hs, Ho. reflexivity.
Qed.

(** What [setConfig] compares: the new position and range against the
    current ones. *)
Definition same_area (w : World) (la lo rg : Q) : Prop :=
  (lat (this w) == la /\ lon (this w) == lo /\ rangeKm (this w) == rg)%Q.

Lemma changed_false w la lo rg :
  same_area w la lo rg ->
  negb (Qeq_bool (lat (this w)) la) || negb (Qeq_bool (lon (this w)) lo)
  || negb (Qeq_bool (rangeKm (this w)) rg) = false.
Proof.
  intros (A & B & C). apply Qeq_bool_iff in A, B, C.
  rewrite A, B, C. reflexivity.
Qed.

Lemma changed_true w la lo rg :
  ~ same_area w la lo rg ->
  negb (Qeq_bool (lat (this w)) la) || negb (Qeq_bool (lon (this w)) lo)
  || negb (Qeq_bool (rangeKm (this w)) rg) = true.
Proof.
  intros N.
  destruct (Qeq_bool (lat (this w)) la) eqn:A; auto.
  destruct (Qeq_bool (lon (this w)) lo) eqn:B; auto.
  destruct (Qeq_bool (rangeKm (this w)) rg) eqn:C; auto.
  exfalso. apply N. repeat split; apply Qeq_bool_iff; assumption.
Qed.


Local Open Scope string_scope.


End Reconfiguration.

(* ------------------------------------------------------------------ *)
(** ** Timer handles are never reused *)

Module Handles.
Import JS Controller Effects Bookkeeping.
Local Open Scope Z_scope.

Definition handles_fresh (w : World) : Prop :=
  forall t, In t (timeouts w) -> handle t < nextHandle w.

(** [w'] keeps some of the timeouts of [w] and adds only timeouts whose
    handles were handed out in between. *)
Definition extends (w w' : World) : Prop :=
  nextHandle w <= nextHandle w'
  /\ forall t, In t (timeouts w') ->
               In t (timeouts w) \/ nextHandle w <= handle t < nextHandle w'.

Lemma extends_refl w : extends w w.
Proof. split; [lia|auto]. Qed.

Lemma extends_trans w1 w2 w3 : extends w1 w2 -> extends w2 w3 -> extends w1 w3.
Proof.
  intros (A & B) (C & D). split; [lia|].
  intros t Ht. destruct (D t Ht) as [H | H]; [|right; lia].
  destruct (B t H) as [H' | H']; [auto|right; lia].
Qed.

Lemma extends_same w w' :
  timeouts w' = timeouts w -> nextHandle w' = nextHandle w -> extends w w'.
Proof. intros A B. split; [lia|]. rewrite A. auto. Qed.

Lemma extends_fresh w w' : extends w w' -> handles_fresh w -> handles_fresh w'.
Proof.
  intros (A & B) F t Ht. destruct (B t Ht) as [H | H]; [|lia].
  specialize (F t H). lia.
Qed.

Lemma extends_scheduleNext d sid w : extends w (scheduleNext d sid w).
Proof.
  unfold scheduleNext. destruct (_ || _); [apply extends_refl|].
  split; project; [lia|].
  intros t Ht. apply in_app_or in Ht as [Ht | [<- | []]]; auto.
  right; simpl; lia.
Qed.

Lemma extends_clearTimeout h w : extends w (clearTimeout h w).
Proof.
  split; project; [lia|]. intros t Ht. apply filter_In in Ht as [Ht _]. auto.
Qed.

Lemma extends_cleanup w : extends w (cleanup w).
Proof.
  split; [rewrite (proj2 (proj2 (proj2 (proj2 (proj2 (proj2 (proj2
            (cleanup_fields w)))))))); lia|].
  intros t. unfold cleanup.
  destruct (timer (this w)) as [h|]; [destruct (h =? 0)|];
    destruct (abortController _); project; auto;
    intros Ht; apply filter_In in Ht as [Ht _]; auto.
Qed.

Lemma extends_scanLoop sid w : extends w (scanLoop sid w).
Proof.
  unfold scanLoop.
  destruct (negb _); [apply extends_refl|].
  destruct (SystemState_eqb _ _); [apply extends_refl|].
  destruct (negb _).
  - eapply extends_trans; [|apply extends_scheduleNext].
    apply extends_same; reflexivity.
  - split; project; [lia|auto].
Qed.

Lemma extends_catch sid p e w : extends w (scanLoop_catch sid p e w).
Proof.
  unfold scanLoop_catch.
  destruct (negb _); [apply extends_refl|].
  destruct (String.eqb _ _); [apply extends_refl|].
  destruct (_ <=? _);
    (eapply extends_trans; [|apply extends_scheduleNext]);
    apply extends_same; reflexivity.
Qed.

Section Runs.
Variable coerce : value -> Normalizer.Reading.
Variable stateVector : value -> value.

Lemma extends_resume sid p s w :
  extends w (scanLoop_resume coerce stateVector sid p s w).
Proof.
  unfold scanLoop_resume.
  destruct (executeFetchStrategy _ _ _ _); [|apply extends_catch].
  destruct (negb _); [apply extends_refl|].
  destruct (processTargets _ _ _); [|apply extends_catch].
  eapply extends_trans; [|apply extends_scheduleNext].
  destruct (_ <? _)%nat; apply extends_same; reflexivity.
Qed.

Lemma extends_step w e : extends w (step coerce stateVector w e).
Proof.
  destruct e as [p la lo rg | | | b | h | h s]; simpl.
  - unfold setConfig.
    match goal with |- context [with_this (set_position la lo rg) ?x] =>
      set (w2 := with_this (set_position la lo rg) x) end.
    assert (E2 : extends w w2) by (apply extends_same; reflexivity).
    clearbody w2. destruct (_ || _); auto.
    match goal with |- context [with_this ?f (log ?l ?m w2)] =>
      set (w4 := with_this f (log l m w2)) end.
    assert (E4 : extends w w4)
      by (eapply extends_trans; [exact E2|]; apply extends_same; reflexivity).
    clearbody w4. destruct (SystemState_eqb _ _); auto.
    unfold restart.
    eapply extends_trans; [exact E4|].
    eapply extends_trans; [apply extends_cleanup|apply extends_scanLoop].
  - unfold start. destruct (SystemState_eqb _ _); [apply extends_refl|].
    eapply extends_trans; [|apply extends_scanLoop].
    apply extends_same; reflexivity.
  - unfold stop. destruct (SystemState_eqb _ _); [apply extends_refl|].
    eapply extends_trans; [|apply extends_cleanup].
    apply extends_same; reflexivity.
  - apply extends_same; reflexivity.
  - unfold fire. destruct (find _ _); [|apply extends_refl].
    eapply extends_trans; [apply extends_clearTimeout|apply extends_scanLoop].
  - unfold settle. destruct (find _ _); [|apply extends_refl].
    eapply extends_trans; [|apply extends_resume].
    apply extends_same; reflexivity.
Qed.

Lemma handles_fresh_run es :
  forall w, handles_fresh w -> handles_fresh (run coerce stateVector w es).
Proof.
  induction es as [|e es IH]; simpl; auto.
  intros w F. apply IH. eapply extends_fresh; [apply extends_step|exact F].
Qed.

Lemma handles_fresh_reachable proto es :
  handles_fresh (run coerce stateVector (initial proto) es).
Proof. apply handles_fresh_run. intros t []. Qed.

End Runs.
End Handles.

(* ------------------------------------------------------------------ *)
(** ** Failure counting and provider failover *)

Module Failover.
Import JS Controller Effects Bookkeeping.
Local Open Scope Z_scope.

Lemma find_app_new {A} (f : A -> bool) l y :
  (forall x, In x l -> f x = false) -> f y = true ->
  find f (l ++ [y]) = Some y.
Proof.
  intros N Y. induction l as [|x l IH]; simpl; [rewrite Y; reflexivity|].
  rewrite (N x) by (left; reflexivity). apply IH.
  intros z Hz. apply N. right; exact Hz.
Qed.

Lemma filter_all {A} (f : A -> bool) l :
  (forall x, In x l -> f x = true) -> filter f l = l.
Proof.
  intros N. induction l as [|x l IH]; simpl; [reflexivity|].
  rewrite (N x) by (left; reflexivity). f_equal. apply IH.
  intros z Hz. apply N. right; exact Hz.
Qed.

Lemma filter_app_new {A} (f : A -> bool) l y :
  (forall x, In x l -> f x = true) -> f y = false ->
  filter f (l ++ [y]) = l.
Proof.
  intros N Y. rewrite filter_app, (filter_all f l N). simpl. rewrite Y.
  apply app_nil_r.
Qed.

(** An iteration that passes its guards on line suspends on a fetch
    listening on a new signal. *)
Lemma scanLoop_online_at sid w :
  sid = sessionId (this w) -> state (this w) <> IDLE -> onLine w = true ->
  scanLoop sid w
  = set_inflight
      (inflight w ++ [mkRequest (nextHandle w) sid
                        (providerAt (currentProviderIndex (this w))) false])
      (log INFO Uplinking
         (fresh (with_this (set_abortController (Some (nextHandle w))) w))).
Proof. apply Reconfiguration.scanLoop_online. Qed.

(** A counted failure below the threshold: retry the same provider. *)
Lemma catch_retry sid p e w :
  sid = sessionId (this w) -> name e <> "AbortError"%string ->
  state (this w) <> IDLE -> failures (this w) + 1 < MAX_FAILURES_PER_PROVIDER ->
  scanLoop_catch sid p e w
  = fresh (set_timeouts (timeouts w ++ [mkTimeout (nextHandle w) 3000 sid])
      (with_this (set_timer (Some (nextHandle w)))
         (log ERROR (ScanFailed p (message e))
            (with_this (fun c => set_failures (failures c + 1) c) w)))).
Proof.
  intros -> Hn Hs Hf. unfold scanLoop_catch.
  rewrite Z.eqb_refl. simpl negb. cbv iota.
  apply String.eqb_neq in Hn. rewrite Hn.
  project. apply Z.leb_gt in Hf. rewrite Hf.
  unfold scheduleNext. project.
  apply state_eqb_neq in Hs. rewrite Hs, Z.eqb_refl. reflexivity.
Qed.

(** A counted failure that reaches the threshold: reset and rotate. *)
Lemma catch_rotate sid p e w :
  sid = sessionId (this w) -> name e <> "AbortError"%string ->
  state (this w) <> IDLE -> MAX_FAILURES_PER_PROVIDER <= failures (this w) + 1 ->
  scanLoop_catch sid p e w
  = let w3 := rotateProvider
                (with_this (set_failures 0)
                   (log ERROR (ScanFailed p (message e))
                      (with_this (fun c => set_failures (failures c + 1) c) w))) in
    fresh (set_timeouts (timeouts w ++ [mkTimeout (nextHandle w) 1000 sid])
      (with_this (set_timer (Some (nextHandle w)))
         (log WARN
            (ReroutingDataLink (providerAt (currentProviderIndex (this w3))))
            w3))).
Proof.
  intros -> Hn Hs Hf. unfold scanLoop_catch.
  rewrite Z.eqb_refl. simpl negb. cbv iota.
  apply String.eqb_neq in Hn. rewrite Hn.
  project. apply Z.leb_le in Hf. rewrite Hf.
  unfold scheduleNext. project.
  apply state_eqb_neq in Hs. rewrite Hs, Z.eqb_refl. reflexivity.
Qed.

Section Runs.
Variable coerce : value -> Normalizer.Reading.
Variable stateVector : value -> value.

Local Abbreviation step := (step coerce stateVector).
Local Abbreviation run := (run coerce stateVector).

(** The fetch settled by [s] ends in the thrown error [e]: either
    [executeFetchStrategy] throws it or [processTargets] does. *)
Definition failed (w : World) (p : option FlightProvider) (s : Settlement)
           (e : error) : Prop :=
  executeFetchStrategy stateVector (protocol w) p s = Throw e
  \/ exists rawData,
       executeFetchStrategy stateVector (protocol w) p s = Ok rawData
       /\ processTargets coerce (this w) rawData = Throw e.

Lemma resume_failed sid p s e w :
  sid = sessionId (this w) -> failed w p s e ->
  scanLoop_resume coerce stateVector sid p s w = scanLoop_catch sid p e w.
Proof.
  intros -> [F | (raw & F & G)]; unfold scanLoop_resume; rewrite F; auto.
  rewrite Z.eqb_refl, G. reflexivity.
Qed.

(** The regular path. In a reachable state where a fetch of the active
    provider is suspended under the current token, the controller is
    active and on line and the failure counter is 0: a first failure
    that is not a cancellation leaves the counter at 1 and the cursor
    unchanged and schedules the retry after 3000 ms; the retry fetches
    from the same provider; a second such failure resets the counter to
    0, advances the cursor by exactly one position modulo 3 and
    schedules the retry after 1000 ms. The hypothesis on the counter is
    needed: the counter is not reset when [setConfig] selects another
    provider, as shown below. *)
Theorem two_failures_rotate :
  forall (page_protocol : string) (es : list Event) (r : Request)
         (s1 s2 : Settlement) (e1 e2 : error),
    let w := run (initial page_protocol) es in
    let sid := sessionId (this w) in
    let cursor := currentProviderIndex (this w) in
    let retry := mkRequest (nextHandle w + 1) sid (providerAt cursor) false in
    Iteration.awaiting (signal r) w = Some r ->
    aborted r = false ->
    request_session r = sid ->
    request_provider r = providerAt cursor ->
    state (this w) <> IDLE ->
    failures (this w) = 0 ->
    onLine w = true ->
    failed w (providerAt cursor) s1 e1 ->
    name e1 <> "AbortError"%string ->
    let w1 := step w (FetchSettles (signal r) s1) in
    let w2 := step w1 (TimeoutFires (nextHandle w)) in
    failed w2 (providerAt cursor) s2 e2 ->
    name e2 <> "AbortError"%string ->
    let w3 := step w2 (FetchSettles (nextHandle w + 1) s2) in
    (failures (this w1) = 1
     /\ currentProviderIndex (this w1) = cursor
     /\ timeouts w1 = timeouts w ++ [mkTimeout (nextHandle w) 3000 sid]
     /\ emitted w1
        = emitted w
            ++ [Logged (mkLog ERROR (ScanFailed (providerAt cursor) (message e1)))])
    /\ (Iteration.awaiting (nextHandle w + 1) w2 = Some retry
        /\ timeouts w2 = timeouts w)
    /\ (failures (this w3) = 0
        /\ currentProviderIndex (this w3) = (cursor + 1) mod 3
        /\ timeouts w3 = timeouts w ++ [mkTimeout (nextHandle w + 2) 1000 sid]
        /\ sessionId (this w3) = sid).
Proof.
  intros proto es r s1 s2 e1 e2 w sid cursor retry
         Hf Ha Hs Hp Hst Hfl Hon F1 N1 w1 w2 F2 N2 w3.
  assert (T : tidy w)
    by (apply Invariants.tidy_run, Invariants.tidy_initial).
  assert (Fr : Handles.handles_fresh w)
    by apply Handles.handles_fresh_reachable.
  assert (C : Shape.cursor_ok cursor).
  { apply (Shape.keep_run Shape.respected_cursor).
    unfold Shape.cursor_ok; simpl; lia. }
  fold sid cursor in Hst, Hfl.
  (* first failure *)
  set (rest := filter (fun r' => negb (signal r' =? signal r)) (inflight w)).
  assert (W1 : w1
    = fresh (set_timeouts (timeouts w ++ [mkTimeout (nextHandle w) 3000 sid])
        (with_this (set_timer (Some (nextHandle w)))
           (log ERROR (ScanFailed (providerAt cursor) (message e1))
              (with_this (fun c => set_failures (failures c + 1) c)
                 (set_inflight rest w)))))).
  { subst w1. simpl. unfold settle.
    unfold Iteration.awaiting in Hf. rewrite Hf, Ha, Hs, Hp.
    fold rest.
    rewrite (@resume_failed sid (providerAt cursor) s1 e1
               (set_inflight rest w) eq_refl F1).
    rewrite catch_retry; [reflexivity|reflexivity|exact N1|exact Hst|].
    project. rewrite Hfl. reflexivity. }
  assert (R1 : forall q, In q rest -> signal q < nextHandle w).
  { intros q Hq. apply filter_In in Hq as [Hq _].
    apply (tidy_fresh T), Hq. }
  (* the retry timer fires *)
  assert (W2 : w2
    = set_inflight (rest ++ [retry])
        (log INFO Uplinking
           (fresh (with_this (set_abortController (Some (nextHandle w + 1)))
                     (clearTimeout (nextHandle w) w1))))).
  { subst w2. simpl. unfold fire.
    assert (Fd : find (fun t => handle t =? nextHandle w) (timeouts w1)
                 = Some (mkTimeout (nextHandle w) 3000 sid)).
    { rewrite W1. project. apply find_app_new.
      - intros t Ht. apply Z.eqb_neq. specialize (Fr t Ht). lia.
      - apply Z.eqb_refl. }
    rewrite Fd. cbn [timeout_session].
    rewrite (@scanLoop_online_at sid (clearTimeout (nextHandle w) w1)).
    - rewrite W1. reflexivity.
    - rewrite W1. reflexivity.
    - rewrite W1. project. exact Hst.
    - rewrite W1. project. exact Hon. }
  assert (T2 : timeouts w2 = timeouts w).
  { rewrite W2, W1. project. apply filter_app_new.
    - intros t Ht. apply negb_true_iff, Z.eqb_neq. specialize (Fr t Ht). lia.
    - simpl. rewrite Z.eqb_refl. reflexivity. }
  assert (A2 : Iteration.awaiting (nextHandle w + 1) w2 = Some retry).
  { unfold Iteration.awaiting. rewrite W2. project. apply find_app_new.
    - intros q Hq. apply Z.eqb_neq. specialize (R1 q Hq). lia.
    - apply Z.eqb_refl. }
  (* second failure *)
  assert (W3 : w3
    = let w2' := set_inflight
                   (filter (fun r' => negb (signal r' =? nextHandle w + 1))
                           (inflight w2)) w2 in
      scanLoop_catch sid (providerAt cursor) e2 w2').
  { subst w3. simpl. unfold settle.
    unfold Iteration.awaiting in A2. rewrite A2. cbv zeta. subst retry.
    project. apply resume_failed; [|exact F2].
    rewrite W2, W1. reflexivity. }
  cbv zeta in W3.
  rewrite catch_rotate in W3; auto.
  2: { rewrite W2, W1. reflexivity. }
  2: { rewrite W2, W1. project. exact Hst. }
  2: { rewrite W2, W1. project. rewrite Hfl. unfold MAX_FAILURES_PER_PROVIDER. lia. }
  cbv zeta in W3.
  split; [|split].
  - rewrite W1. project. rewrite Hfl. repeat split.
  - split; [exact A2|exact T2].
  - rewrite W3. project. rewrite T2.
    split; [reflexivity|]. split; [|split].
    + rewrite W2, W1. project.
      change (Z.of_nat (List.length PROVIDER_ORDER)) with 3.
      unfold Shape.cursor_ok in C.
      apply Z.rem_mod_nonneg; lia.
    + rewrite W2, W1. project.
      replace (nextHandle w + 1 + 1) with (nextHandle w + 2) by lia.
      reflexivity.
    + rewrite W2, W1. reflexivity.
Qed.

(** [setConfig] never writes the failure counter. *)
Lemma failures_setConfig p la lo rg w :
  failures (this (setConfig p la lo rg w)) = failures (this w).
Proof.
  unfold setConfig.
  match goal with |- context [with_this (set_position la lo rg) ?x] =>
    set (w2 := with_this (set_position la lo rg) x) end.
  assert (E2 : failures (this w2) = failures (this w)) by reflexivity.
  clearbody w2. destruct (_ || _); [|exact E2].
  match goal with |- context [with_this ?f (log ?l ?m w2)] =>
    set (w4 := with_this f (log l m w2)) end.
  assert (E4 : failures (this w4) = failures (this w2)) by reflexivity.
  clearbody w4. destruct (SystemState_eqb _ _); [|congruence].
  unfold restart.
  destruct (scanLoop_fields (sessionId (this (cleanup w4))) (cleanup w4))
    as (_ & -> & _).
  destruct (cleanup_fields w4) as (_ & -> & _). congruence.
Qed.

(** What the application does when the provider is changed in its
    settings while ADSB_LOL has just failed once: the effect hook calls
    [setConfig] with the unchanged area and then [start]. *)
Definition switched_after_one_failure : list Event :=
  [CallSetConfig "ADSB_LOL"%string 51.47%Q (-0.4543)%Q 50%Q; CallStart;
   FetchSettles 1 (Rejected (TypeError "Failed to fetch"%string));
   CallSetConfig "OPENSKY"%string 51.47%Q (-0.4543)%Q 50%Q; CallStart].

(** C3 fails on the code. The counter is one field for all providers:
    [setConfig] moves the cursor to the provider it is given and never
    writes the counter, and whenever the counter is 1 a single failure
    of whatever provider is then active resets it, advances the cursor
    and schedules the retry after 1000 ms. So after one failure of
    ADSB_LOL and a switch to OPENSKY for the same area, the first
    failure of OPENSKY already rotates away from it, to ADSB_LOL: the
    counter is not 1, the provider is not unchanged and the delay is
    not 3000 ms. *)
Theorem failure_count_survives_provider_switch :
  (forall (w : World) (p : FlightProvider) (la lo rg : Q),
      failures (this (setConfig p la lo rg w)) = failures (this w))
  /\ (forall (w : World) (r : Request) (s : Settlement) (e : error),
        Iteration.awaiting (signal r) w = Some r ->
        aborted r = false ->
        request_session r = sessionId (this w) ->
        state (this w) <> IDLE ->
        failures (this w) = 1 ->
        failed w (request_provider r) s e ->
        name e <> "AbortError"%string ->
        let w' := step w (FetchSettles (signal r) s) in
        failures (this w') = 0
        /\ currentProviderIndex (this w')
           = Z.rem (currentProviderIndex (this w) + 1) 3
        /\ timeouts w'
           = (timeouts w
                ++ [mkTimeout (nextHandle w) 1000 (sessionId (this w))]))
  /\ (let w1 := run (initial "https:"%string) switched_after_one_failure in
      let w2 := step w1 (TimeoutFires 2) in
      let w3 := step w2 (FetchSettles 3
                           (Responded false "503 Service Unavailable"%string None)) in
      (failures (this w1) = 1
       /\ currentProviderIndex (this w1) = 2
       /\ providerAt 2 = Some "OPENSKY"%string
       /\ timeouts w1 = [mkTimeout 2 3000 1])
      /\ inflight w2 = [mkRequest 3 1 (Some "OPENSKY"%string) false]
      /\ (failures (this w3) = 0
          /\ currentProviderIndex (this w3) = 0
          /\ providerAt 0 = Some "ADSB_LOL"%string
          /\ timeouts w3 = [mkTimeout 4 1000 1]
          /\ emitted w3
             = (emitted w2
                  ++ [Logged (mkLog ERROR
                        (ScanFailed (Some "OPENSKY"%string)
                           "HTTP 503 Service Unavailable"%string));
                      Logged (mkLog WARN
                        (ReroutingDataLink (Some "ADSB_LOL"%string)))]))).
Proof.
  split; [intros; apply failures_setConfig|]. split.
  - intros w r s e Hf Ha Hs Hst Hfl F N w'.
    set (wa := set_inflight
                 (filter (fun r' => negb (signal r' =? signal r)) (inflight w))
                 w).
    assert (E : w' = scanLoop_catch (request_session r) (request_provider r)
                       e wa).
    { subst w'. simpl. unfold settle.
      unfold Iteration.awaiting in Hf. rewrite Hf, Ha. fold wa.
      apply resume_failed; [exact Hs|exact F]. }
    rewrite E, catch_rotate; [|exact Hs|exact N|exact Hst|].
    + cbv zeta. project. rewrite Hs. subst wa. project.
      split; [reflexivity|]. split; reflexivity.
    + unfold wa. project. rewrite Hfl. unfold MAX_FAILURES_PER_PROVIDER. lia.
  - cbv zeta. repeat split; vm_compute; reflexivity.
Qed.

End Runs.

Local Open Scope string_scope.

(** ADSB_LOL first rejects the connection, then answers 503. *)
Lemma two_failures_rotate_witness :
  let w := run Plain.coerce Plain.stateVector (initial "https:") [CallStart] in
  let r := mkRequest 1 0 (Some "ADSB_LOL") false in
  let s1 := Rejected (TypeError "Failed to fetch") in
  let s2 := Responded false "503 Service Unavailable" None in
  let w1 := step Plain.coerce Plain.stateVector w (FetchSettles 1 s1) in
  let w2 := step Plain.coerce Plain.stateVector w1 (TimeoutFires 2) in
  let w3 := step Plain.coerce Plain.stateVector w2 (FetchSettles 3 s2) in
  Iteration.awaiting 1 w = Some r
  /\ failures (this w) = 0
  /\ failures (this w1) = 1
  /\ currentProviderIndex (this w1) = 0
  /\ failures (this w3) = 0
  /\ currentProviderIndex (this w3) = 1
  /\ timeouts w3 = [mkTimeout 4 1000 0].
Proof.
  intros w r s1 s2 w1 w2 w3.
  assert (A : Iteration.awaiting (signal r) w = Some r)
    by (vm_compute; reflexivity).
  assert (F1 : failed Plain.coerce Plain.stateVector w
                 (providerAt (currentProviderIndex (this w))) s1
                 (Error "Network Error (CORS/Connection Refused)"))
    by (left; vm_compute; reflexivity).
  assert (F2 : failed Plain.coerce Plain.stateVector w2
                 (providerAt (currentProviderIndex (this w))) s2
                 (Error "HTTP 503 Service Unavailable"))
    by (left; vm_compute; reflexivity).
  assert (N1 : name (Error "Network Error (CORS/Connection Refused)")
               <> "AbortError") by discriminate.
  assert (N2 : name (Error "HTTP 503 Service Unavailable") <> "AbortError")
    by discriminate.
  assert (Hst : state (this w) <> IDLE) by (vm_compute; discriminate).
  pose proof (@two_failures_rotate Plain.coerce Plain.stateVector "https:"
                [CallStart] r s1 s2 _ _ A eq_refl eq_refl eq_refl Hst
                eq_refl eq_refl F1 N1 F2 N2) as H.
  cbv zeta in H.
  destruct H as ((H1 & H2 & _) & _ & (H3 & H4 & H5 & _)).
  split; [exact A|]. split; [vm_compute; reflexivity|].
  split; [exact H1|]. split; [exact H2|]. split; [exact H3|].
  split; [exact H4|]. exact H5.
Defined.

(** The provider is switched to OPENSKY after one failure of ADSB_LOL;
    the first answer of OPENSKY is a 503. *)
Lemma failure_count_survives_provider_switch_witness :
  let w := step Plain.coerce Plain.stateVector
             (run Plain.coerce Plain.stateVector (initial "https:")
                switched_after_one_failure)
             (TimeoutFires 2) in
  let r := mkRequest 3 1 (Some "OPENSKY") false in
  let s := Responded false "503 Service Unavailable" None in
  let w' := step Plain.coerce Plain.stateVector w (FetchSettles 3 s) in
  Iteration.awaiting 3 w = Some r
  /\ failures (this w) = 1
  /\ currentProviderIndex (this w) = 2
  /\ failures (this w') = 0
  /\ currentProviderIndex (this w') = 0
  /\ timeouts w' = [mkTimeout 4 1000 1].
Proof.
  intros w r s w'.
  assert (A : Iteration.awaiting (signal r) w = Some r)
    by (vm_compute; reflexivity).
  assert (S : request_session r = sessionId (this w))
    by (vm_compute; reflexivity).
  assert (Hst : state (this w) <> IDLE) by (vm_compute; discriminate).
  assert (Hfl : failures (this w) = 1) by (vm_compute; reflexivity).
  assert (F : failed Plain.coerce Plain.stateVector w (request_provider r) s
                (Error "HTTP 503 Service Unavailable"))
    by (left; vm_compute; reflexivity).
  assert (N : name (Error "HTTP 503 Service Unavailable") <> "AbortError")
    by discriminate.
  destruct (@failure_count_survives_provider_switch
              Plain.coerce Plain.stateVector) as (_ & G & _).
  destruct (G w r s _ A eq_refl S Hst Hfl F N) as (H1 & H2 & H3).
  split; [exact A|]. split; [exact Hfl|].
  split; [vm_compute; reflexivity|]. split; [exact H1|].
  split; [exact H2|]. exact H3.
Defined.

End Failover.

(* ------------------------------------------------------------------ *)
(** ** Malformed responses *)

Module Malformed.
Import JS Controller Effects Bookkeeping.
Local Open Scope Z_scope.

(** What a step appended to the sinks. *)
Definition outputs_since (w w' : World) : list Output :=
  skipn (List.length (emitted w)) (emitted w').

(** The step from [w] to [w'] counted a failure: the counter went up by
    one, or reached the threshold and was reset together with a rotation
    of the cursor; an ERROR entry was logged; no snapshot was emitted. *)
Definition counted_as_failure (w w' : World) : Prop :=
  (failures (this w') = failures (this w) + 1
   \/ (MAX_FAILURES_PER_PROVIDER <= failures (this w) + 1
       /\ failures (this w') = 0
       /\ currentProviderIndex (this w')
          = Z.rem (currentProviderIndex (this w) + 1) 3))
  /\ (exists p reason,
        In (Logged (mkLog ERROR (ScanFailed p reason))) (outputs_since w w'))
  /\ (forall u, ~ In (Snapshot u) (outputs_since w w')).

(** The member of the decoded body that holds the aircraft list. *)
Definition expected_list (p : option FlightProvider) : option string :=
  if provider_is p "ADSB_LOL" || provider_is p "AIRPLANES_LIVE"
  then Some "ac"%string
  else if provider_is p "OPENSKY" then Some "states"%string
  else None.

Lemma outputs_since_app w w' l :
  emitted w' = emitted w ++ l -> outputs_since w w' = l.
Proof.
  intros E. unfold outputs_since. rewrite E, skipn_app, skipn_all.
  rewrite Nat.sub_diag. reflexivity.
Qed.

(** The [catch] block on an error other than a cancellation. *)
Lemma catch_counted sid p e w :
  sid = sessionId (this w) -> name e <> "AbortError"%string ->
  let w' := scanLoop_catch sid p e w in
  inflight w' = inflight w
  /\ ((failures (this w) + 1 < MAX_FAILURES_PER_PROVIDER
       /\ failures (this w') = failures (this w) + 1
       /\ currentProviderIndex (this w') = currentProviderIndex (this w)
       /\ emitted w'
          = emitted w ++ [Logged (mkLog ERROR (ScanFailed p (message e)))])
      \/ (MAX_FAILURES_PER_PROVIDER <= failures (this w) + 1
          /\ failures (this w') = 0
          /\ currentProviderIndex (this w')
             = Z.rem (currentProviderIndex (this w) + 1) 3
          /\ emitted w'
             = emitted w
                 ++ [Logged (mkLog ERROR (ScanFailed p (message e)));
                     Logged (mkLog WARN
                       (ReroutingDataLink
                          (providerAt
                             (Z.rem (currentProviderIndex (this w) + 1) 3))))])).
Proof.
  intros -> Hn. cbv zeta. unfold scanLoop_catch.
  rewrite Z.eqb_refl. simpl negb. cbv iota.
  apply String.eqb_neq in Hn. rewrite Hn. project.
  destruct (MAX_FAILURES_PER_PROVIDER <=? failures (this w) + 1) eqn:E;
    match goal with |- context [scheduleNext ?d ?s ?x] =>
      destruct (scheduleNext_fields d s x) as (_ & Ff & Fc & _ & _ & Fi & Fe);
      rewrite Ff, Fc, Fi, Fe end;
    project; (split; [reflexivity|]).
  - right. apply Z.leb_le in E. rewrite <- app_assoc. repeat split; auto.
  - left. apply Z.leb_gt in E. repeat split; auto.
Qed.

(** Which error it was does not matter to the fields and timers. *)
Lemma catch_same_fields sid p e e' w :
  name e <> "AbortError"%string -> name e' <> "AbortError"%string ->
  this (scanLoop_catch sid p e w) = this (scanLoop_catch sid p e' w)
  /\ timeouts (scanLoop_catch sid p e w) = timeouts (scanLoop_catch sid p e' w)
  /\ inflight (scanLoop_catch sid p e w) = inflight (scanLoop_catch sid p e' w).
Proof.
  intros Hn Hn'. unfold scanLoop_catch.
  destruct (negb _); [auto|].
  apply String.eqb_neq in Hn, Hn'. rewrite Hn, Hn'. project.
  destruct (_ <=? _); unfold scheduleNext; project;
    destruct (_ || _); project; auto.
Qed.

Section Runs.
Variable coerce : value -> Normalizer.Reading.
Variable stateVector : value -> value.

Local Abbreviation step := (step coerce stateVector).

(** The [try] block when nothing throws. *)
Lemma resume_ok sid p s rawData ts w :
  sid = sessionId (this w) ->
  executeFetchStrategy stateVector (protocol w) p s = Ok rawData ->
  processTargets coerce (this w) rawData = Ok ts ->
  scanLoop_resume coerce stateVector sid p s w
  = let w1 := with_this (fun c => set_state SCANNING (set_failures 0 c)) w in
    let w2 := if (0 <? List.length ts)%nat
              then log SUCCESS (TargetLock (List.length ts) p) w1
              else log INFO (SectorClear p) w1 in
    let w3 := dispatch ts p w2 in
    scheduleNext
      (if negb (Qle_bool (rangeKm (this w3)) 300) then 15000 else 6000) sid w3.
Proof.
  intros -> He Hp. unfold scanLoop_resume.
  rewrite He, Z.eqb_refl, Hp. reflexivity.
Qed.

(** A decoded body without the expected member parses to the empty list. *)
Lemma parseBody_missing p json key :
  expected_list p = Some key -> get json key = Ok VUndef ->
  parseBody stateVector p json = Ok (VArr []).
Proof.
  unfold expected_list, parseBody. intros E G.
  destruct (provider_is p "ADSB_LOL" || provider_is p "AIRPLANES_LIVE").
  - injection E as <-. rewrite G. reflexivity.
  - destruct (provider_is p "OPENSKY"); [|discriminate].
    injection E as <-. rewrite G. reflexivity.
Qed.

(** So does one whose expected member is falsy: [json.ac || []]. *)
Lemma parseBody_falsy p json key v :
  expected_list p = Some key -> get json key = Ok v -> truthy v = false ->
  parseBody stateVector p json = Ok (VArr []).
Proof.
  unfold expected_list, parseBody. intros E G T.
  destruct (provider_is p "ADSB_LOL" || provider_is p "AIRPLANES_LIVE").
  - injection E as <-. rewrite G. simpl. unfold or_else. rewrite T.
    reflexivity.
  - destruct (provider_is p "OPENSKY"); [|discriminate].
    injection E as <-. rewrite G. simpl. unfold or_else. rewrite T.
    reflexivity.
Qed.

(** Reading the member of [null] throws. *)
Lemma parseBody_throws p json key e :
  expected_list p = Some key -> get json key = Throw e ->
  parseBody stateVector p json = Throw e.
Proof.
  unfold expected_list, parseBody. intros E G.
  destruct (provider_is p "ADSB_LOL" || provider_is p "AIRPLANES_LIVE").
  - injection E as <-. rewrite G. reflexivity.
  - destruct (provider_is p "OPENSKY"); [|discriminate].
    injection E as <-. rewrite G. reflexivity.
Qed.

(** A truthy member that is not an array has no [map]: the fetch ends
    in a [TypeError], thrown by [executeFetchStrategy] for OPENSKY and
    by [processTargets] for the other two. *)
Lemma not_a_list_fails p json key v status proto c :
  expected_list p = Some key -> get json key = Ok v -> truthy v = true ->
  (forall items, v <> VArr items) ->
  exists msg,
    executeFetchStrategy stateVector proto p (Responded true status (Some json))
    = Throw (TypeError msg)
    \/ exists rawData,
         executeFetchStrategy stateVector proto p
           (Responded true status (Some json)) = Ok rawData
         /\ processTargets coerce c rawData = Throw (TypeError msg).
Proof.
  unfold expected_list, executeFetchStrategy, parseBody. intros E G T N.
  cbn [negb].
  destruct (provider_is p "ADSB_LOL" || provider_is p "AIRPLANES_LIVE").
  - injection E as <-. rewrite G. simpl. unfold or_else. rewrite T.
    exists "rawData.map is not a function"%string. right. exists v.
    split; [reflexivity|].
    unfold processTargets. destruct v; try reflexivity.
    exfalso. apply (N items). reflexivity.
  - destruct (provider_is p "OPENSKY"); [|discriminate].
    injection E as <-. rewrite G. simpl. unfold or_else. rewrite T.
    exists "map is not a function"%string. left.
    destruct v; try reflexivity.
    exfalso. apply (N items). reflexivity.
Qed.

(** [get] throws on [null] (and [undefined]) only. *)
Lemma get_total json key :
  json = VNull \/ json = VUndef \/ exists v, get json key = Ok v.
Proof.
  destruct json; simpl; auto;
    right; right; eexists; reflexivity.
Qed.

(** C6, amended. For a fetch of the current session that was not
    cancelled: a body that is not valid JSON is counted toward the
    failover threshold exactly like a transport error (same fields, same
    timers, an ERROR entry, no snapshot). When the provider expects the
    list under [key] ([ac] for ADSB_LOL and AIRPLANES_LIVE, [states] for
    OPENSKY), the body [null] is counted in the same way, and so is a
    body whose member [key] is truthy without being an array; but a body other
    than [null] whose member [key] is absent or falsy ([null], [false],
    0, the empty string) is not counted: it is handled as a successful
    empty scan, which resets the counter to 0, sets SCANNING, logs
    "sector clear" and emits a snapshot with no targets. Every decoded
    body is [null] or has a value, possibly [undefined], for [key]. *)
Theorem invalid_json_counted_missing_list_is_empty_scan :
  forall (w : World) (r : Request) (status : string),
    Iteration.awaiting (signal r) w = Some r ->
    aborted r = false ->
    request_session r = sessionId (this w) ->
    let settled body :=
      step w (FetchSettles (signal r) (Responded true status body)) in
    let w_net :=
      step w (FetchSettles (signal r) (Rejected (TypeError "Failed to fetch"))) in
    let like_transport_error w' :=
      counted_as_failure w w'
      /\ this w' = this w_net
      /\ timeouts w' = timeouts w_net
      /\ inflight w' = inflight w_net in
    counted_as_failure w w_net
    /\ like_transport_error (settled None)
    /\ (forall (key : string),
          expected_list (request_provider r) = Some key ->
          like_transport_error (settled (Some VNull))
          /\ (forall (json v : value),
                get json key = Ok v -> truthy v = true ->
                (forall items, v <> VArr items) ->
                like_transport_error (settled (Some json)))
          /\ (forall (json v : value),
                get json key = Ok v -> truthy v = false ->
                let w' := settled (Some json) in
                failures (this w') = 0
                /\ state (this w') = SCANNING
                /\ outputs_since w w'
                   = [Logged (mkLog INFO (SectorClear (request_provider r)));
                      Snapshot (mkUpdate [] SCANNING (request_provider r))]
                /\ ~ counted_as_failure w w')
          /\ (forall (json : value),
                json = VNull \/ json = VUndef
                \/ exists v, get json key = Ok v)).
Proof.
  intros w r status Hf Ha Hs settled w_net like_transport_error.
  unfold Iteration.awaiting in Hf.
  set (p := request_provider r).
  set (wa := set_inflight
               (filter (fun r' => negb (signal r' =? signal r)) (inflight w)) w).
  assert (Sa : request_session r = sessionId (this wa)) by exact Hs.
  assert (Counted : forall s e,
             Failover.failed coerce stateVector wa p s e ->
             name e <> "AbortError"%string ->
             step w (FetchSettles (signal r) s)
             = scanLoop_catch (request_session r) p e wa
             /\ counted_as_failure w (step w (FetchSettles (signal r) s))).
  { intros s e He Hn.
    assert (E : step w (FetchSettles (signal r) s)
                = scanLoop_catch (request_session r) p e wa).
    { simpl. unfold settle. rewrite Hf, Ha.
      apply Failover.resume_failed; [exact Sa|exact He]. }
    split; [exact E|]. rewrite E.
    destruct (@catch_counted (request_session r) p e wa Sa Hn)
      as (_ & [(L & Ff & Fc & Fe) | (L & Ff & Fc & Fe)]);
      (split; [|split]).
    - left. exact Ff.
    - exists p, (message e). rewrite (@outputs_since_app w _ _ Fe). left; reflexivity.
    - intros u. rewrite (@outputs_since_app w _ _ Fe).
      intros [H | []]; discriminate H.
    - right. repeat split; auto.
    - exists p, (message e). rewrite (@outputs_since_app w _ _ Fe). left; reflexivity.
    - intros u. rewrite (@outputs_since_app w _ _ Fe).
      intros [H | [H | []]]; discriminate H. }
  set (e_net := rethrow (protocol wa) (requestUrl p) (TypeError "Failed to fetch")).
  assert (Nn : name e_net <> "AbortError"%string).
  { subst e_net. unfold rethrow.
    change (String.eqb (message (TypeError "Failed to fetch")) "Failed to fetch")
      with true. cbv iota.
    destruct (_ && _); discriminate. }
  destruct (Counted (Rejected (TypeError "Failed to fetch")) e_net
              (or_introl eq_refl) Nn) as (En & Cn).
  assert (Like : forall s e,
             Failover.failed coerce stateVector wa p s e ->
             name e <> "AbortError"%string ->
             like_transport_error (step w (FetchSettles (signal r) s))).
  { intros s e He Hn. destruct (Counted s e He Hn) as (E & C).
    split; [exact C|]. subst w_net. rewrite E, En.
    apply catch_same_fields; assumption. }
  split; [exact Cn|]. split.
  - apply (Like (Responded true status None)
             (SyntaxError "Unexpected token in JSON"));
      [left; reflexivity|discriminate].
  - intros key Hk. split; [|split; [|split]].
    + assert (G : get VNull key
                  = Throw (TypeError "Cannot read properties of null"))
        by reflexivity.
      apply (Like (Responded true status (Some VNull))
               (TypeError "Cannot read properties of null")).
      * left. unfold executeFetchStrategy. cbn [negb].
        rewrite (parseBody_throws _ _ Hk G). reflexivity.
      * discriminate.
    + intros json v Hg Ht Hn.
      destruct (@not_a_list_fails p json key v status (protocol wa) (this wa)
                  Hk Hg Ht Hn) as (msg & F).
      apply (Like (Responded true status (Some json)) (TypeError msg));
        [exact F|discriminate].
    + intros json v Hg Ht. cbv zeta.
      assert (He : executeFetchStrategy stateVector (protocol wa) p
                     (Responded true status (Some json)) = Ok (VArr [])).
      { unfold executeFetchStrategy. cbn [negb].
        rewrite (parseBody_falsy _ _ Hk Hg Ht). reflexivity. }
      assert (E : settled (Some json)
                  = scheduleNext
                      (if negb (Qle_bool (rangeKm (this w)) 300)
                       then 15000 else 6000)
                      (request_session r)
                      (dispatch [] p
                         (log INFO (SectorClear p)
                            (with_this
                               (fun c => set_state SCANNING (set_failures 0 c))
                               wa)))).
      { subst settled. cbv beta. simpl. unfold settle.
        rewrite Hf, Ha. cbv iota. fold p wa.
        rewrite (@resume_ok _ _ _ (VArr []) [] wa Sa He eq_refl). reflexivity. }
      rewrite E.
      match goal with |- context [scheduleNext ?d ?s ?x] =>
        destruct (scheduleNext_fields d s x) as (Fs & Ff & _ & _ & _ & _ & Fe) end.
      assert (O : outputs_since w
                    (scheduleNext
                       (if negb (Qle_bool (rangeKm (this w)) 300)
                        then 15000 else 6000)
                       (request_session r)
                       (dispatch [] p
                          (log INFO (SectorClear p)
                             (with_this
                                (fun c => set_state SCANNING (set_failures 0 c))
                                wa))))
                  = [Logged (mkLog INFO (SectorClear p));
                     Snapshot (mkUpdate [] SCANNING p)]).
      { apply outputs_since_app. rewrite Fe. project.
        rewrite <- app_assoc. reflexivity. }
      rewrite Fs, Ff, O. project.
      repeat split.
      intros (_ & _ & No). apply (No (mkUpdate [] SCANNING p)).
      rewrite O. right; left; reflexivity.
    + intros json. apply get_total.
Qed.

End Runs.

Local Open Scope string_scope.

(** ADSB_LOL has failed once; the retry is answered by the document
    [{}], which has no [ac] member. *)
Definition after_one_failure : World :=
  run Plain.coerce Plain.stateVector (initial "https:")
    [CallStart; FetchSettles 1 (Rejected (TypeError "Failed to fetch"));
     TimeoutFires 2].

Definition empty_document : Settlement :=
  Responded true "200 OK" (Some (VObj [])).

(** C6 as stated fails: the body [{}] lacks the [ac] list, yet it is not
    counted as a failure. The counter goes from 1 back to 0 without a
    rotation, no ERROR is logged and an empty snapshot is emitted. *)
Lemma missing_ac_is_not_counted :
  Iteration.awaiting 3 after_one_failure
  = Some (mkRequest 3 0 (Some "ADSB_LOL") false)
  /\ get (VObj []) "ac" = Ok VUndef
  /\ failures (this after_one_failure) = 1
  /\ let w' := step Plain.coerce Plain.stateVector after_one_failure
                 (FetchSettles 3 empty_document) in
     ~ counted_as_failure after_one_failure w'
     /\ failures (this w') = 0
     /\ currentProviderIndex (this w') = 0
     /\ outputs_since after_one_failure w'
        = [Logged (mkLog INFO (SectorClear (Some "ADSB_LOL")));
           Snapshot (mkUpdate [] SCANNING (Some "ADSB_LOL"))].
Proof.
  split; [vm_compute; reflexivity|].
  split; [reflexivity|].
  split; [vm_compute; reflexivity|].
  cbv zeta.
  assert (O : outputs_since after_one_failure
                (step Plain.coerce Plain.stateVector after_one_failure
                   (FetchSettles 3 empty_document))
              = [Logged (mkLog INFO (SectorClear (Some "ADSB_LOL")));
                 Snapshot (mkUpdate [] SCANNING (Some "ADSB_LOL"))])
    by (vm_compute; reflexivity).
  split; [|split; [vm_compute; reflexivity|split; [vm_compute; reflexivity|exact O]]].
  intros (_ & _ & No).
  apply (No (mkUpdate [] SCANNING (Some "ADSB_LOL"))).
  rewrite O. right; left; reflexivity.
Qed.

(** The retry is answered by something that is not JSON, by [null], by
    the document [{"ac": "none"}], by [{}] and by [{"ac": null}]. *)
Lemma invalid_json_counted_missing_list_is_empty_scan_witness :
  let w := after_one_failure in
  let r := mkRequest 3 0 (Some "ADSB_LOL") false in
  let settled body :=
    step Plain.coerce Plain.stateVector w
      (FetchSettles 3 (Responded true "200 OK" body)) in
  Iteration.awaiting 3 w = Some r
  /\ counted_as_failure w (settled None)
  /\ counted_as_failure w (settled (Some VNull))
  /\ counted_as_failure w (settled (Some (VObj [("ac", VStr "none")])))
  /\ (failures (this (settled (Some (VObj [])))) = 0
      /\ ~ counted_as_failure w (settled (Some (VObj []))))
  /\ (failures (this (settled (Some (VObj [("ac", VNull)])))) = 0
      /\ ~ counted_as_failure w (settled (Some (VObj [("ac", VNull)])))).
Proof.
  intros w r settled.
  assert (A : Iteration.awaiting (signal r) w = Some r)
    by (vm_compute; reflexivity).
  assert (S : request_session r = sessionId (this w))
    by (vm_compute; reflexivity).
  destruct (@invalid_json_counted_missing_list_is_empty_scan
              Plain.coerce Plain.stateVector w r "200 OK" A eq_refl S)
    as (_ & (Cj & _) & M).
  destruct (M "ac" eq_refl) as ((Cn & _) & Cl & Ce & _).
  assert (N : forall items, VStr "none" <> VArr items)
    by (intros items H; discriminate H).
  destruct (Cl (VObj [("ac", VStr "none")]) (VStr "none")
              eq_refl eq_refl N) as (Cs & _).
  destruct (Ce (VObj []) VUndef eq_refl eq_refl) as (E1 & _ & _ & E2).
  destruct (Ce (VObj [("ac", VNull)]) VNull eq_refl eq_refl)
    as (F1 & _ & _ & F2).
  split; [exact A|]. split; [exact Cj|]. split; [exact Cn|].
  split; [exact Cs|]. split; [split; [exact E1|exact E2]|].
  split; [exact F1|exact F2].
Defined.

End Malformed.

(* ------------------------------------------------------------------ *)
(** ** Overlapping loop iterations *)

Module Overlap.
Import JS Controller.
Local Open Scope Z_scope.

(** A pending timeout whose callback will pass the token check. *)
Definition live_timeout (w : World) (t : Timeout) : bool :=
  timeout_session t =? sessionId (this w).

(** A suspended fetch that was not aborted and whose completion will pass
    the token check, hence log, possibly dispatch, and reschedule. *)
Definition live_request (w : World) (r : Request) : bool :=
  negb (aborted r) && (request_session r =? sessionId (this w)).

(** The scheduled operations that are outstanding. *)
Definition outstanding (w : World) : nat :=
  (List.length (filter (live_timeout w) (timeouts w))
   + List.length (filter (live_request w) (inflight w)))%nat.

Definition snapshots (w : World) : list RadarUpdate :=
  flat_map (fun o => match o with Snapshot u => [u] | Logged _ => [] end)
           (emitted w).

Local Open Scope string_scope.

(** The application's sequence while the browser is off line: configure
    and start, then select another provider for the same area and start
    again (the effect hook calls [setConfig] then [start] on every
    change of the settings). *)
Definition started_twice_in_fault : list Event :=
  [Connectivity false;
   CallSetConfig "ADSB_LOL" 51.47%Q (-0.4543)%Q 50%Q; CallStart;
   CallSetConfig "OPENSKY" 51.47%Q (-0.4543)%Q 50%Q; CallStart].

Definition empty_list_of (key : string) : Settlement :=
  Responded true "200 OK" (Some (VObj [(key, VArr [])])).

(** C2 fails on the code. [start] returns early only in state SCANNING
    and, unlike [restart], does not call [cleanup]: called in state
    FAULT it begins a second loop while the first loop's timer is still
    pending under the same token. Two operations are then outstanding;
    [stop] followed by [start] cancels only the one the fields track, so
    two remain; and once on line both loops fetch, a fetch issued before
    [stop] completes successfully after [start] and reschedules next to
    the new loop, and two snapshots are emitted per polling period. *)
Theorem start_in_fault_runs_two_loops :
  let w := run Plain.coerce Plain.stateVector (initial "https:")
             started_twice_in_fault in
  let stopped_started := run Plain.coerce Plain.stateVector w
                           [CallStop; CallStart] in
  let both_fetching := run Plain.coerce Plain.stateVector w
                         [Connectivity true; TimeoutFires 1; TimeoutFires 2] in
  let resumed := run Plain.coerce Plain.stateVector both_fetching
                   [CallStop; CallStart;
                    FetchSettles 3 (empty_list_of "states")] in
  let polled := run Plain.coerce Plain.stateVector both_fetching
                  [FetchSettles 3 (empty_list_of "states");
                   FetchSettles 4 (empty_list_of "states")] in
  (state (this w) = FAULT
   /\ timeouts w = [mkTimeout 1 5000 1; mkTimeout 2 5000 1]
   /\ outstanding w = 2%nat)
  /\ (timeouts stopped_started = [mkTimeout 1 5000 1; mkTimeout 3 5000 1]
      /\ outstanding stopped_started = 2%nat)
  /\ (inflight both_fetching
      = [mkRequest 3 1 (Some "OPENSKY") false;
         mkRequest 4 1 (Some "OPENSKY") false]
      /\ outstanding both_fetching = 2%nat)
  /\ (state (this resumed) = SCANNING
      /\ timeouts resumed = [mkTimeout 6 6000 1]
      /\ inflight resumed
         = [mkRequest 4 1 (Some "OPENSKY") true;
            mkRequest 5 1 (Some "OPENSKY") false]
      /\ outstanding resumed = 2%nat)
  /\ (List.length (snapshots polled) = 2%nat
      /\ timeouts polled = [mkTimeout 5 6000 1; mkTimeout 6 6000 1]
      /\ outstanding polled = 2%nat).
Proof.
  cbv zeta. repeat split; vm_compute; reflexivity.
Qed.

End Overlap.

(* ------------------------------------------------------------------ *)
(** ** The projection example *)

Module Projection.
Import JS Normalizer.
Local Open Scope R_scope.

Lemma PI_bounds : 3.1415 < PI < 3.1421.
Proof.
  pose proof (PI_2_3_7_ineq 1) as [L U].
  unfold tg_alt, PI_2_3_7_tg, Ratan_seq in L, U.
  simpl in L, U.
  split; lra.
Qed.

Lemma INR_fact n z : Z.of_nat (fact n) = z -> INR (fact n) = IZR z.
Proof. intros <-. apply INR_IZR_INZ. Qed.

Lemma cos_approx_3 a :
  cos_approx a 3 = 1 - a ^ 2 / 2 + a ^ 4 / 24 - a ^ 6 / 720.
Proof.
  unfold cos_approx, cos_term. cbn [sum_f_R0 Nat.mul Nat.add].
  rewrite (@INR_fact 0 1), (@INR_fact 2 2), (@INR_fact 4 24),
    (@INR_fact 6 720) by (vm_compute; reflexivity).
  field.
Qed.

Lemma cos_approx_4 a :
  cos_approx a 4
  = 1 - a ^ 2 / 2 + a ^ 4 / 24 - a ^ 6 / 720 + a ^ 8 / 40320.
Proof.
  change (cos_approx a 4) with (cos_approx a 3 + cos_term a 4).
  rewrite cos_approx_3. unfold cos_term. cbn [Nat.mul Nat.add].
  rewrite (@INR_fact 8 40320) by (vm_compute; reflexivity).
  field.
Qed.

(** The cosine of the origin latitude of the example, 51 degrees. *)
Lemma cos_51_degrees : 0.6291 < cos (51 * PI / 180) < 0.62936.
Proof.
  pose proof PI_bounds as [Pl Pu].
  assert (Lo : 0.89009 <= 51 * PI / 180) by lra.
  assert (Hi : 51 * PI / 180 <= 0.89027) by lra.
  split.
  - apply Rlt_le_trans with (cos 0.89027);
      [|apply cos_decr_1; lra].
    destruct (pre_cos_bound 0.89027 1) as [B _]; [lra|lra|].
    eapply Rlt_le_trans; [|exact B].
    change (2 * 1 + 1)%nat with 3%nat. rewrite cos_approx_3. lra.
  - apply Rle_lt_trans with (cos 0.89009);
      [apply cos_decr_1; lra|].
    destruct (pre_cos_bound 0.89009 1) as [_ B]; [lra|lra|].
    eapply Rle_lt_trans; [exact B|].
    change (2 * (1 + 1))%nat with 4%nat. rewrite cos_approx_4. lra.
Qed.

(** [v] is within [tol] of the figure [figure]. *)
Definition approx (tol v figure : R) : Prop := Rabs (v - figure) < tol.

(** The report of the example: lat 51.01, lon 0.02, 35000 ft, 450 kt,
    heading 90 degrees; no type code, identifier, call sign or
    registration. *)
Definition example_reading : Reading :=
  {| r_lat := Some 51.01; r_lon := Some 0.02; r_gs := Some 450;
     r_track := Some 90; r_alt_baro := Some 35000;
     r_t := ""; r_hex := "UNK"; r_callsign := ""; r_r := "" |}.

(** What the normalizer yields for the example at origin (51.0, 0.0). *)
Definition example_targets : list RadarTarget :=
  processTargets 51 0 [example_reading].

(** The figures of the example as the specification gives them, metres
    to the unit and speeds to the first decimal. *)
Definition stated_figures (t : RadarTarget) : Prop :=
  approx 1 (position_x t) 1392
  /\ approx 1 (position_y t) 1105
  /\ approx 1 (altitude t) 10668
  /\ approx (5 / 100) (velocity_vx t) 231.5
  /\ approx (5 / 100) (velocity_vy t) 0.

Lemma example_target :
  exists t, example_targets = [t]
    /\ position_x t = 0.02 * (111320 * cos (51 * PI / 180))
    /\ position_y t = 1105.74
    /\ altitude t = 10668
    /\ velocity_vx t = 231.4998
    /\ velocity_vy t = 0.
Proof.
  eexists. split; [reflexivity|].
  cbn [position_x position_y altitude velocity_vx velocity_vy
       or_zero r_lat r_lon r_gs r_track r_alt_baro example_reading].
  replace (90 * PI / 180) with (PI / 2) by field.
  rewrite sin_PI2, cos_PI2.
  repeat split; lra.
Qed.

(** C8 as stated fails in its first figure: the stated projection puts
    the example more than 8 m east of x = 1392 m. (1392 is what the
    formula gives with 110574 in place of 111320.) *)
Lemma example_x_is_not_1392 :
  match example_targets with
  | [t] => position_x t - 1392 > 8 /\ ~ stated_figures t
  | _ => False
  end.
Proof.
  destruct example_target as (t & -> & X & _).
  pose proof cos_51_degrees as [Cl Cu].
  assert (G : position_x t - 1392 > 8) by (rewrite X; lra).
  split; [exact G|].
  intros (A & _). unfold approx in A.
  apply Rabs_def2 in A. lra.
Qed.

(** C8, amended. For origin (51.0, 0.0) and the report (lat 51.01,
    lon 0.02, 35000 ft, 450 kt, heading 90 degrees) the normalizer yields
    one target with x between 1400.6 m and 1401.3 m (about 1401 m),
    y = 1105.74 m (1105 m to the metre), altitude 10668 m and
    velocity (231.4998, 0) m/s, that is about (231.5, 0). *)
Theorem example_projection :
  exists t, example_targets = [t]
    /\ 1400.6 < position_x t < 1401.3
    /\ approx 1 (position_x t) 1401
    /\ position_y t = (51.01 - 51) * 110574
    /\ approx 1 (position_y t) 1105
    /\ altitude t = 10668
    /\ approx 1 (altitude t) 10668
    /\ velocity_vx t = 450 * 0.514444
    /\ approx (5 / 100) (velocity_vx t) 231.5
    /\ velocity_vy t = 0
    /\ approx (5 / 100) (velocity_vy t) 0.
Proof.
  destruct example_target as (t & E & X & Y & A & Vx & Vy).
  pose proof cos_51_degrees as [Cl Cu].
  exists t. unfold approx. rewrite X, Y, A, Vx, Vy.
  split; [exact E|].
  repeat split; try lra; apply Rabs_def1; lra.
Qed.

End Projection.

(* ================================================================== *)
(** * Further properties of the code *)

(* ------------------------------------------------------------------ *)
(** ** The session token and the failure counter over a run *)

Module Counters.
Import JS Controller Effects Bookkeeping.
Local Open Scope Z_scope.

Lemma catch_counters sid p e w :
  let w' := scanLoop_catch sid p e w in
  sessionId (this w') = sessionId (this w)
  /\ (failures (this w') = failures (this w)
      \/ failures (this w') = 0
      \/ (failures (this w') = failures (this w) + 1
          /\ failures (this w) + 1 < MAX_FAILURES_PER_PROVIDER)).
Proof.
  cbv zeta. unfold scanLoop_catch.
  destruct (negb _); [auto|].
  destruct (String.eqb _ _); [auto|]. project.
  destruct (MAX_FAILURES_PER_PROVIDER <=? failures (this w) + 1) eqn:E;
    match goal with |- context [scheduleNext ?d ?s ?x] =>
      destruct (scheduleNext_fields d s x) as (_ & Ff & _ & Fs & _);
      rewrite Ff, Fs end; project; split; auto.
  apply Z.leb_gt in E. auto.
Qed.

Lemma setConfig_token p la lo rg w :
  let w' := setConfig p la lo rg w in
  failures (this w') = failures (this w)
  /\ ((Reconfiguration.same_area w la lo rg
       /\ sessionId (this w') = sessionId (this w))
      \/ (~ Reconfiguration.same_area w la lo rg
          /\ sessionId (this w') = sessionId (this w) + 1)).
Proof.
  cbv zeta. unfold setConfig.
  change (lat (this (with_this _ w))) with (lat (this w)).
  change (lon (this (with_this _ w))) with (lon (this w)).
  change (rangeKm (this (with_this _ w))) with (rangeKm (this w)).
  destruct (_ || _) eqn:Ch.
  - assert (D : ~ Reconfiguration.same_area w la lo rg).
    { intros S. rewrite (Reconfiguration.changed_false S) in Ch. discriminate. }
    match goal with |- context [with_this ?f (log ?l ?m ?x)] =>
      set (w4 := with_this f (log l m x)) end.
    assert (F4 : failures (this w4) = failures (this w)
                 /\ sessionId (this w4) = sessionId (this w) + 1)
      by (subst w4; split; reflexivity).
    clearbody w4. destruct F4 as (Ff & Fs).
    destruct (SystemState_eqb _ _); [|auto].
    unfold restart.
    destruct (scanLoop_fields (sessionId (this (cleanup w4))) (cleanup w4))
      as (_ & -> & _ & ->).
    destruct (cleanup_fields w4) as (_ & -> & _ & -> & _). auto.
  - assert (S : Reconfiguration.same_area w la lo rg).
    { destruct (Qeq_bool (lat (this w)) la) eqn:A; [|discriminate].
      destruct (Qeq_bool (lon (this w)) lo) eqn:B; [|discriminate].
      destruct (Qeq_bool (rangeKm (this w)) rg) eqn:C; [|discriminate].
      repeat split; apply Qeq_bool_iff; assumption. }
    split; [reflexivity|]. left. split; [exact S|reflexivity].
Qed.

Section Runs.
Variable coerce : value -> Normalizer.Reading.
Variable stateVector : value -> value.

Local Abbreviation step := (step coerce stateVector).
Local Abbreviation run := (run coerce stateVector).

Lemma resume_counters sid p s w :
  let w' := scanLoop_resume coerce stateVector sid p s w in
  sessionId (this w') = sessionId (this w)
  /\ (failures (this w') = failures (this w)
      \/ failures (this w') = 0
      \/ (failures (this w') = failures (this w) + 1
          /\ failures (this w) + 1 < MAX_FAILURES_PER_PROVIDER)).
Proof.
  cbv zeta. unfold scanLoop_resume.
  destruct (executeFetchStrategy _ _ _ _); [|apply catch_counters].
  destruct (negb _); [auto|].
  destruct (processTargets _ _ _); [|apply catch_counters].
  match goal with |- context [scheduleNext ?d ?s ?x] =>
    destruct (scheduleNext_fields d s x) as (_ & Ff & _ & Fs & _);
    rewrite Ff, Fs end.
  destruct (_ <? _)%nat; project; auto.
Qed.

(** What one event does to the token and to the failure counter. *)
Lemma step_counters w e :
  let w' := step w e in
  (sessionId (this w') = sessionId (this w)
   \/ (sessionId (this w') = sessionId (this w) + 1
       /\ exists p la lo rg,
            e = CallSetConfig p la lo rg
            /\ ~ Reconfiguration.same_area w la lo rg))
  /\ (failures (this w') = failures (this w)
      \/ failures (this w') = 0
      \/ (failures (this w') = failures (this w) + 1
          /\ failures (this w) + 1 < MAX_FAILURES_PER_PROVIDER)).
Proof.
  cbv zeta. destruct e as [p la lo rg | | | b | h | h s]; simpl.
  - destruct (setConfig_token p la lo rg w) as (Ff & [(S & Fs) | (D & Fs)]).
    + split; [left; exact Fs|left; exact Ff].
    + split; [right; split; [exact Fs|]|left; exact Ff].
      exists p, la, lo, rg. split; [reflexivity|exact D].
  - unfold start. destruct (SystemState_eqb _ _); [auto|].
    match goal with |- context [scanLoop ?s ?x] =>
      destruct (scanLoop_fields s x) as (_ & -> & _ & ->) end.
    project. auto.
  - unfold stop. destruct (SystemState_eqb _ _); [auto|].
    match goal with |- context [cleanup ?x] =>
      destruct (cleanup_fields x) as (_ & -> & _ & -> & _) end.
    project. auto.
  - auto.
  - unfold fire. destruct (find _ _); [|auto].
    match goal with |- context [scanLoop ?s ?x] =>
      destruct (scanLoop_fields s x) as (_ & -> & _ & ->) end.
    project. auto.
  - unfold settle. destruct (find _ _); [|auto].
    match goal with |- context [scanLoop_resume _ _ ?a ?b ?c ?d] =>
      destruct (resume_counters a b c d) as (Fs & Ff) end.
    split; [left; exact Fs|exact Ff].
Qed.

(** X1. The session token never decreases; one event raises it by at
    most one, and the only event that raises it is a [setConfig] whose
    lat, lon or rangeKm differs from the current configuration: [start],
    [stop], timer expiries, fetch completions and a [setConfig] that
    only selects another provider leave it as it is. *)
Theorem token_moves_only_on_area_change :
  forall (w : World) (e : Event) (es : list Event),
    let w' := step w e in
    (sessionId (this w') = sessionId (this w)
     \/ (sessionId (this w') = sessionId (this w) + 1
         /\ exists p la lo rg,
              e = CallSetConfig p la lo rg
              /\ ~ Reconfiguration.same_area w la lo rg))
    /\ sessionId (this w) <= sessionId (this (run w es))
       <= sessionId (this w) + Z.of_nat (List.length es).
Proof.
  intros w e es. cbv zeta. split; [apply step_counters|].
  revert w. induction es as [|e' es IH]; intros w; simpl List.length; [simpl; lia|].
  change (run w (e' :: es)) with (run (step w e') es).
  specialize (IH (step w e')).
  destruct (step_counters w e') as ([E | (E & _)] & _); cbv zeta in E; lia.
Qed.

(** X2. In every reachable state the failure counter is 0 or 1: it is
    reset as soon as it reaches the threshold of 2, so a provider is
    never given more than two consecutive attempts. *)
Theorem failure_counter_is_0_or_1 :
  forall (page_protocol : string) (es : list Event),
    let f := failures (this (run (initial page_protocol) es)) in
    f = 0 \/ f = 1.
Proof.
  intros proto es. cbv zeta.
  assert (B : 0 <= failures (this (run (initial proto) es)) <= 1).
  { assert (H : 0 <= failures (this (initial proto)) <= 1) by (simpl; lia).
    revert H. generalize (initial proto).
    induction es as [|e es IH]; intros w H; [exact H|].
    change (run w (e :: es)) with (run (step w e) es). apply IH.
    destruct (step_counters w e) as (_ & [E | [E | (E & L)]]);
      cbv zeta in E; unfold MAX_FAILURES_PER_PROVIDER in *; lia. }
  lia.
Qed.

End Runs.
End Counters.

(* ------------------------------------------------------------------ *)
(** ** What [stop] leaves behind *)

Module Quiesce.
Import JS Controller Effects Bookkeeping.
Local Open Scope Z_scope.

(** A cancellation passes through the [catch] of
    [executeFetchStrategy] unchanged. *)
Lemma abort_passes_through stateVector proto p :
  executeFetchStrategy stateVector proto p (Rejected AbortError)
  = Throw AbortError.
Proof. reflexivity. Qed.

Lemma find_aborted h l r :
  find (fun q => signal q =? h) (map (abort_request h) l) = Some r ->
  aborted r = true.
Proof.
  induction l as [|q l IH]; simpl; [discriminate|].
  destruct (abort_request_same h q) as [S _]. rewrite S.
  destruct (signal q =? h) eqn:E; [|exact IH].
  intros H. injection H as <-. unfold abort_request. rewrite E. reflexivity.
Qed.

Section Runs.
Variable coerce : value -> Normalizer.Reading.
Variable stateVector : value -> value.

Local Abbreviation step := (step coerce stateVector).

(** The completion of a fetch whose signal was aborted changes nothing
    and reaches no sink. *)
Lemma settle_aborted h s r w :
  find (fun q => signal q =? h) (inflight w) = Some r ->
  aborted r = true ->
  let w' := step w (FetchSettles h s) in
  this w' = this w /\ emitted w' = emitted w /\ timeouts w' = timeouts w.
Proof.
  intros F A. cbv zeta. simpl. unfold settle. rewrite F, A.
  unfold scanLoop_resume. rewrite abort_passes_through.
  unfold scanLoop_catch. destruct (negb _); [repeat split|].
  change (String.eqb (name AbortError) "AbortError") with true.
  repeat split.
Qed.

(** In state IDLE an expiring timer only disappears. *)
Lemma fire_idle h w :
  state (this w) = IDLE ->
  let w' := step w (TimeoutFires h) in
  this w' = this w /\ emitted w' = emitted w /\ inflight w' = inflight w
  /\ forall t, In t (timeouts w') -> In t (timeouts w).
Proof.
  intros I. cbv zeta. simpl. unfold fire.
  destruct (find _ _) as [fired|]; [|repeat split; auto].
  unfold scanLoop. destruct (negb _).
  - repeat split. intros t Ht. apply filter_In in Ht as [Ht _]. exact Ht.
  - project. rewrite I. cbn [SystemState_eqb].
    repeat split. intros t Ht. apply filter_In in Ht as [Ht _]. exact Ht.
Qed.

(** X3. [stop] in any state but IDLE sets IDLE, forgets the timer and
    the abort controller, and leaves the token, the failure counter and
    the cursor alone. The timer it held is no longer pending; when the
    fetch it aborted completes, or when any timer still expires, nothing
    is logged, dispatched, fetched or scheduled; a second [stop] does
    nothing. *)
Theorem stop_quiesces :
  forall (w : World),
    state (this w) <> IDLE ->
    let w1 := stop w in
    (state (this w1) = IDLE
     /\ timer (this w1) = None /\ abortController (this w1) = None
     /\ sessionId (this w1) = sessionId (this w)
     /\ failures (this w1) = failures (this w)
     /\ currentProviderIndex (this w1) = currentProviderIndex (this w))
    /\ (forall h t, timer (this w) = Some h -> h <> 0 ->
                    In t (timeouts w1) -> handle t <> h)
    /\ (forall h s, abortController (this w) = Some h ->
          let w2 := step w1 (FetchSettles h s) in
          this w2 = this w1 /\ emitted w2 = emitted w1
          /\ timeouts w2 = timeouts w1)
    /\ (forall h,
          let w2 := step w1 (TimeoutFires h) in
          this w2 = this w1 /\ emitted w2 = emitted w1
          /\ inflight w2 = inflight w1
          /\ forall t, In t (timeouts w2) -> In t (timeouts w1))
    /\ stop w1 = w1.
Proof.
  intros w Hs. cbv zeta.
  assert (E : stop w
              = cleanup (with_this (set_state IDLE)
                           (log INFO SystemShutdownSequence w))).
  { unfold stop. apply state_eqb_neq in Hs. rewrite Hs. reflexivity. }
  set (wm := with_this (set_state IDLE) (log INFO SystemShutdownSequence w)) in E.
  assert (I : state (this (stop w)) = IDLE).
  { rewrite E. destruct (cleanup_fields wm) as (-> & _). reflexivity. }
  split; [|split; [|split; [|split]]].
  - split; [exact I|]. rewrite E.
    destruct (cleanup_fields wm) as (_ & Ff & Fc & Fs & Ft & Fa & _).
    rewrite Ff, Fc, Fs, Ft, Fa. repeat split.
  - intros h t Hh Hz Hin. rewrite E, Reconfiguration.timeouts_cleanup in Hin.
    change (timer (this wm)) with (timer (this w)) in Hin. rewrite Hh in Hin.
    apply Z.eqb_neq in Hz. rewrite Hz in Hin.
    apply filter_In in Hin as [_ Hin].
    apply negb_true_iff, Z.eqb_neq in Hin. exact Hin.
  - intros h s Hh.
    destruct (find (fun q => signal q =? h) (inflight (stop w))) as [r|] eqn:F.
    + apply (@settle_aborted h s r _ F).
      rewrite E, Reconfiguration.inflight_cleanup in F.
      change (abortController (this wm)) with (abortController (this w)) in F.
      rewrite Hh in F. exact (@find_aborted h _ r F).
    + simpl. unfold settle. rewrite F. repeat split.
  - intros h. apply fire_idle, I.
  - unfold stop at 1. rewrite I. reflexivity.
Qed.

End Runs.

Local Open Scope string_scope.

(** A running controller with a fetch in flight is stopped. *)
Lemma stop_quiesces_witness :
  let w := run Plain.coerce Plain.stateVector (initial "https:") [CallStart] in
  let w1 := stop w in
  let w2 := step Plain.coerce Plain.stateVector w1
              (FetchSettles 1 (Responded true "200 OK"
                                 (Some (VObj [("ac", VArr [])])))) in
  abortController (this w) = Some 1
  /\ state (this w1) = IDLE
  /\ this w2 = this w1 /\ emitted w2 = emitted w1.
Proof.
  intros w w1 w2.
  assert (S : state (this w) <> IDLE) by (vm_compute; discriminate).
  assert (A : abortController (this w) = Some 1) by (vm_compute; reflexivity).
  destruct (stop_quiesces Plain.coerce Plain.stateVector w S)
    as ((I & _) & _ & C & _).
  destruct (C 1 (Responded true "200 OK" (Some (VObj [("ac", VArr [])]))) A)
    as (C1 & C2 & _).
  split; [exact A|]. split; [exact I|]. split; [exact C1|exact C2].
Defined.

End Quiesce.

(* ------------------------------------------------------------------ *)
(** ** How transport errors and unusable lists are reported *)

Module Transport.
Import JS Controller Effects Bookkeeping.
Local Open Scope Z_scope.

Lemma requestUrl_is_not_plain_http p :
  startsWith (requestUrl p) "http:" = false.
Proof.
  unfold requestUrl.
  destruct (provider_is p "ADSB_LOL"); [reflexivity|].
  destruct (provider_is p "AIRPLANES_LIVE"); [reflexivity|].
  destruct (provider_is p "OPENSKY"); reflexivity.
Qed.

(** X4. Whatever the provider and whatever the page's protocol, a fetch
    that rejects with the message "Failed to fetch" is reported as
    "Network Error (CORS/Connection Refused)": every request URL starts
    with "https:", so the "Mixed Content Blocked" report is never
    produced. Any other rejection is passed on unchanged. *)
Theorem failed_to_fetch_is_a_network_error :
  forall (stateVector : value -> value) (page_protocol : string)
         (p : option FlightProvider) (e : error),
    (message e = "Failed to fetch"%string ->
     executeFetchStrategy stateVector page_protocol p (Rejected e)
     = Throw (Error "Network Error (CORS/Connection Refused)"))
    /\ (message e <> "Failed to fetch"%string ->
        executeFetchStrategy stateVector page_protocol p (Rejected e) = Throw e)
    /\ (e <> Error "Mixed Content Blocked" ->
        executeFetchStrategy stateVector page_protocol p (Rejected e)
        <> Throw (Error "Mixed Content Blocked")).
Proof.
  intros sv proto p e.
  assert (A : message e = "Failed to fetch"%string ->
              executeFetchStrategy sv proto p (Rejected e)
              = Throw (Error "Network Error (CORS/Connection Refused)")).
  { intros M. unfold executeFetchStrategy, rethrow.
    apply String.eqb_eq in M. rewrite M, requestUrl_is_not_plain_http.
    rewrite andb_false_r. reflexivity. }
  assert (B : message e <> "Failed to fetch"%string ->
              executeFetchStrategy sv proto p (Rejected e) = Throw e).
  { intros M. unfold executeFetchStrategy, rethrow.
    apply String.eqb_neq in M. rewrite M. reflexivity. }
  split; [exact A|]. split; [exact B|].
  intros N.
  destruct (String.eqb_spec (message e) "Failed to fetch") as [M | M].
  - rewrite (A M). discriminate.
  - rewrite (B M). intros H. apply N. injection H as ->. reflexivity.
Qed.

Lemma failed_to_fetch_is_a_network_error_witness :
  executeFetchStrategy Plain.stateVector "https:" (Some "OPENSKY"%string)
    (Rejected (TypeError "Failed to fetch"))
  = Throw (Error "Network Error (CORS/Connection Refused)")
  /\ executeFetchStrategy Plain.stateVector "https:" (Some "OPENSKY"%string)
       (Rejected (TypeError "Failed to fetch"))
     <> Throw (Error "Mixed Content Blocked").
Proof.
  destruct (failed_to_fetch_is_a_network_error Plain.stateVector "https:"
              (Some "OPENSKY"%string) (TypeError "Failed to fetch"))
    as (A & _ & C).
  split; [exact (A eq_refl)|]. apply C. discriminate.
Defined.

(** [map] with a dereferencing callback throws on a null element. *)
Lemma mapNonNull_null {B} (f : value -> B) items :
  In VNull items ->
  exists e, mapNonNull f items = Throw e /\ name e <> "AbortError"%string.
Proof.
  induction items as [|v items IH]; intros H; [destruct H|].
  destruct H as [-> | H].
  - eexists. split; [reflexivity|discriminate].
  - destruct (IH H) as (e & E & N).
    destruct v; simpl; try (eexists; split; [reflexivity|discriminate]);
      rewrite E; exists e; split; auto.
Qed.

(** A value that is not a list of non-null elements. *)
Definition unusable_list (v : value) : Prop :=
  match v with
  | VArr items => In VNull items
  | _ => True
  end.

Section Runs.
Variable coerce : value -> Normalizer.Reading.
Variable stateVector : value -> value.

Local Abbreviation step := (step coerce stateVector).

Lemma processTargets_unusable c v :
  unusable_list v ->
  exists e, processTargets coerce c v = Throw e
            /\ name e <> "AbortError"%string.
Proof.
  intros U. unfold processTargets.
  destruct v; try (eexists; split; [reflexivity|discriminate]).
  destruct (mapNonNull_null coerce items U) as (e & E & N).
  rewrite E. exists e. split; [reflexivity|exact N].
Qed.

(** A failed completion of a live fetch is counted. *)
Lemma failed_is_counted w r s e :
  Iteration.awaiting (signal r) w = Some r ->
  aborted r = false ->
  request_session r = sessionId (this w) ->
  Failover.failed coerce stateVector w (request_provider r) s e ->
  name e <> "AbortError"%string ->
  Malformed.counted_as_failure w (step w (FetchSettles (signal r) s)).
Proof.
  intros Hf Ha Hs F N. unfold Iteration.awaiting in Hf.
  set (wa := set_inflight
               (filter (fun r' => negb (signal r' =? signal r)) (inflight w)) w).
  assert (E : step w (FetchSettles (signal r) s)
              = scanLoop_catch (request_session r) (request_provider r) e wa).
  { simpl. unfold settle. rewrite Hf, Ha.
    apply Failover.resume_failed; [exact Hs|exact F]. }
  rewrite E.
  destruct (@Malformed.catch_counted (request_session r) (request_provider r)
              e wa Hs N)
    as (_ & [(L & Ff & Fc & Fe) | (L & Ff & Fc & Fe)]);
    (split; [|split]).
  - left. exact Ff.
  - exists (request_provider r), (message e).
    rewrite (@Malformed.outputs_since_app w _ _ Fe). left; reflexivity.
  - intros u. rewrite (@Malformed.outputs_since_app w _ _ Fe).
    intros [H | []]; discriminate H.
  - right. repeat split; auto.
  - exists (request_provider r), (message e).
    rewrite (@Malformed.outputs_since_app w _ _ Fe). left; reflexivity.
  - intros u. rewrite (@Malformed.outputs_since_app w _ _ Fe).
    intros [H | [H | []]]; discriminate H.
Qed.

(** X5. For ADSB_LOL and AIRPLANES_LIVE, a decoded body whose [ac]
    member is truthy but is not a list, or is a list with a [null]
    element, fails the whole cycle: it is counted as a failure, an ERROR
    is logged and no snapshot is emitted, not even for the valid
    elements of the list. *)
Theorem unusable_list_fails_the_cycle :
  forall (w : World) (r : Request) (status : string)
         (fields : list (string * value)),
    Iteration.awaiting (signal r) w = Some r ->
    aborted r = false ->
    request_session r = sessionId (this w) ->
    provider_is (request_provider r) "ADSB_LOL"
    || provider_is (request_provider r) "AIRPLANES_LIVE" = true ->
    truthy (lookup "ac" fields) = true ->
    unusable_list (lookup "ac" fields) ->
    Malformed.counted_as_failure w
      (step w (FetchSettles (signal r)
                 (Responded true status (Some (VObj fields))))).
Proof.
  intros w r status fields Hf Ha Hs Hp Ht Hu.
  destruct (processTargets_unusable (this w) _ Hu) as (e & E & N).
  apply (@failed_is_counted w r _ e Hf Ha Hs); [|exact N].
  right. exists (lookup "ac" fields). split; [|exact E].
  unfold executeFetchStrategy, parseBody. cbn [negb].
  rewrite Hp. cbn [get bind]. unfold or_else. rewrite Ht. reflexivity.
Qed.

End Runs.

Local Open Scope string_scope.

(** One valid aircraft followed by a [null]. *)
Lemma unusable_list_fails_the_cycle_witness :
  let w := run Plain.coerce Plain.stateVector (initial "https:") [CallStart] in
  let body := [("ac", VArr [VObj [("lat", VNum 51.5); ("lon", VNum 0.1)];
                            VNull])] in
  let w' := step Plain.coerce Plain.stateVector w
              (FetchSettles 1 (Responded true "200 OK" (Some (VObj body)))) in
  Malformed.counted_as_failure w w' /\ failures (this w') = 1.
Proof.
  intros w body w'.
  assert (A : Iteration.awaiting
                (signal (mkRequest 1 0 (Some "ADSB_LOL") false)) w
              = Some (mkRequest 1 0 (Some "ADSB_LOL") false))
    by (vm_compute; reflexivity).
  split; [|vm_compute; reflexivity].
  apply (@unusable_list_fails_the_cycle Plain.coerce Plain.stateVector w
           (mkRequest 1 0 (Some "ADSB_LOL") false) "200 OK" body A
           eq_refl eq_refl eq_refl eq_refl).
  vm_compute. right; left; reflexivity.
Defined.

End Transport.

(* ------------------------------------------------------------------ *)
(** ** What a snapshot can carry *)

Module Snapshots.
Import JS Controller Effects Bookkeeping.
Local Open Scope Z_scope.

Definition known (p : option FlightProvider) : Prop :=
  exists n, p = Some n /\ In n PROVIDER_ORDER.

Definition good_update (u : RadarUpdate) : Prop :=
  update_state u = SCANNING /\ known (update_provider u).

(** [w'] has the sink contents of [w] followed by log entries only. *)
Definition logs_only (w w' : World) : Prop :=
  exists l, emitted w' = emitted w ++ l /\ forall u, ~ In (Snapshot u) l.

Lemma logs_only_refl w : logs_only w w.
Proof. exists []. rewrite app_nil_r. split; [reflexivity|intros u []]. Qed.

Lemma logs_only_trans w1 w2 w3 :
  logs_only w1 w2 -> logs_only w2 w3 -> logs_only w1 w3.
Proof.
  intros (l & E & N) (l' & E' & N'). exists (l ++ l').
  rewrite E', E, app_assoc. split; [reflexivity|].
  intros u H. apply in_app_or in H as [H | H]; [exact (N u H)|exact (N' u H)].
Qed.

Lemma logs_only_same w w' : emitted w' = emitted w -> logs_only w w'.
Proof. intros E. exists []. rewrite E, app_nil_r. split; [reflexivity|intros u []]. Qed.

Lemma logs_only_log l m w w' : logs_only w w' -> logs_only w (log l m w').
Proof.
  intros H. eapply logs_only_trans; [exact H|].
  exists [Logged (mkLog l m)]. split; [reflexivity|].
  intros u [A | []]. discriminate A.
Qed.

Lemma logs_only_scheduleNext d sid w w' :
  logs_only w w' -> logs_only w (scheduleNext d sid w').
Proof.
  intros H. eapply logs_only_trans; [exact H|].
  apply logs_only_same. apply scheduleNext_fields.
Qed.

Lemma logs_only_cleanup w : logs_only w (cleanup w).
Proof. apply logs_only_same, Reconfiguration.emitted_cleanup. Qed.

Lemma logs_only_scanLoop sid w : logs_only w (scanLoop sid w).
Proof.
  unfold scanLoop.
  destruct (negb _); [apply logs_only_refl|].
  destruct (SystemState_eqb _ _); [apply logs_only_refl|].
  destruct (negb _).
  - apply logs_only_scheduleNext.
    eapply logs_only_trans; [apply logs_only_log, logs_only_refl|].
    apply logs_only_same. reflexivity.
  - eapply logs_only_trans;
      [|apply logs_only_same with
          (w := log INFO Uplinking
                  (fresh (with_this
                            (set_abortController (Some (nextHandle w))) w)));
        reflexivity].
    apply logs_only_log, logs_only_same. reflexivity.
Qed.

Lemma logs_only_catch sid p e w : logs_only w (scanLoop_catch sid p e w).
Proof.
  unfold scanLoop_catch.
  destruct (negb _); [apply logs_only_refl|].
  destruct (String.eqb _ _); [apply logs_only_refl|].
  assert (L1 : logs_only w
                 (log ERROR (ScanFailed p (message e))
                    (with_this (fun c => set_failures (failures c + 1) c) w)))
    by (apply logs_only_log, logs_only_same; reflexivity).
  destruct (_ <=? _); apply logs_only_scheduleNext; [|exact L1].
  apply logs_only_log.
  eapply logs_only_trans; [exact L1|]. apply logs_only_same. reflexivity.
Qed.

(** An iteration that starts a fetch asks the provider under the cursor. *)
Lemma scanLoop_request sid w :
  inflight (scanLoop sid w) = inflight w
  \/ inflight (scanLoop sid w)
     = inflight w ++ [mkRequest (nextHandle w) sid
                        (providerAt (currentProviderIndex (this w))) false].
Proof.
  unfold scanLoop.
  destruct (negb _); [auto|].
  destruct (SystemState_eqb _ _); [auto|].
  destruct (negb _); [|right; reflexivity].
  left. match goal with |- context [scheduleNext ?d ?s ?x] =>
    destruct (scheduleNext_fields d s x) as (_ & _ & _ & _ & _ & -> & _) end.
  reflexivity.
Qed.

Lemma providerAt_known i : Shape.cursor_ok i -> known (providerAt i).
Proof.
  unfold Shape.cursor_ok. intros B.
  assert (C : i = 0 \/ i = 1 \/ i = 2) by lia.
  destruct C as [-> | [-> | ->]]; eexists; (split; [reflexivity|]);
    simpl; auto.
Qed.

(** Snapshots emitted so far are good, suspended fetches address known
    providers and the cursor is valid. *)
Record sound (w : World) : Prop := mkSound {
  sound_emitted : forall u, In (Snapshot u) (emitted w) -> good_update u;
  sound_inflight : forall r, In r (inflight w) -> known (request_provider r);
  sound_cursor : Shape.cursor_ok (currentProviderIndex (this w))
}.

Lemma sound_logs w w' :
  logs_only w w' ->
  (forall u, In (Snapshot u) (emitted w) -> good_update u) ->
  forall u, In (Snapshot u) (emitted w') -> good_update u.
Proof.
  intros (l & E & N) G u H. rewrite E in H.
  apply in_app_or in H as [H | H]; [exact (G u H)|destruct (N u H)].
Qed.

Lemma sound_scanLoop sid w : sound w -> sound (scanLoop sid w).
Proof.
  intros [Se Si Sc]. split.
  - apply (sound_logs (logs_only_scanLoop sid w) Se).
  - intros r Hr. destruct (scanLoop_request sid w) as [E | E]; rewrite E in Hr.
    + exact (Si r Hr).
    + apply in_app_or in Hr as [Hr | [<- | []]]; [exact (Si r Hr)|].
      apply providerAt_known, Sc.
  - destruct (scanLoop_fields sid w) as (_ & _ & -> & _). exact Sc.
Qed.

Lemma sound_cleanup w : sound w -> sound (cleanup w).
Proof.
  intros [Se Si Sc]. split.
  - rewrite Reconfiguration.emitted_cleanup. exact Se.
  - intros r Hr. rewrite Reconfiguration.inflight_cleanup in Hr.
    destruct (abortController (this w)) as [h|]; [|exact (Si r Hr)].
    apply in_map_iff in Hr as (q & <- & Hq).
    unfold abort_request. destruct (signal q =? h); exact (Si q Hq).
  - destruct (cleanup_fields w) as (_ & _ & -> & _). exact Sc.
Qed.

Lemma sound_catch sid p e w : sound w -> sound (scanLoop_catch sid p e w).
Proof.
  intros [Se Si Sc]. split.
  - apply (sound_logs (logs_only_catch sid p e w) Se).
  - destruct (Invariants.frames_catch sid p e w) as (-> & _). exact Si.
  - apply (Shape.keep_catch Shape.respected_cursor). exact Sc.
Qed.

Section Runs.
Variable coerce : value -> Normalizer.Reading.
Variable stateVector : value -> value.

Local Abbreviation step := (step coerce stateVector).
Local Abbreviation run := (run coerce stateVector).

Lemma sound_resume sid p s w :
  known p -> sound w -> sound (scanLoop_resume coerce stateVector sid p s w).
Proof.
  intros K S. unfold scanLoop_resume.
  destruct (executeFetchStrategy _ _ _ _); [|apply sound_catch, S].
  destruct (negb _); [exact S|].
  destruct (processTargets _ _ _) as [ts|]; [|apply sound_catch, S].
  destruct S as [Se Si Sc].
  match goal with |- sound (scheduleNext ?d ?x ?y) =>
    destruct (scheduleNext_fields d x y) as (_ & _ & Fc & _ & _ & Fi & Fe) end.
  split.
  - rewrite Fe.
    assert (E : exists entry,
               emitted
                 (dispatch ts p
                    (if (0 <? List.length ts)%nat
                     then log SUCCESS (TargetLock (List.length ts) p)
                            (with_this
                               (fun c => set_state SCANNING (set_failures 0 c)) w)
                     else log INFO (SectorClear p)
                            (with_this
                               (fun c => set_state SCANNING (set_failures 0 c)) w)))
               = emitted w ++ [Logged entry;
                               Snapshot (mkUpdate ts SCANNING p)]).
    { destruct (0 <? List.length ts)%nat; eexists; project;
        rewrite <- app_assoc; reflexivity. }
    destruct E as (entry & ->).
    intros u H. apply in_app_or in H as [H | [H | [H | []]]].
    + exact (Se u H).
    + discriminate H.
    + injection H as <-. split; [reflexivity|exact K].
  - rewrite Fi. destruct (0 <? List.length ts)%nat; exact Si.
  - rewrite Fc. destruct (0 <? List.length ts)%nat; exact Sc.
Qed.

Lemma sound_step w e : sound w -> sound (step w e).
Proof.
  intros S. destruct e as [p la lo rg | | | b | h | h s]; simpl.
  - unfold setConfig.
    match goal with |- context [with_this (set_position la lo rg) ?x] =>
      set (w2 := with_this (set_position la lo rg) x) end.
    assert (S2 : sound w2).
    { destruct S as [Se Si Sc]. split; [exact Se|exact Si|].
      subst w2. project. unfold Shape.cursor_ok.
      destruct (Shape.indexOf_range p) as [-> | B]; simpl; [lia|].
      destruct (0 <=? indexOf PROVIDER_ORDER p); lia. }
    clearbody w2. destruct (_ || _); [|exact S2].
    match goal with |- context [with_this ?f (log ?l ?m w2)] =>
      set (w4 := with_this f (log l m w2)) end.
    assert (S4 : sound w4).
    { destruct S2 as [Se Si Sc]. split; [|exact Si|exact Sc].
      apply (@sound_logs w2 w4); [|exact Se].
      apply (@logs_only_trans w2 (log INFO ConfigurationUpdated w2) w4);
        [apply logs_only_log, logs_only_refl|].
      apply logs_only_same. reflexivity. }
    clearbody w4. destruct (SystemState_eqb _ _); [|exact S4].
    unfold restart. apply sound_scanLoop, sound_cleanup, S4.
  - unfold start. destruct (SystemState_eqb _ _); [exact S|].
    apply sound_scanLoop. destruct S as [Se Si Sc].
    split; [|exact Si|exact Sc].
    apply (@sound_logs w); [|exact Se].
    eapply logs_only_trans; [apply logs_only_log, logs_only_refl|].
    apply logs_only_same. reflexivity.
  - unfold stop. destruct (SystemState_eqb _ _); [exact S|].
    apply sound_cleanup. destruct S as [Se Si Sc].
    split; [|exact Si|exact Sc].
    apply (@sound_logs w); [|exact Se].
    eapply logs_only_trans; [apply logs_only_log, logs_only_refl|].
    apply logs_only_same. reflexivity.
  - destruct S as [Se Si Sc]. split; assumption.
  - unfold fire. destruct (find _ _); [|exact S].
    apply sound_scanLoop. destruct S as [Se Si Sc].
    split; [exact Se|exact Si|exact Sc].
  - unfold settle. destruct (find _ _) as [r|] eqn:F; [|exact S].
    destruct S as [Se Si Sc].
    apply sound_resume.
    + apply Si. apply find_some in F as [F _]. exact F.
    + split; [exact Se| |exact Sc].
      intros q Hq. apply filter_In in Hq as [Hq _]. exact (Si q Hq).
Qed.

(** X6. Every snapshot that ever reaches the snapshot sink carries the
    state SCANNING and a provider of the fixed sequence: the sink is
    never told about IDLE or FAULT, so a consumer that takes the machine
    state from snapshots alone never sees a fault. *)
Theorem snapshots_only_report_scanning :
  forall (page_protocol : string) (es : list Event) (u : RadarUpdate),
    In (Snapshot u) (emitted (run (initial page_protocol) es)) ->
    update_state u = SCANNING
    /\ exists p, update_provider u = Some p /\ In p PROVIDER_ORDER.
Proof.
  intros proto es u H.
  assert (S : sound (run (initial proto) es)).
  { clear H. assert (S0 : sound (initial proto)).
    { split; simpl;
        [intros u0 [] | intros r0 [] | unfold Shape.cursor_ok; lia]. }
    revert S0. generalize (initial proto).
    induction es as [|e es IH]; intros w S0; [exact S0|].
    apply (IH (step w e)), sound_step, S0. }
  exact (sound_emitted S u H).
Qed.

End Runs.

Local Open Scope string_scope.

(** Off line, then on line again: the cycle that ends the fault emits
    the first snapshot. *)
Lemma snapshots_only_report_scanning_witness :
  let es := [Connectivity false; CallStart; Connectivity true; TimeoutFires 1;
             FetchSettles 2 (Responded true "200 OK"
                               (Some (VObj [("ac", VArr [])])))] in
  let u := mkUpdate [] SCANNING (Some "ADSB_LOL") in
  In (Snapshot u)
     (emitted (run Plain.coerce Plain.stateVector (initial "https:") es))
  /\ update_state u = SCANNING.
Proof.
  intros es u.
  assert (H : In (Snapshot u)
                (emitted (run Plain.coerce Plain.stateVector
                            (initial "https:") es)))
    by (vm_compute; do 4 right; left; reflexivity).
  split; [exact H|].
  exact (proj1 (snapshots_only_report_scanning Plain.coerce Plain.stateVector
                  "https:" es u H)).
Defined.

End Snapshots.

(* ------------------------------------------------------------------ *)
(** ** One loop at a time *)

Module Discipline.
Import JS Controller Effects Bookkeeping Overlap.
Local Open Scope Z_scope.

(** The pending timeouts and the suspended, not aborted fetches that
    carry the token [sid]. *)
Definition waitingOn (sid : Z) (ts : list Timeout) : list Timeout :=
  filter (fun t => timeout_session t =? sid) ts.

Definition fetchingOn (sid : Z) (rs : list Request) : list Request :=
  filter (fun r => negb (aborted r) && (request_session r =? sid)) rs.

Lemma outstanding_split w :
  outstanding w
  = (List.length (waitingOn (sessionId (this w)) (timeouts w))
     + List.length (fetchingOn (sessionId (this w)) (inflight w)))%nat.
Proof. reflexivity. Qed.

(** Handles start at 1 and no callback carries a token from the
    future. *)
Record bounded (w : World) : Prop := mkBounded {
  b_handles : 1 <= nextHandle w;
  b_timeouts :
    forall t, In t (timeouts w) -> timeout_session t <= sessionId (this w);
  b_requests :
    forall r, In r (inflight w) -> request_session r <= sessionId (this w)
}.

Definition quiet (w : World) : Prop :=
  waitingOn (sessionId (this w)) (timeouts w) = []
  /\ fetchingOn (sessionId (this w)) (inflight w) = [].

(** Nothing is outstanding, or exactly the timeout held in [timer], or
    exactly the fetch listening on [abortController]. *)
Inductive phase (w : World) : Prop :=
  | Quiet : quiet w -> phase w
  | Waiting (t : Timeout) :
      waitingOn (sessionId (this w)) (timeouts w) = [t] ->
      fetchingOn (sessionId (this w)) (inflight w) = [] ->
      timer (this w) = Some (handle t) -> handle t <> 0 -> phase w
  | Fetching (r : Request) :
      waitingOn (sessionId (this w)) (timeouts w) = [] ->
      fetchingOn (sessionId (this w)) (inflight w) = [r] ->
      abortController (this w) = Some (signal r) -> phase w.

Record disciplined (w : World) : Prop := mkDisciplined {
  d_bounded : bounded w;
  d_phase : phase w;
  d_idle : state (this w) = IDLE -> quiet w
}.

Definition same_queues (w w' : World) : Prop :=
  sessionId (this w') = sessionId (this w)
  /\ timeouts w' = timeouts w
  /\ inflight w' = inflight w
  /\ nextHandle w' = nextHandle w.

Lemma bounded_same w w' : same_queues w w' -> bounded w -> bounded w'.
Proof.
  intros (A & B & C & D) [H T R]. split; rewrite ?A, ?B, ?C, ?D; assumption.
Qed.

Lemma quiet_same w w' : same_queues w w' -> quiet w -> quiet w'.
Proof.
  intros (A & B & C & D) Q. unfold quiet. rewrite A, B, C. exact Q.
Qed.

Lemma phase_same w w' :
  same_queues w w' -> timer (this w') = timer (this w) ->
  abortController (this w') = abortController (this w) ->
  phase w -> phase w'.
Proof.
  intros (A & B & C & D) Et Ea [Q | t P1 P2 P3 P4 | r P1 P2 P3].
  - apply Quiet. unfold quiet. rewrite A, B, C. exact Q.
  - apply Waiting with (t := t); rewrite ?A, ?B, ?C, ?Et; assumption.
  - apply Fetching with (r := r); rewrite ?A, ?B, ?C, ?Ea; assumption.
Qed.

Lemma quiet_disciplined w : bounded w -> quiet w -> disciplined w.
Proof. intros B Q. split; [exact B | apply Quiet, Q | intros _; exact Q]. Qed.

Lemma filter_swap {A : Type} (f g : A -> bool) (l : list A) :
  filter f (filter g l) = filter g (filter f l).
Proof.
  induction l as [|x l IH]; simpl; [reflexivity|].
  destruct (g x) eqn:G, (f x) eqn:F; simpl; rewrite ?G, ?F, IH; reflexivity.
Qed.

(** Aborting signal [h] removes exactly the fetches listening on it
    from the outstanding ones. *)
Lemma fetchingOn_abort sid h rs :
  fetchingOn sid (map (abort_request h) rs)
  = filter (fun r => negb (signal r =? h)) (fetchingOn sid rs).
Proof.
  unfold fetchingOn. induction rs as [|r rs IH]; simpl; [reflexivity|].
  rewrite IH. destruct r as [sg ss pr ab]. unfold abort_request. simpl.
  destruct (sg =? h) eqn:E; simpl;
    destruct ab; simpl; destruct (ss =? sid); simpl; rewrite ?E; reflexivity.
Qed.

(** A bumped token leaves every earlier callback behind. *)
Lemma waitingOn_older sid ts :
  (forall t, In t ts -> timeout_session t < sid) -> waitingOn sid ts = [].
Proof.
  unfold waitingOn. induction ts as [|t ts IH]; intros T; simpl; [reflexivity|].
  assert (N : (timeout_session t =? sid) = false)
    by (apply Z.eqb_neq; specialize (T t (or_introl eq_refl)); lia).
  rewrite N. apply IH. intros t' Ht'. apply T. right. exact Ht'.
Qed.

Lemma fetchingOn_older sid rs :
  (forall r, In r rs -> request_session r < sid) -> fetchingOn sid rs = [].
Proof.
  unfold fetchingOn. induction rs as [|r rs IH]; intros R; simpl; [reflexivity|].
  assert (N : (request_session r =? sid) = false)
    by (apply Z.eqb_neq; specialize (R r (or_introl eq_refl)); lia).
  rewrite N, andb_false_r. apply IH. intros r' Hr'. apply R. right. exact Hr'.
Qed.

Lemma scheduleNext_from_quiet d sid w :
  bounded w -> quiet w -> disciplined (scheduleNext d sid w).
Proof.
  intros B Q. unfold scheduleNext.
  destruct (_ || _) eqn:E; [apply quiet_disciplined; assumption|].
  apply orb_false_iff in E as [E1 E2].
  apply state_eqb_neq in E1. apply negb_false_iff, Z.eqb_eq in E2.
  destruct B as [H T R]. destruct Q as [Q1 Q2]. split.
  - split; project.
    + lia.
    + intros t Ht. apply in_app_or in Ht as [Ht | [<- | []]];
        [apply T, Ht | simpl; lia].
    + exact R.
  - apply Waiting with (t := mkTimeout (nextHandle w) d sid); project.
    + unfold waitingOn in *. rewrite filter_app, Q1. simpl.
      rewrite E2, Z.eqb_refl. reflexivity.
    + exact Q2.
    + reflexivity.
    + simpl. lia.
  - project. intros I. contradiction.
Qed.

Lemma scanLoop_from_quiet sid w :
  bounded w -> quiet w -> disciplined (scanLoop sid w).
Proof.
  intros B Q. unfold scanLoop.
  destruct (negb (sid =? _)) eqn:E; [apply quiet_disciplined; assumption|].
  apply negb_false_iff, Z.eqb_eq in E.
  destruct (SystemState_eqb _ _) eqn:S; [apply quiet_disciplined; assumption|].
  apply state_eqb_neq in S.
  destruct (negb (onLine w)).
  - apply scheduleNext_from_quiet.
    + apply (@bounded_same w); [repeat split|exact B].
    + apply (@quiet_same w); [repeat split|exact Q].
  - destruct B as [H T R]. destruct Q as [Q1 Q2]. cbv zeta. split.
    + split; project.
      * lia.
      * exact T.
      * intros r Hr. apply in_app_or in Hr as [Hr | [<- | []]];
          [apply R, Hr | simpl; lia].
    + apply Fetching
        with (r := mkRequest (nextHandle w) sid
                     (providerAt (currentProviderIndex (this w))) false);
        project.
      * exact Q1.
      * unfold fetchingOn in *. rewrite filter_app, Q2. simpl.
        rewrite E, Z.eqb_refl. reflexivity.
      * reflexivity.
    + project. intros I. contradiction.
Qed.

Lemma cleanup_quiets w :
  bounded w -> phase w -> bounded (cleanup w) /\ quiet (cleanup w).
Proof.
  intros [H T R] P.
  destruct (cleanup_fields w) as (_ & _ & _ & Fs & _ & _ & _ & Fn).
  cbv zeta in Fs, Fn. split.
  - split; rewrite ?Fs, ?Fn.
    + exact H.
    + intros t. rewrite Reconfiguration.timeouts_cleanup.
      destruct (timer (this w)) as [h|]; [destruct (h =? 0)|]; auto.
      intros Ht. apply filter_In in Ht as [Ht _]. auto.
    + intros r' Hr'. destruct (cleanup_inflight w) as (_ & _ & I).
      destruct (I r' Hr') as (r & Hr & _ & ->). auto.
  - unfold quiet. rewrite Fs, Reconfiguration.timeouts_cleanup,
      Reconfiguration.inflight_cleanup.
    assert (W : forall ts h,
               waitingOn (sessionId (this w))
                 (filter (fun t => negb (handle t =? h)) ts)
               = filter (fun t => negb (handle t =? h))
                   (waitingOn (sessionId (this w)) ts))
      by (intros; apply filter_swap).
    destruct P as [[Q1 Q2] | t P1 P2 P3 P4 | r P1 P2 P3].
    + split.
      * destruct (timer (this w)) as [h|]; [destruct (h =? 0)|]; auto.
        rewrite W, Q1. reflexivity.
      * destruct (abortController (this w)) as [h|]; auto.
        rewrite fetchingOn_abort, Q2. reflexivity.
    + split.
      * rewrite P3. apply Z.eqb_neq in P4. rewrite P4, W, P1. simpl.
        rewrite Z.eqb_refl. reflexivity.
      * destruct (abortController (this w)) as [h|]; auto.
        rewrite fetchingOn_abort, P2. reflexivity.
    + split.
      * destruct (timer (this w)) as [h|]; [destruct (h =? 0)|]; auto.
        rewrite W, P1. reflexivity.
      * rewrite P3, fetchingOn_abort, P2. simpl.
        rewrite Z.eqb_refl. reflexivity.
Qed.

Lemma catch_from_quiet sid p e w :
  bounded w -> quiet w -> disciplined (scanLoop_catch sid p e w).
Proof.
  intros B Q. unfold scanLoop_catch.
  destruct (negb _); [apply quiet_disciplined; assumption|].
  destruct (String.eqb _ _); [apply quiet_disciplined; assumption|].
  cbv zeta. destruct (_ <=? _); apply scheduleNext_from_quiet;
    solve [ apply (@bounded_same w); [repeat split|exact B]
          | apply (@quiet_same w); [repeat split|exact Q] ].
Qed.

(** The completion of a fetch that was aborted, or that carries another
    token, has no effect. *)
Lemma resume_inert coerce stateVector (r : Request) s w :
  aborted r = true \/ request_session r <> sessionId (this w) ->
  scanLoop_resume coerce stateVector (request_session r) (request_provider r)
    (if aborted r then Rejected AbortError else s) w
  = w.
Proof.
  intros [A | N].
  - rewrite A. unfold scanLoop_resume.
    rewrite Quiesce.abort_passes_through. unfold scanLoop_catch.
    destruct (negb _); [reflexivity|].
    change (String.eqb (name AbortError) "AbortError") with true. reflexivity.
  - assert (N' : negb (request_session r =? sessionId (this w)) = true)
      by (apply negb_true_iff, Z.eqb_neq; exact N).
    unfold scanLoop_resume, scanLoop_catch.
    destruct (executeFetchStrategy _ _ _ _); rewrite N'; reflexivity.
Qed.

Section Runs.
Variable coerce : value -> Normalizer.Reading.
Variable stateVector : value -> value.

Local Abbreviation step := (step coerce stateVector).
Local Abbreviation run := (run coerce stateVector).

Lemma resume_from_quiet sid p s w :
  bounded w -> quiet w ->
  disciplined (scanLoop_resume coerce stateVector sid p s w).
Proof.
  intros B Q. unfold scanLoop_resume.
  destruct (executeFetchStrategy _ _ _ _); [|apply catch_from_quiet; assumption].
  destruct (negb _); [apply quiet_disciplined; assumption|].
  destruct (processTargets _ _ _) as [ts|]; [|apply catch_from_quiet; assumption].
  cbv zeta. apply scheduleNext_from_quiet.
  - apply (@bounded_same w); [|exact B].
    destruct (0 <? List.length ts)%nat; repeat split.
  - apply (@quiet_same w); [|exact Q].
    destruct (0 <? List.length ts)%nat; repeat split.
Qed.

(** [start] is called in state FAULT somewhere along the run of [es]
    from [w]. *)
Fixpoint started_in_fault (w : World) (es : list Event) : bool :=
  match es with
  | [] => false
  | e :: rest =>
      (match e with CallStart => SystemState_eqb (state (this w)) FAULT
                  | _ => false end)
      || started_in_fault (step w e) rest
  end.

Lemma disciplined_setConfig p la lo rg w :
  disciplined w -> disciplined (setConfig p la lo rg w).
Proof.
  intros D. unfold setConfig.
  match goal with |- context [with_this (set_position la lo rg) ?x] =>
    set (w2 := with_this (set_position la lo rg) x) end.
  assert (S2 : same_queues w w2) by (subst w2; repeat split).
  assert (D2 : disciplined w2).
  { destruct D as [B P I]. split.
    - exact (bounded_same S2 B).
    - apply (phase_same S2); [reflexivity|reflexivity|exact P].
    - intros E. apply (quiet_same S2), I. exact E. }
  clearbody w2. clear D S2. destruct (_ || _); [|exact D2].
  match goal with |- context [with_this ?f (log ?l ?m w2)] =>
    set (w4 := with_this f (log l m w2)) end.
  assert (E4 : sessionId (this w4) = sessionId (this w2) + 1
               /\ timeouts w4 = timeouts w2 /\ inflight w4 = inflight w2
               /\ nextHandle w4 = nextHandle w2)
    by (subst w4; repeat split).
  destruct E4 as (Es & Et & Ei & En).
  destruct D2 as [[H T R] _ _].
  assert (B4 : bounded w4).
  { split; rewrite ?Es, ?Et, ?Ei, ?En.
    - exact H.
    - intros t Ht. specialize (T t Ht). lia.
    - intros r Hr. specialize (R r Hr). lia. }
  assert (Q4 : quiet w4).
  { unfold quiet. rewrite Es, Et, Ei. split.
    - apply waitingOn_older. intros t Ht. specialize (T t Ht). lia.
    - apply fetchingOn_older. intros r Hr. specialize (R r Hr). lia. }
  clearbody w4. destruct (SystemState_eqb _ _).
  - unfold restart.
    destruct (@cleanup_quiets w4 B4 (Quiet Q4)) as [Bc Qc].
    apply scanLoop_from_quiet; assumption.
  - apply quiet_disciplined; assumption.
Qed.

Lemma disciplined_start w :
  disciplined w -> state (this w) <> RECOVERY -> state (this w) <> FAULT ->
  disciplined (start w).
Proof.
  intros D NR NF. unfold start.
  destruct (SystemState_eqb _ _) eqn:S; [exact D|].
  apply state_eqb_neq in S.
  assert (I : state (this w) = IDLE)
    by (destruct (state (this w)); congruence).
  destruct D as [B _ Q]. specialize (Q I).
  cbv zeta. apply scanLoop_from_quiet.
  - apply (@bounded_same w); [repeat split|exact B].
  - apply (@quiet_same w); [repeat split|exact Q].
Qed.

Lemma disciplined_stop w : disciplined w -> disciplined (stop w).
Proof.
  intros D. unfold stop. destruct (SystemState_eqb _ _); [exact D|].
  cbv zeta. destruct D as [B P _].
  match goal with |- disciplined (cleanup ?x) => set (wm := x) end.
  assert (Sm : same_queues w wm) by (subst wm; repeat split).
  destruct (@cleanup_quiets wm (bounded_same Sm B)) as [Bc Qc].
  { apply (phase_same Sm); [reflexivity|reflexivity|exact P]. }
  apply quiet_disciplined; assumption.
Qed.

Lemma disciplined_fire h w : disciplined w -> disciplined (fire h w).
Proof.
  intros D. unfold fire.
  destruct (find _ _) as [fired|] eqn:F; [|exact D].
  apply find_some in F as [Hin Hh]. apply Z.eqb_eq in Hh.
  destruct D as [[H T R] P I].
  assert (Bc : bounded (clearTimeout h w)).
  { split; project; [exact H| |exact R].
    intros t Ht. apply filter_In in Ht as [Ht _]. auto. }
  assert (W : waitingOn (sessionId (this w))
                (filter (fun t => negb (handle t =? h)) (timeouts w))
              = filter (fun t => negb (handle t =? h))
                  (waitingOn (sessionId (this w)) (timeouts w)))
    by apply filter_swap.
  destruct (Z.eq_dec (timeout_session fired) (sessionId (this w))) as [E | N].
  - apply scanLoop_from_quiet; [exact Bc|].
    assert (L : In fired (waitingOn (sessionId (this w)) (timeouts w))).
    { apply filter_In. split; [exact Hin|]. apply Z.eqb_eq, E. }
    unfold quiet. project. rewrite W.
    destruct P as [[Q1 Q2] | t P1 P2 P3 P4 | r P1 P2 P3].
    + rewrite Q1 in L. destruct L.
    + rewrite P1 in L. destruct L as [<- | []].
      rewrite P1. simpl. rewrite Hh, Z.eqb_refl. split; [reflexivity|exact P2].
    + rewrite P1 in L. destruct L.
  - assert (Es : scanLoop (timeout_session fired) (clearTimeout h w)
                 = clearTimeout h w).
    { unfold scanLoop. project.
      apply Z.eqb_neq in N. rewrite N. reflexivity. }
    rewrite Es. split; [exact Bc| |].
    + destruct P as [[Q1 Q2] | t P1 P2 P3 P4 | r P1 P2 P3].
      * apply Quiet. unfold quiet. project. rewrite W, Q1. split; auto.
      * destruct (negb (handle t =? h)) eqn:K.
        -- apply Waiting with (t := t); project; auto.
           rewrite W, P1. simpl. rewrite K. reflexivity.
        -- apply Quiet. unfold quiet. project. rewrite W, P1. simpl.
           rewrite K. split; auto.
      * apply Fetching with (r := r); project; auto.
        rewrite W, P1. reflexivity.
    + project. intros St. destruct (I St) as [Q1 Q2].
      unfold quiet. project. rewrite W, Q1. split; auto.
Qed.

Lemma disciplined_settle h s w :
  disciplined w -> disciplined (settle coerce stateVector h s w).
Proof.
  intros D. unfold settle.
  destruct (find _ _) as [r|] eqn:F; [|exact D].
  apply find_some in F as [Hin Hh]. apply Z.eqb_eq in Hh.
  destruct D as [[H T R] P I].
  set (w0 := set_inflight
               (filter (fun r' => negb (signal r' =? h)) (inflight w)) w).
  assert (B0 : bounded w0).
  { split; subst w0; project; [exact H|exact T|].
    intros q Hq. apply filter_In in Hq as [Hq _]. auto. }
  assert (W : fetchingOn (sessionId (this w))
                (filter (fun q => negb (signal q =? h)) (inflight w))
              = filter (fun q => negb (signal q =? h))
                  (fetchingOn (sessionId (this w)) (inflight w)))
    by apply filter_swap.
  assert (C : (aborted r = true \/ request_session r <> sessionId (this w))
              \/ (aborted r = false
                  /\ request_session r = sessionId (this w))).
  { destruct (aborted r); [left; left; reflexivity|].
    destruct (Z.eq_dec (request_session r) (sessionId (this w)));
      [right; split; auto | left; right; assumption]. }
  destruct C as [Inert | [A E]].
  - rewrite resume_inert by exact Inert.
    split; [exact B0| |].
    + destruct P as [[Q1 Q2] | t P1 P2 P3 P4 | q P1 P2 P3].
      * apply Quiet. unfold quiet. subst w0. project. rewrite W, Q2. auto.
      * apply Waiting with (t := t); subst w0; project; auto.
        rewrite W, P2. reflexivity.
      * destruct (negb (signal q =? h)) eqn:K.
        -- apply Fetching with (r := q); subst w0; project; auto.
           rewrite W, P2. simpl. rewrite K. reflexivity.
        -- apply Quiet. unfold quiet. subst w0. project. rewrite W, P2.
           simpl. rewrite K. auto.
    + subst w0. project. intros St. destruct (I St) as [Q1 Q2].
      unfold quiet. project. rewrite W, Q2. auto.
  - apply resume_from_quiet; [exact B0|].
    assert (L : In r (fetchingOn (sessionId (this w)) (inflight w))).
    { apply filter_In. split; [exact Hin|]. rewrite A. simpl.
      apply Z.eqb_eq, E. }
    unfold quiet. subst w0. project. rewrite W.
    destruct P as [[Q1 Q2] | t P1 P2 P3 P4 | q P1 P2 P3].
    + rewrite Q2 in L. destruct L.
    + rewrite P2 in L. destruct L.
    + rewrite P2 in L. destruct L as [<- | []].
      rewrite P2. simpl. rewrite Hh, Z.eqb_refl. split; [exact P1|reflexivity].
Qed.

Lemma disciplined_run es :
  forall w, disciplined w -> state (this w) <> RECOVERY ->
            started_in_fault w es = false ->
            disciplined (run w es).
Proof.
  induction es as [|e es IH]; intros w D NR SF; [exact D|].
  simpl in SF. apply orb_false_iff in SF as [S1 S2].
  change (disciplined (run (step w e) es)).
  apply IH; [| |exact S2].
  - destruct e as [p la lo rg | | | b | h | h s]; simpl.
    + apply disciplined_setConfig, D.
    + apply disciplined_start; [exact D|exact NR|].
      apply state_eqb_neq, S1.
    + apply disciplined_stop, D.
    + destruct D as [B P I]. split.
      * apply (@bounded_same w); [repeat split|exact B].
      * apply (@phase_same w); [repeat split|reflexivity|reflexivity|exact P].
      * intros St. apply (@quiet_same w); [repeat split|exact (I St)].
    + apply disciplined_fire, D.
    + apply disciplined_settle, D.
  - apply (Shape.keep_step Shape.respected_state). exact NR.
Qed.

(** X7. Unless [start] is called while the state is FAULT, the
    controller never has more than one operation outstanding under its
    current token (a pending timeout, or a fetch that was not aborted),
    and none at all while it is IDLE: every cancellation reaches the one
    loop there is. *)
Theorem one_loop_unless_started_in_fault :
  forall (page_protocol : string) (es : list Event),
    started_in_fault (initial page_protocol) es = false ->
    let w := run (initial page_protocol) es in
    (outstanding w <= 1)%nat
    /\ (state (this w) = IDLE -> outstanding w = 0%nat).
Proof.
  intros proto es SF w.
  assert (D : disciplined w).
  { subst w. apply disciplined_run; [|discriminate|exact SF].
    apply quiet_disciplined; [|split; reflexivity].
    split; simpl; [lia|intros t []|intros r []]. }
  rewrite outstanding_split. destruct D as [_ P I]. split.
  - destruct P as [[Q1 Q2] | t P1 P2 P3 P4 | r P1 P2 P3];
      rewrite ?Q1, ?Q2, ?P1, ?P2; simpl; lia.
  - intros St. destruct (I St) as [Q1 Q2]. rewrite Q1, Q2. reflexivity.
Qed.

End Runs.

Local Open Scope string_scope.

(** The controller is configured and started on line, moved while its
    fetch is in flight, loses one scan to an HTTP error, and is stopped
    and started again. *)
Lemma one_loop_unless_started_in_fault_witness :
  let es := [CallSetConfig "ADSB_LOL" 51.47%Q (-0.4543)%Q 50%Q; CallStart;
             CallSetConfig "OPENSKY" 40%Q (-74)%Q 50%Q;
             FetchSettles 1 (Responded true "200 OK"
                               (Some (VObj [("ac", VArr [])])));
             FetchSettles 2 (Responded false "503" None);
             CallStop; CallStart; TimeoutFires 3] in
  let w := run Plain.coerce Plain.stateVector (initial "https:") es in
  started_in_fault Plain.coerce Plain.stateVector (initial "https:") es = false
  /\ (outstanding w <= 1)%nat
  /\ (state (this w) = IDLE -> outstanding w = 0%nat).
Proof.
  intros es w.
  assert (SF : started_in_fault Plain.coerce Plain.stateVector
                 (initial "https:") es = false) by (vm_compute; reflexivity).
  split; [exact SF|].
  exact (one_loop_unless_started_in_fault
           Plain.coerce Plain.stateVector "https:" es SF).
Defined.

End Discipline.

(* ------------------------------------------------------------------ *)
(** ** A loop that is never resumed *)

Module Stall.
Import JS Controller Effects Bookkeeping Overlap Discipline.
Local Open Scope Z_scope.

Lemma bounded_scheduleNext d sid w :
  bounded w -> bounded (scheduleNext d sid w).
Proof.
  intros B. unfold scheduleNext. destruct (_ || _) eqn:E; [exact B|].
  apply orb_false_iff in E as [_ E2]. apply negb_false_iff, Z.eqb_eq in E2.
  destruct B as [H T R]. split; project.
  - lia.
  - intros t Ht. apply in_app_or in Ht as [Ht | [<- | []]];
      [apply T, Ht | simpl; lia].
  - exact R.
Qed.

Lemma bounded_scanLoop sid w : bounded w -> bounded (scanLoop sid w).
Proof.
  intros B. unfold scanLoop.
  destruct (negb (sid =? _)) eqn:E; [exact B|].
  apply negb_false_iff, Z.eqb_eq in E.
  destruct (SystemState_eqb _ _); [exact B|].
  destruct (negb (onLine w)).
  - apply bounded_scheduleNext.
    apply (@bounded_same w); [repeat split|exact B].
  - destruct B as [H T R]. cbv zeta. split; project.
    + lia.
    + exact T.
    + intros r Hr. apply in_app_or in Hr as [Hr | [<- | []]];
        [apply R, Hr | simpl; lia].
Qed.

Lemma bounded_cleanup w : bounded w -> bounded (cleanup w).
Proof.
  intros [H T R].
  destruct (cleanup_fields w) as (_ & _ & _ & Fs & _ & _ & _ & Fn).
  cbv zeta in Fs, Fn. split; rewrite ?Fs, ?Fn.
  - exact H.
  - intros t. rewrite Reconfiguration.timeouts_cleanup.
    destruct (timer (this w)) as [h|]; [destruct (h =? 0)|]; auto.
    intros Ht. apply filter_In in Ht as [Ht _]. auto.
  - intros r' Hr'. destruct (cleanup_inflight w) as (_ & _ & I).
    destruct (I r' Hr') as (r & Hr & _ & ->). auto.
Qed.

Lemma bounded_catch sid p e w :
  bounded w -> bounded (scanLoop_catch sid p e w).
Proof.
  intros B. unfold scanLoop_catch.
  destruct (negb _); [exact B|].
  destruct (String.eqb _ _); [exact B|].
  cbv zeta. destruct (_ <=? _); apply bounded_scheduleNext;
    (apply (@bounded_same w); [repeat split|exact B]).
Qed.

(** After a token bump nothing is outstanding. *)
Lemma quiet_after_bump w w' :
  bounded w ->
  sessionId (this w') = sessionId (this w) + 1 ->
  timeouts w' = timeouts w -> inflight w' = inflight w ->
  nextHandle w' = nextHandle w ->
  bounded w' /\ quiet w'.
Proof.
  intros [H T R] Es Et Ei En. split.
  - split; rewrite ?Es, ?Et, ?Ei, ?En.
    + exact H.
    + intros t Ht. specialize (T t Ht). lia.
    + intros r Hr. specialize (R r Hr). lia.
  - unfold quiet. rewrite Es, Et, Ei. split.
    + apply waitingOn_older. intros t Ht. specialize (T t Ht). lia.
    + apply fetchingOn_older. intros r Hr. specialize (R r Hr). lia.
Qed.

(** The events the browser raises, as opposed to the calls of the
    public methods. *)
Definition raised (e : Event) : bool :=
  match e with
  | Connectivity _ | TimeoutFires _ | FetchSettles _ _ => true
  | CallSetConfig _ _ _ _ | CallStart | CallStop => false
  end.

Lemma quiet_fire h w :
  quiet w ->
  this (fire h w) = this w /\ emitted (fire h w) = emitted w
  /\ quiet (fire h w).
Proof.
  intros [Q1 Q2]. unfold fire.
  destruct (find _ _) as [fired|] eqn:F; [|repeat split; assumption].
  apply find_some in F as [Hin _].
  assert (N : (timeout_session fired =? sessionId (this w)) = false).
  { destruct (timeout_session fired =? sessionId (this w)) eqn:E; [|reflexivity].
    assert (L : In fired (waitingOn (sessionId (this w)) (timeouts w)))
      by (apply filter_In; split; assumption).
    rewrite Q1 in L. destruct L. }
  assert (Es : scanLoop (timeout_session fired) (clearTimeout h w)
               = clearTimeout h w).
  { unfold scanLoop. project. rewrite N. reflexivity. }
  rewrite Es. split; [reflexivity|]. split; [reflexivity|].
  unfold quiet. project. split; [|exact Q2].
  unfold waitingOn in *. rewrite filter_swap, Q1. reflexivity.
Qed.

Section Runs.
Variable coerce : value -> Normalizer.Reading.
Variable stateVector : value -> value.

Local Abbreviation step := (step coerce stateVector).
Local Abbreviation run := (run coerce stateVector).

Lemma bounded_resume sid p s w :
  bounded w -> bounded (scanLoop_resume coerce stateVector sid p s w).
Proof.
  intros B. unfold scanLoop_resume.
  destruct (executeFetchStrategy _ _ _ _); [|apply bounded_catch, B].
  destruct (negb _); [exact B|].
  destruct (processTargets _ _ _) as [ts|]; [|apply bounded_catch, B].
  cbv zeta. apply bounded_scheduleNext.
  apply (@bounded_same w); [|exact B].
  destruct (0 <? List.length ts)%nat; repeat split.
Qed.

Lemma bounded_step w e : bounded w -> bounded (step w e).
Proof.
  intros B. destruct e as [p la lo rg | | | b | h | h s]; simpl.
  - unfold setConfig.
    match goal with |- context [with_this (set_position la lo rg) ?x] =>
      set (w2 := with_this (set_position la lo rg) x) end.
    assert (B2 : bounded w2)
      by (apply (@bounded_same w); [subst w2; repeat split|exact B]).
    clearbody w2. destruct (_ || _); [|exact B2].
    match goal with |- context [with_this ?f (log ?l ?m w2)] =>
      set (w4 := with_this f (log l m w2)) end.
    assert (B4 : bounded w4).
    { apply (@quiet_after_bump w2 w4 B2); subst w4; reflexivity. }
    clearbody w4. destruct (SystemState_eqb _ _); [|exact B4].
    unfold restart. apply bounded_scanLoop, bounded_cleanup, B4.
  - unfold start. destruct (SystemState_eqb _ _); [exact B|].
    cbv zeta. apply bounded_scanLoop.
    apply (@bounded_same w); [repeat split|exact B].
  - unfold stop. destruct (SystemState_eqb _ _); [exact B|].
    cbv zeta. apply bounded_cleanup.
    apply (@bounded_same w); [repeat split|exact B].
  - apply (@bounded_same w); [repeat split|exact B].
  - unfold fire. destruct (find _ _) as [fired|]; [|exact B].
    apply bounded_scanLoop. destruct B as [H T R].
    split; project; [exact H| |exact R].
    intros t' Ht. apply filter_In in Ht as [Ht _]. auto.
  - unfold settle. destruct (find _ _) as [found|]; [|exact B].
    apply bounded_resume. destruct B as [H T R].
    split; project; [exact H|exact T|].
    intros q Hq. apply filter_In in Hq as [Hq _]. auto.
Qed.

Lemma bounded_run es : forall w, bounded w -> bounded (run w es).
Proof. induction es as [|e es IH]; simpl; auto using bounded_step. Qed.

Lemma quiet_settle h s w :
  quiet w ->
  this (settle coerce stateVector h s w) = this w
  /\ emitted (settle coerce stateVector h s w) = emitted w
  /\ quiet (settle coerce stateVector h s w).
Proof.
  intros [Q1 Q2]. unfold settle.
  destruct (find _ _) as [r|] eqn:F; [|repeat split; assumption].
  apply find_some in F as [Hin _].
  assert (Inert : aborted r = true
                  \/ request_session r <> sessionId (this w)).
  { destruct (aborted r) eqn:A; [left; reflexivity|right].
    intros E.
    assert (L : In r (fetchingOn (sessionId (this w)) (inflight w))).
    { apply filter_In. split; [exact Hin|]. rewrite A. simpl.
      apply Z.eqb_eq, E. }
    rewrite Q2 in L. destruct L. }
  rewrite resume_inert by exact Inert.
  split; [reflexivity|]. split; [reflexivity|].
  unfold quiet. project. split; [exact Q1|].
  unfold fetchingOn in *. rewrite filter_swap, Q2. reflexivity.
Qed.

(** While nothing is outstanding, no timer, completion or connectivity
    change has an effect. *)
Lemma quiet_run es :
  forall w, quiet w -> forallb raised es = true ->
            this (run w es) = this w /\ emitted (run w es) = emitted w
            /\ quiet (run w es).
Proof.
  induction es as [|e es IH]; intros w Q P;
    [split; [reflexivity|split; [reflexivity|exact Q]]|].
  simpl in P. apply andb_true_iff in P as [P1 P2].
  assert (S : this (step w e) = this w /\ emitted (step w e) = emitted w
              /\ quiet (step w e)).
  { destruct e as [p la lo rg | | | b | h | h s]; try discriminate P1; simpl.
    - split; [reflexivity|split; [reflexivity|exact Q]].
    - apply quiet_fire, Q.
    - apply quiet_settle, Q. }
  destruct S as (St & Se & Sq).
  destruct (IH (step w e) Sq P2) as (Rt & Re & Rq).
  change (run w (e :: es)) with (run (step w e) es).
  rewrite Rt, Re. split; [exact St|split; [exact Se|exact Rq]].
Qed.

(** X18. A change of the area while the controller is not SCANNING (in
    state FAULT, during the off-line back-off, or IDLE) bumps the token
    without restarting: no operation is outstanding afterwards, and
    whatever timers expire, fetches complete or connectivity changes,
    the controller keeps its fields, stays in that state and reaches no
    sink until a public method is called again. *)
Theorem area_change_outside_scanning_stalls :
  forall (page_protocol : string) (es : list Event)
         (provider : FlightProvider) (la lo rg : Q) (later : list Event),
    let w := run (initial page_protocol) es in
    state (this w) <> SCANNING ->
    ~ Reconfiguration.same_area w la lo rg ->
    forallb raised later = true ->
    let w' := setConfig provider la lo rg w in
    let w'' := run w' later in
    state (this w') = state (this w)
    /\ sessionId (this w') = sessionId (this w) + 1
    /\ outstanding w' = 0%nat
    /\ this w'' = this w' /\ emitted w'' = emitted w'
    /\ outstanding w'' = 0%nat.
Proof.
  intros proto es p la lo rg later w NS NA P w' w''.
  assert (B : bounded w).
  { subst w. apply bounded_run. split; simpl; [lia|intros t []|intros r []]. }
  assert (E : w' = with_this (fun c => set_sessionId (sessionId c + 1) c)
                     (log INFO ConfigurationUpdated
                        (with_this (set_position la lo rg)
                           (with_this
                              (set_currentProviderIndex
                                 (if 0 <=? indexOf PROVIDER_ORDER p
                                  then indexOf PROVIDER_ORDER p else 0)) w)))).
  { subst w'. unfold setConfig. cbv zeta.
    change (lat (this (with_this ?f w))) with (lat (this w)).
    change (lon (this (with_this ?f w))) with (lon (this w)).
    change (rangeKm (this (with_this ?f w))) with (rangeKm (this w)).
    rewrite (Reconfiguration.changed_true NA).
    apply state_eqb_neq in NS.
    change (SystemState_eqb (state (this w)) SCANNING = false) in NS.
    project. rewrite NS. reflexivity. }
  clearbody w'.
  assert (Q : bounded w' /\ quiet w').
  { apply (@quiet_after_bump w w' B); rewrite E; reflexivity. }
  destruct Q as [B' Q'].
  destruct (@quiet_run later w' Q' P) as (Rt & Re & Rq).
  fold w'' in Rt, Re, Rq.
  assert (O : forall x, quiet x -> outstanding x = 0%nat).
  { intros x [Q1 Q2]. rewrite outstanding_split, Q1, Q2. reflexivity. }
  split; [rewrite E; reflexivity|]. split; [rewrite E; reflexivity|].
  split; [apply O, Q'|]. split; [exact Rt|]. split; [exact Re|apply O, Rq].
Qed.

End Runs.

Local Open Scope string_scope.

(** The browser goes off line, the controller is started and falls
    into FAULT; the area is moved; the browser comes back and the
    retry timer expires. *)
Lemma area_change_outside_scanning_stalls_witness :
  let es := [Connectivity false; CallStart] in
  let later := [Connectivity true; TimeoutFires 1] in
  let w := run Plain.coerce Plain.stateVector (initial "https:") es in
  let w' := setConfig "ADSB_LOL" 40 (-74) 50 w in
  let w'' := run Plain.coerce Plain.stateVector w' later in
  state (this w) = FAULT
  /\ state (this w') = state (this w)
  /\ sessionId (this w') = sessionId (this w) + 1
  /\ outstanding w' = 0%nat
  /\ this w'' = this w' /\ emitted w'' = emitted w'
  /\ outstanding w'' = 0%nat.
Proof.
  intros es later w w' w''.
  assert (F : state (this w) = FAULT) by (vm_compute; reflexivity).
  assert (NS : state (this w) <> SCANNING) by (rewrite F; discriminate).
  assert (NA : ~ Reconfiguration.same_area w 40 (-74) 50).
  { intros (A & _). vm_compute in A. discriminate A. }
  assert (P : forallb raised later = true) by reflexivity.
  split; [exact F|].
  exact (@area_change_outside_scanning_stalls Plain.coerce Plain.stateVector
           "https:" es "ADSB_LOL" 40%Q (-74)%Q 50%Q later NS NA P).
Defined.

End Stall.

(* ------------------------------------------------------------------ *)
(** ** What the normalizer keeps *)

Module Targets.
Import JS Normalizer.
Local Open Scope R_scope.

(** The element survives [isNaN(lat) || isNaN(lon)]. *)
Definition located (item : Reading) : bool :=
  match r_lat item, r_lon item with
  | Some _, Some _ => true
  | _, _ => false
  end.

Lemma processItem_located la lo item :
  located item = true ->
  exists t, processItem la lo item = Some t
            /\ id t = toUpperCase (r_hex item)
            /\ Some (geo_lat t) = r_lat item
            /\ Some (geo_lon t) = r_lon item.
Proof.
  unfold located, processItem.
  destruct (r_lat item) as [a|]; [|discriminate].
  destruct (r_lon item) as [b|]; [|discriminate].
  intros _. eexists. split; [reflexivity|]. repeat split.
Qed.

Lemma processItem_unlocated la lo item :
  located item = false -> processItem la lo item = None.
Proof.
  unfold located, processItem.
  destruct (r_lat item) as [a|]; [|reflexivity].
  destruct (r_lon item) as [b|]; [discriminate|reflexivity].
Qed.

(** X8. [processTargets] keeps exactly the elements whose latitude and
    longitude are numbers, in their order: the identifiers (upper-cased)
    and the geodetic coordinates of the targets are those of the kept
    elements, whatever the origin; nothing is invented, merged or
    reordered. *)
Theorem targets_are_the_located_readings :
  forall (this_lat this_lon : R) (rawData : list Reading),
    map (fun t => (id t, Some (geo_lat t), Some (geo_lon t)))
        (processTargets this_lat this_lon rawData)
    = map (fun r => (toUpperCase (r_hex r), r_lat r, r_lon r))
          (filter located rawData)
    /\ (List.length (processTargets this_lat this_lon rawData)
        <= List.length rawData)%nat.
Proof.
  intros la lo raw. induction raw as [|item rest [IH1 IH2]]; simpl.
  - split; [reflexivity|apply le_n].
  - destruct (located item) eqn:L.
    + destruct (processItem_located la lo item L) as (t & -> & E1 & E2 & E3).
      simpl. rewrite IH1, E1, E2, E3. split; [reflexivity|].
      apply le_n_S, IH2.
    + rewrite (processItem_unlocated la lo item L).
      split; [exact IH1|]. apply le_S, IH2.
Qed.

(** The ground speed in metres per second. *)
Definition speedMs (item : Reading) : R := or_zero (r_gs item) * 0.514444.

Lemma quarter_turns :
  90 * PI / 180 = PI / 2 /\ 180 * PI / 180 = PI
  /\ 270 * PI / 180 = 3 * (PI / 2) /\ 0 * PI / 180 = 0.
Proof. repeat split; field. Qed.

Lemma processItem_velocity la lo item t :
  processItem la lo item = Some t ->
  velocity_vx t = speedMs item * sin (or_zero (r_track item) * PI / 180)
  /\ velocity_vy t = speedMs item * cos (or_zero (r_track item) * PI / 180)
  /\ altitude t = or_zero (r_alt_baro item) * 0.3048.
Proof.
  unfold processItem.
  destruct (r_lat item) as [a|]; [|discriminate].
  destruct (r_lon item) as [b|]; [|discriminate].
  intros H. injection H as <-. repeat split.
Qed.

Lemma speed_squared la lo item t :
  processItem la lo item = Some t ->
  (velocity_vx t) ^ 2 + (velocity_vy t) ^ 2 = (speedMs item) ^ 2.
Proof.
  intros H. destruct (processItem_velocity la lo item H) as (-> & -> & _).
  set (h := or_zero (r_track item) * PI / 180).
  pose proof (sin2_cos2 h) as SC. unfold Rsqr in SC.
  replace ((speedMs item * sin h) ^ 2 + (speedMs item * cos h) ^ 2)
    with ((speedMs item) ^ 2 * (sin h * sin h + cos h * cos h)) by ring.
  rewrite SC. ring.
Qed.

(** X9. The velocity of a target has the magnitude of the reported
    ground speed (knots times 0.514444) whatever the track, and the
    track is read as a compass bearing: 0 (or a missing track) points
    along +y, 90 along +x, 180 along -y and 270 along -x. *)
Theorem velocity_follows_the_compass :
  forall (this_lat this_lon : R) (item : Reading) (t : RadarTarget),
    processItem this_lat this_lon item = Some t ->
    (velocity_vx t) ^ 2 + (velocity_vy t) ^ 2 = (speedMs item) ^ 2
    /\ (or_zero (r_track item) = 0 ->
        velocity_vx t = 0 /\ velocity_vy t = speedMs item)
    /\ (r_track item = Some 90 ->
        velocity_vx t = speedMs item /\ velocity_vy t = 0)
    /\ (r_track item = Some 180 ->
        velocity_vx t = 0 /\ velocity_vy t = - speedMs item)
    /\ (r_track item = Some 270 ->
        velocity_vx t = - speedMs item /\ velocity_vy t = 0).
Proof.
  intros la lo item t H.
  pose proof (speed_squared la lo item H) as M.
  destruct (processItem_velocity la lo item H) as (Vx & Vy & _).
  destruct quarter_turns as (Q1 & Q2 & Q3 & Q0).
  split; [exact M|]. rewrite Vx, Vy. clear M Vx Vy H.
  split; [|split; [|split]].
  - intros ->. rewrite Q0, sin_0, cos_0. split; ring.
  - intros ->. simpl or_zero. rewrite Q1, sin_PI2, cos_PI2. split; ring.
  - intros ->. simpl or_zero. rewrite Q2, sin_PI, cos_PI. split; ring.
  - intros ->. simpl or_zero. rewrite Q3, sin_3PI2, cos_3PI2. split; ring.
Qed.

Local Open Scope string_scope.

(** An airliner east-bound at 450 knots. *)
Definition eastbound : Reading :=
  mkReading (Some 51.5) (Some (-0.4)) (Some 450) (Some 90) (Some 36000)
            "B738" "4ca7b6" "RYR123 " "EI-DCL".

Lemma velocity_follows_the_compass_witness :
  exists t, processItem 51.47 (-0.4543) eastbound = Some t
            /\ (velocity_vx t) ^ 2 + (velocity_vy t) ^ 2
               = (speedMs eastbound) ^ 2
            /\ velocity_vx t = speedMs eastbound /\ velocity_vy t = 0.
Proof.
  destruct (processItem 51.47 (-0.4543) eastbound) as [t|] eqn:E;
    [|discriminate E].
  exists t. split; [reflexivity|].
  destruct (velocity_follows_the_compass 51.47 (-0.4543) eastbound E)
    as (M & _ & East & _).
  split; [exact M|]. exact (East eq_refl).
Defined.

End Targets.

(* ------------------------------------------------------------------ *)
(** ** Consumers of the controller's sinks

    Sources: [src/components/TargetTable.tsx] (the track table) and the
    application component (the log buffer). Pixel measures are
    rationals. *)

From Stdlib Require Import Qround.
From Stdlib Require Lqa.

Module Arrays.
Local Open Scope Z_scope.

(** [l.slice(start, end)] for integer arguments; [None] is an omitted
    [end]. A negative index counts from the end of the array. *)
Definition jsSlice {A : Type} (l : list A) (start : Z) (stop : option Z)
  : list A :=
  let len := Z.of_nat (List.length l) in
  let relative i := if i <? 0 then Z.max (len + i) 0 else Z.min i len in
  let k := relative start in
  let final := match stop with
               | None => len
               | Some e => relative e
               end in
  firstn (Z.to_nat (final - k)) (skipn (Z.to_nat k) l).

Lemma jsSlice_nth {A : Type} (l : list A) (a b : Z) (i : nat) :
  0 <= a <= Z.of_nat i -> Z.of_nat i < b -> (i < List.length l)%nat ->
  nth_error (jsSlice l a (Some b)) (i - Z.to_nat a) = nth_error l i.
Proof.
  intros A1 B1 L. unfold jsSlice.
  assert (Ea : (a <? 0) = false) by (apply Z.ltb_ge; lia).
  assert (Eb : (b <? 0) = false) by (apply Z.ltb_ge; lia).
  rewrite Ea, Eb.
  rewrite nth_error_firstn.
  assert (C : (i - Z.to_nat a <? Z.to_nat (Z.min b (Z.of_nat (List.length l))
                          - Z.min a (Z.of_nat (List.length l))))%nat = true).
  { apply Nat.ltb_lt. lia. }
  rewrite C. rewrite nth_error_skipn. f_equal. lia.
Qed.

Lemma jsSlice_length {A : Type} (l : list A) (a b : Z) :
  0 <= a -> 0 <= b ->
  Z.of_nat (List.length (jsSlice l a (Some (a + b)))) <= b.
Proof.
  intros A1 B1. unfold jsSlice.
  assert (Ea : (a <? 0) = false) by (apply Z.ltb_ge; lia).
  rewrite Ea. rewrite length_firstn, length_skipn.
  destruct (a + b <? 0) eqn:E; [apply Z.ltb_lt in E | apply Z.ltb_ge in E]; lia.
Qed.

(** The last [n] elements. *)
Definition lastN {A : Type} (n : nat) (l : list A) : list A :=
  skipn (List.length l - n) l.

Lemma jsSlice_tail {A : Type} (l : list A) (n : nat) :
  (0 < n)%nat -> jsSlice l (- Z.of_nat n) None = lastN n l.
Proof.
  intros N. unfold jsSlice, lastN.
  assert (E : (- Z.of_nat n <? 0) = true) by (apply Z.ltb_lt; lia).
  rewrite E.
  replace (Z.to_nat (Z.max (Z.of_nat (List.length l) + - Z.of_nat n) 0))
    with (List.length l - n)%nat by lia.
  apply firstn_all2. rewrite length_skipn. lia.
Qed.

Lemma lastN_snoc {A : Type} (n : nat) (l : list A) (x : A) :
  lastN n (lastN (S n) l) ++ [x] = lastN (S n) (l ++ [x]).
Proof.
  unfold lastN. rewrite length_skipn, length_app. simpl List.length.
  rewrite skipn_skipn.
  replace (List.length l + 1 - S n)%nat with (List.length l - n)%nat by lia.
  replace (List.length l - (List.length l - S n) - n + (List.length l - S n))%nat
    with (List.length l - n)%nat by lia.
  rewrite skipn_app.
  replace (List.length l - n - List.length l)%nat with 0%nat by lia.
  reflexivity.
Qed.

End Arrays.

(* ------------------------------------------------------------------ *)
(** ** The track table: [TargetTable] *)

Module Table.
Import Arrays Lqa.
Local Open Scope Z_scope.

Definition ROW_HEIGHT : Z := 36.

Definition totalHeight {A : Type} (targets : list A) : Z :=
  Z.of_nat (List.length targets) * ROW_HEIGHT.

Definition startIndex (scrollTop : Q) : Z :=
  Z.max 0 (Qfloor (scrollTop / inject_Z ROW_HEIGHT) - 2).

Definition visibleCount (containerHeight : Q) : Z :=
  Qceiling (containerHeight / inject_Z ROW_HEIGHT) + 4.

Definition visibleTargets {A : Type} (targets : list A)
           (scrollTop containerHeight : Q) : list A :=
  jsSlice targets (startIndex scrollTop)
          (Some (startIndex scrollTop + visibleCount containerHeight)).

Definition offsetY (scrollTop : Q) : Z := startIndex scrollTop * ROW_HEIGHT.

Lemma row_quotient (s : Q) :
  (s / inject_Z ROW_HEIGHT == s * (1 # 36))%Q.
Proof. reflexivity. Qed.

Lemma floor_row (s : Q) (i : Z) :
  (s < inject_Z ((i + 1) * 36))%Q -> Qfloor (s / inject_Z ROW_HEIGHT) <= i.
Proof.
  intros B. pose proof (Qfloor_le (s / inject_Z ROW_HEIGHT)) as F.
  pose proof (row_quotient s) as E.
  set (q := (s / inject_Z ROW_HEIGHT)%Q) in *. clearbody q.
  rewrite inject_Z_mult, inject_Z_plus in B.
  change (inject_Z 36) with 36%Q in B. change (inject_Z 1) with 1%Q in B.
  assert (C : (inject_Z (Qfloor q) < inject_Z (i + 1))%Q).
  { rewrite inject_Z_plus. change (inject_Z 1) with 1%Q. lra. }
  rewrite <- Zlt_Qlt in C. lia.
Qed.

Lemma ceiling_rows (s h : Q) (i : Z) :
  (inject_Z (i * 36) < s + h)%Q ->
  i <= Qfloor (s / inject_Z ROW_HEIGHT) + Qceiling (h / inject_Z ROW_HEIGHT).
Proof.
  intros B. pose proof (Qlt_floor (s / inject_Z ROW_HEIGHT)) as F.
  pose proof (Qle_ceiling (h / inject_Z ROW_HEIGHT)) as G.
  pose proof (row_quotient s) as Es. pose proof (row_quotient h) as Eh.
  set (q := (s / inject_Z ROW_HEIGHT)%Q) in *. clearbody q.
  set (p := (h / inject_Z ROW_HEIGHT)%Q) in *. clearbody p.
  rewrite inject_Z_mult in B. change (inject_Z 36) with 36%Q in B.
  rewrite inject_Z_plus in F. change (inject_Z 1) with 1%Q in F.
  assert (C : (inject_Z i < inject_Z (Qfloor q + Qceiling p + 1))%Q).
  { rewrite !inject_Z_plus. change (inject_Z 1) with 1%Q. lra. }
  rewrite <- Zlt_Qlt in C. lia.
Qed.

Lemma visibleCount_nonneg (h : Q) : (0 <= h)%Q -> 4 <= visibleCount h.
Proof.
  intros H. unfold visibleCount.
  pose proof (Qle_ceiling (h / inject_Z ROW_HEIGHT)) as G.
  pose proof (row_quotient h) as Eh.
  set (p := (h / inject_Z ROW_HEIGHT)%Q) in *. clearbody p.
  assert (C : (inject_Z (-1) < inject_Z (Qceiling p))%Q).
  { change (inject_Z (-1)) with (-1)%Q. lra. }
  rewrite <- Zlt_Qlt in C. lia.
Qed.

(** X10. The virtual window never hides a row the viewport shows:
    every row of the table whose 36-pixel band meets the viewport
    [scrollTop, scrollTop + containerHeight) is among the rendered rows,
    and is laid out at the vertical position it has in the full table.
    When the container height is not negative, at most
    [ceil(containerHeight / 36) + 4] rows are rendered, however many
    targets there are. *)
Theorem window_shows_every_visible_row :
  forall (A : Type) (targets : list A) (scrollTop containerHeight : Q)
         (i : nat),
    (i < List.length targets)%nat ->
    (inject_Z (Z.of_nat i * 36) < scrollTop + containerHeight)%Q ->
    (scrollTop < inject_Z ((Z.of_nat i + 1) * 36))%Q ->
    let rendered := visibleTargets targets scrollTop containerHeight in
    let j := (i - Z.to_nat (startIndex scrollTop))%nat in
    nth_error rendered j = nth_error targets i
    /\ offsetY scrollTop + Z.of_nat j * ROW_HEIGHT = Z.of_nat i * ROW_HEIGHT
    /\ ((0 <= containerHeight)%Q ->
        Z.of_nat (List.length rendered) <= visibleCount containerHeight).
Proof.
  intros A targets s h i L Top Bottom rendered j.
  pose proof (@floor_row s (Z.of_nat i) Bottom) as F.
  pose proof (@ceiling_rows s h (Z.of_nat i) Top) as C.
  assert (S0 : 0 <= startIndex s <= Z.of_nat i) by (unfold startIndex; lia).
  split; [|split].
  - apply jsSlice_nth; [exact S0| |exact L].
    unfold startIndex, visibleCount. lia.
  - unfold offsetY, ROW_HEIGHT. subst j. lia.
  - intros H. apply jsSlice_length; [lia|].
    pose proof (@visibleCount_nonneg h H). lia.
Qed.

(** Two hundred rows scrolled by 1000 pixels in a 300 pixel container:
    row 28 spans the pixels 1008 to 1044. *)
Lemma window_shows_every_visible_row_witness :
  let targets := seq 0 200 in
  nth_error (visibleTargets targets 1000 300) (28 - Z.to_nat (startIndex 1000))
  = nth_error targets 28
  /\ offsetY 1000 + Z.of_nat (28 - Z.to_nat (startIndex 1000)) * ROW_HEIGHT
     = 28 * ROW_HEIGHT
  /\ ((0 <= 300)%Q ->
      Z.of_nat (List.length (visibleTargets targets 1000 300))
      <= visibleCount 300).
Proof.
  intros targets.
  apply (@window_shows_every_visible_row nat targets 1000 300 28).
  - vm_compute. lia.
  - vm_compute. reflexivity.
  - vm_compute. reflexivity.
Defined.

End Table.

(* ------------------------------------------------------------------ *)
(** ** The figures of a table row *)

Module Rows.
Import JS Normalizer.
Local Open Scope R_scope.

(** The locals of the row callback of [TargetTable]. *)
Definition rangeKm (t : RadarTarget) : R :=
  sqrt ((position_x t) ^ 2 + (position_y t) ^ 2) / 1000.

Definition speedKts (t : RadarTarget) : R :=
  sqrt ((velocity_vx t) ^ 2 + (velocity_vy t) ^ 2) * 1.94384.

Definition altFt (t : RadarTarget) : R := altitude t * 3.28084.

(** X11. The table undoes the normalizer's unit conversions: for a
    target made by [processTargets] the speed column is the magnitude of
    the reported ground speed times 0.514444 * 1.94384, within four
    parts in a million of it (the sign of a negative speed is lost), and
    the altitude column is the reported barometric altitude times
    0.3048 * 3.28084, within one part in ten million. *)
Theorem table_undoes_the_unit_conversions :
  forall (this_lat this_lon : R) (item : Reading) (t : RadarTarget),
    processItem this_lat this_lon item = Some t ->
    let gs := or_zero (r_gs item) in
    let alt := or_zero (r_alt_baro item) in
    speedKts t = Rabs gs * (0.514444 * 1.94384)
    /\ Rabs (speedKts t - Rabs gs) <= Rabs gs * (4 / 1000000)
    /\ altFt t = alt * (0.3048 * 3.28084)
    /\ Rabs (altFt t - alt) <= Rabs alt / 10000000.
Proof.
  intros la lo item t H gs alt.
  assert (S : speedKts t = Rabs gs * (0.514444 * 1.94384)).
  { unfold speedKts. rewrite (Targets.speed_squared la lo item H).
    rewrite <- Rsqr_pow2, sqrt_Rsqr_abs. unfold Targets.speedMs. fold gs.
    rewrite Rabs_mult, (Rabs_pos_eq 0.514444) by lra. ring. }
  assert (A : altFt t = alt * (0.3048 * 3.28084)).
  { unfold altFt.
    destruct (Targets.processItem_velocity la lo item H) as (_ & _ & ->).
    fold alt. ring. }
  split; [exact S|]. split; [|split; [exact A|]].
  - rewrite S. pose proof (Rabs_pos gs) as P.
    replace (Rabs gs * (0.514444 * 1.94384) - Rabs gs)
      with (- (Rabs gs * (1 - 0.514444 * 1.94384))) by ring.
    rewrite Rabs_Ropp, Rabs_pos_eq; nra.
  - rewrite A. pose proof (Rabs_pos alt) as P.
    replace (alt * (0.3048 * 3.28084) - alt)
      with (alt * (0.3048 * 3.28084 - 1)) by ring.
    rewrite Rabs_mult, (Rabs_pos_eq (0.3048 * 3.28084 - 1)) by lra. nra.
Qed.

Lemma table_undoes_the_unit_conversions_witness :
  exists t, processItem 51.47 (-0.4543) Targets.eastbound = Some t
            /\ speedKts t = Rabs 450 * (0.514444 * 1.94384)
            /\ altFt t = 36000 * (0.3048 * 3.28084).
Proof.
  destruct (processItem 51.47 (-0.4543) Targets.eastbound) as [t|] eqn:E;
    [|discriminate E].
  exists t. split; [reflexivity|].
  destruct (table_undoes_the_unit_conversions 51.47 (-0.4543)
              Targets.eastbound E) as (S & _ & A & _).
  split; [exact S|exact A].
Defined.

End Rows.

(* ------------------------------------------------------------------ *)
(** ** The application's log buffer *)

Module Logs.
Import Arrays.
Local Open Scope Z_scope.

(** The updater [prev => [...prev.slice(-49), log]] that the
    application registers with [onLog]. *)
Definition onLog {A : Type} (prev : list A) (log : A) : list A :=
  jsSlice prev (-49) None ++ [log].

Lemma onLog_last {A : Type} (l : list A) (x : A) :
  onLog (lastN 50 l) x = lastN 50 (l ++ [x]).
Proof.
  unfold onLog. change (-49) with (- Z.of_nat 49).
  rewrite jsSlice_tail by lia. apply lastN_snoc.
Qed.

(** X12. After any sequence of log entries the application's buffer
    holds the last fifty of them in their order, never more than fifty,
    and all of them while there are at most fifty. *)
Theorem log_buffer_is_the_last_fifty :
  forall (A : Type) (logs : list A),
    let buffer := fold_left onLog logs [] in
    buffer = skipn (List.length logs - 50) logs
    /\ (List.length buffer <= 50)%nat
    /\ ((List.length logs <= 50)%nat -> buffer = logs).
Proof.
  intros A logs buffer.
  assert (E : buffer = lastN 50 logs).
  { subst buffer. change (@nil A) with (lastN 50 (@nil A)).
    change logs with ([] ++ logs) at 2. generalize (@nil A) as seen.
    induction logs as [|x logs IH]; intros seen; simpl.
    - rewrite app_nil_r. reflexivity.
    - rewrite onLog_last, IH, <- app_assoc. reflexivity. }
  rewrite E. unfold lastN. split; [reflexivity|]. split.
  - rewrite length_skipn. lia.
  - intros L. replace (List.length logs - 50)%nat with 0%nat by lia. reflexivity.
Qed.

End Logs.

(* ------------------------------------------------------------------ *)
(** ** The radar scope: [RadarScope]

    Source: [src/components/RadarScope.tsx]. Pixel and metre measures
    are reals; a zero range scale makes every plotted coordinate
    infinite or [NaN], so that nothing is drawn or selected: the
    theorems assume it is not zero. *)

Module Scope.
Import JS Normalizer.
Local Open Scope R_scope.

Section Canvas.
(** [dimensions.width], [dimensions.height] and [settings.rangeScale]. *)
Variables width height rangeScale : R.

Definition centerX : R := width / 2.
Definition centerY : R := height / 2.
Definition radius : R := width / 2 - 10.
Definition maxRangeM : R := rangeScale * 1000.

(** Where a target is plotted, in the render loop and in the click
    handler alike. *)
Definition plotX (t : RadarTarget) : R :=
  centerX + (position_x t / maxRangeM) * radius.
Definition plotY (t : RadarTarget) : R :=
  centerY - (position_y t / maxRangeM) * radius.

(** The render loop draws [t] unless
    [Math.abs(t.position.x) > maxRangeM || Math.abs(t.position.y) > maxRangeM]. *)
Definition drawn (t : RadarTarget) : bool :=
  if Rgt_dec (Rabs (position_x t)) maxRangeM then false
  else if Rgt_dec (Rabs (position_y t)) maxRangeM then false
  else true.

Definition clickTolerance : R := 10.

Definition dist (clickX clickY : R) (t : RadarTarget) : R :=
  let dx := clickX - plotX t in
  let dy := clickY - plotY t in
  sqrt (dx * dx + dy * dy).

(** The body of the [forEach] of [handleCanvasClick] on the pair
    [(bestDist, bestId)]; [None] is [Infinity], respectively [null]. *)
Definition examine (clickX clickY : R)
           (best : option R * option string) (t : RadarTarget)
  : option R * option string :=
  let d := dist clickX clickY t in
  if Rlt_dec d clickTolerance then
    match fst best with
    | None => (Some d, Some (id t))
    | Some bestDist =>
        if Rlt_dec d bestDist then (Some d, Some (id t)) else best
    end
  else best.

Definition handleCanvasClick (clickX clickY : R) (targets : list RadarTarget)
  : option string :=
  snd (fold_left (examine clickX clickY) targets (None, None)).

(** The state of the search after the targets [seen]. *)
Definition searched (clickX clickY : R) (seen : list RadarTarget)
           (best : option R * option string) : Prop :=
  match best with
  | (None, None) =>
      forall u, In u seen -> ~ dist clickX clickY u < clickTolerance
  | (Some d, Some i) =>
      exists pre t post,
        seen = pre ++ t :: post /\ id t = i /\ d = dist clickX clickY t
        /\ d < clickTolerance
        /\ (forall u, In u pre -> d < dist clickX clickY u)
        /\ (forall u, In u post -> d <= dist clickX clickY u)
  | _ => False
  end.

Lemma searched_examine cx cy seen best t :
  searched cx cy seen best -> searched cx cy (seen ++ [t]) (examine cx cy best t).
Proof.
  intros S. unfold examine.
  destruct best as [[d|] [i|]]; simpl in *; try contradiction.
  - destruct S as (pre & t0 & post & E & Ei & Ed & Lt & Pre & Post).
    destruct (Rlt_dec (dist cx cy t) clickTolerance) as [T|T].
    + destruct (Rlt_dec (dist cx cy t) d) as [B|B].
      * exists seen, t, []. repeat split; auto.
        -- intros u Hu. rewrite E in Hu.
           apply in_app_or in Hu as [Hu | [<- | Hu]].
           ++ specialize (Pre u Hu). lra.
           ++ lra.
           ++ specialize (Post u Hu). lra.
        -- intros u [].
      * exists pre, t0, (post ++ [t]). repeat split; auto.
        -- rewrite E, <- app_assoc. reflexivity.
        -- intros u Hu. apply in_app_or in Hu as [Hu | [<- | []]]; auto. lra.
    + exists pre, t0, (post ++ [t]). repeat split; auto.
      * rewrite E, <- app_assoc. reflexivity.
      * intros u Hu. apply in_app_or in Hu as [Hu | [<- | []]]; auto. lra.
  - destruct (Rlt_dec (dist cx cy t) clickTolerance) as [T|T].
    + exists seen, t, []. repeat split; auto.
      * intros u Hu. specialize (S u Hu). lra.
      * intros u [].
    + intros u Hu. apply in_app_or in Hu as [Hu | [<- | []]]; auto.
Qed.

Lemma searched_fold cx cy rest :
  forall seen best,
    searched cx cy seen best ->
    searched cx cy (seen ++ rest) (fold_left (examine cx cy) rest best).
Proof.
  induction rest as [|t rest IH]; intros seen best S; simpl.
  - rewrite app_nil_r. exact S.
  - replace (seen ++ t :: rest) with ((seen ++ [t]) ++ rest)
      by (rewrite <- app_assoc; reflexivity).
    apply IH, searched_examine, S.
Qed.

End Canvas.

(** X13. A click selects the first of the nearest targets among those
    plotted less than 10 pixels from it: every earlier target is
    strictly farther, every later one at least as far; when no target
    is that close the selection is cleared. *)
Theorem click_selects_the_nearest_target :
  forall (width height rangeScale clickX clickY : R)
         (targets : list RadarTarget),
    rangeScale <> 0 ->
    let d := dist width height rangeScale clickX clickY in
    match handleCanvasClick width height rangeScale clickX clickY targets with
    | None => forall u, In u targets -> ~ d u < 10
    | Some i =>
        exists pre t post,
          targets = pre ++ t :: post /\ id t = i /\ d t < 10
          /\ (forall u, In u pre -> d t < d u)
          /\ (forall u, In u post -> d t <= d u)
    end.
Proof.
  intros width height rangeScale cx cy targets _ d.
  assert (S0 : searched width height rangeScale cx cy [] (None, None))
    by (intros u []).
  pose proof (@searched_fold width height rangeScale cx cy targets []
                (None, None) S0) as S.
  simpl app in S. unfold handleCanvasClick.
  destruct (fold_left _ targets (None, None)) as [[bd|] [i|]];
    simpl in *; try contradiction.
  - destruct S as (pre & t & post & E & Ei & Ed & Lt & Pre & Post).
    exists pre, t, post. subst bd. unfold clickTolerance in Lt. auto 6.
  - exact S.
Qed.

Lemma abs_le_inv (x b : R) : Rabs x <= b -> - b <= x <= b.
Proof.
  intros H. pose proof (Rle_abs x) as P. pose proof (Rle_abs (- x)) as N.
  rewrite Rabs_Ropp in N. lra.
Qed.

Lemma plot_within (width rangeScale v : R) :
  0 < rangeScale -> 0 <= radius width ->
  Rabs v <= maxRangeM rangeScale ->
  - radius width <= v / maxRangeM rangeScale * radius width <= radius width.
Proof.
  intros Hs Hr Hv. unfold maxRangeM in *.
  assert (M : 0 < rangeScale * 1000) by lra.
  apply abs_le_inv in Hv.
  assert (I : 0 < / (rangeScale * 1000)) by (apply Rinv_0_lt_compat, M).
  assert (U : / (rangeScale * 1000) * (rangeScale * 1000) = 1)
    by (apply Rinv_l; lra).
  unfold Rdiv. set (k := / (rangeScale * 1000)) in *.
  assert (-1 <= v * k <= 1) by nra. nra.
Qed.

(** X14. With a positive range scale on a canvas at least 20 pixels
    wide, every target the render loop draws is plotted inside the
    square that bounds the outer range ring, 10 pixels inside the
    canvas. *)
Theorem drawn_targets_are_inside_the_scope :
  forall (width height rangeScale : R) (t : RadarTarget),
    0 < rangeScale -> 20 <= width ->
    drawn rangeScale t = true ->
    let r := radius width in
    centerX width - r <= plotX width rangeScale t <= centerX width + r
    /\ centerY height - r <= plotY width height rangeScale t
       <= centerY height + r
    /\ 10 <= plotX width rangeScale t <= width - 10.
Proof.
  intros width height rangeScale t Hs Hw D r.
  assert (Hr : 0 <= radius width) by (unfold radius; lra).
  unfold drawn in D.
  destruct (Rgt_dec (Rabs (position_x t)) (maxRangeM rangeScale)) as [|Nx];
    [discriminate|].
  destruct (Rgt_dec (Rabs (position_y t)) (maxRangeM rangeScale)) as [|Ny];
    [discriminate|].
  apply Rnot_gt_le in Nx, Ny.
  pose proof (@plot_within width rangeScale (position_x t) Hs Hr Nx) as Px.
  pose proof (@plot_within width rangeScale (position_y t) Hs Hr Ny) as Py.
  unfold plotX, plotY. fold r in Px, Py. fold r.
  assert (Er : r = width / 2 - 10) by reflexivity.
  clearbody r. unfold centerX, centerY. repeat split; lra.
Qed.

(** X15. The click handler does not apply the range test of the render
    loop: a target beyond the displayed range is not drawn, yet a click
    on the point where it would be plotted selects it; that point is on
    the canvas when the target is in the 10-pixel margin around the
    outer ring. *)
Theorem undrawn_target_can_be_selected :
  forall (width height rangeScale : R) (t : RadarTarget),
    0 < rangeScale ->
    maxRangeM rangeScale < Rabs (position_x t) ->
    let x := plotX width rangeScale t in
    let y := plotY width height rangeScale t in
    drawn rangeScale t = false
    /\ handleCanvasClick width height rangeScale x y [t] = Some (id t)
    /\ (20 < width ->
        Rabs (position_x t)
        <= maxRangeM rangeScale * (width / 2) / radius width ->
        0 <= x <= width).
Proof.
  intros width height rangeScale t Hs Out x y.
  split; [|split].
  - unfold drawn.
    destruct (Rgt_dec (Rabs (position_x t)) (maxRangeM rangeScale)) as [|N];
      [reflexivity|]. exfalso. apply N. exact Out.
  - unfold handleCanvasClick. simpl. unfold examine.
    assert (D : dist width height rangeScale x y t = 0).
    { unfold dist. subst x y.
      replace (_ - _) with 0 by ring.
      replace (plotY width height rangeScale t - plotY width height rangeScale t)
        with 0 by ring.
      rewrite Rmult_0_l, Rplus_0_l. apply sqrt_0. }
    rewrite D. unfold clickTolerance.
    destruct (Rlt_dec 0 10) as [|N]; [reflexivity|]. exfalso. apply N. lra.
  - intros Hw In. subst x. unfold plotX, centerX.
    assert (Hr : 0 < radius width) by (unfold radius; lra).
    unfold maxRangeM in *.
    assert (M : 0 < rangeScale * 1000) by lra.
    assert (I : 0 < / (rangeScale * 1000)) by (apply Rinv_0_lt_compat, M).
    assert (U : / (rangeScale * 1000) * (rangeScale * 1000) = 1)
      by (apply Rinv_l; lra).
    assert (J : 0 < / radius width) by (apply Rinv_0_lt_compat, Hr).
    assert (V : / radius width * radius width = 1) by (apply Rinv_l; lra).
    apply abs_le_inv in In. unfold Rdiv in *.
    set (k := / (rangeScale * 1000)) in *. set (q := / radius width) in *.
    set (r := radius width) in *. set (v := position_x t) in *.
    set (m := rangeScale * 1000) in *.
    assert (B : - (width * / 2) <= v * k * r <= width * / 2).
    { assert (B1 : v * r <= m * (width * / 2)).
      { replace (m * (width * / 2)) with ((m * (width * / 2) * q) * r).
        - apply Rmult_le_compat_r; lra.
        - rewrite Rmult_assoc, V. ring. }
      assert (B2 : - (m * (width * / 2)) <= v * r).
      { replace (m * (width * / 2)) with ((m * (width * / 2) * q) * r).
        - replace (- (m * (width * / 2) * q * r))
            with ((- (m * (width * / 2) * q)) * r) by ring.
          apply Rmult_le_compat_r; lra.
        - rewrite Rmult_assoc, V. ring. }
      replace (v * k * r) with (k * (v * r)) by ring.
      replace (width * / 2) with (k * (m * (width * / 2)))
        by (rewrite <- Rmult_assoc, U; ring).
      split.
      - replace (- (k * (m * (width * / 2))))
          with (k * - (m * (width * / 2))) by ring.
        apply Rmult_le_compat_l; lra.
      - apply Rmult_le_compat_l; lra. }
    lra.
Qed.

Definition overhead : RadarTarget :=
  mkTarget "4CA7B6" "RYR123" 0 0 0 0 10000 50 NEUTRAL "B738" "B738" "EI-DCL"
           51.47 (-0.4543) 0.

Definition beyond : RadarTarget :=
  mkTarget "4CA7B6" "RYR123" 51000 0 0 0 10000 50 NEUTRAL "B738" "B738" "EI-DCL"
           51.47 0.28 0.

Lemma click_selects_the_nearest_target_witness :
  match handleCanvasClick 400 400 50 200 200 [overhead] with
  | None =>
      forall u, In u [overhead] -> ~ dist 400 400 50 200 200 u < 10
  | Some i =>
      exists pre t post,
        [overhead] = pre ++ t :: post /\ id t = i
        /\ dist 400 400 50 200 200 t < 10
        /\ (forall u, In u pre ->
                      dist 400 400 50 200 200 t < dist 400 400 50 200 200 u)
        /\ (forall u, In u post ->
                      dist 400 400 50 200 200 t <= dist 400 400 50 200 200 u)
  end.
Proof.
  apply (@click_selects_the_nearest_target 400 400 50 200 200 [overhead]).
  lra.
Defined.

Lemma drawn_targets_are_inside_the_scope_witness :
  10 <= plotX 400 50 overhead <= 400 - 10.
Proof.
  assert (D : drawn 50 overhead = true).
  { unfold drawn, overhead, maxRangeM. simpl.
    destruct (Rgt_dec (Rabs 0) (50 * 1000)) as [G|_].
    - rewrite Rabs_R0 in G. lra.
    - reflexivity. }
  assert (Hs : 0 < 50) by lra. assert (Hw : 20 <= 400) by lra.
  exact (proj2 (proj2 (@drawn_targets_are_inside_the_scope
                         400 400 50 overhead Hs Hw D))).
Defined.

Lemma undrawn_target_can_be_selected_witness :
  drawn 50 beyond = false
  /\ handleCanvasClick 400 400 50 (plotX 400 50 beyond)
       (plotY 400 400 50 beyond) [beyond] = Some "4CA7B6"%string.
Proof.
  assert (Hs : 0 < 50) by lra.
  assert (Out : maxRangeM 50 < Rabs (position_x beyond)).
  { unfold maxRangeM, beyond. simpl. rewrite Rabs_pos_eq; lra. }
  destruct (@undrawn_target_can_be_selected 400 400 50 beyond Hs Out)
    as (D & C & _).
  split; [exact D|exact C].
Defined.

End Scope.

(* ------------------------------------------------------------------ *)
(** ** The area a request covers

    Source: the URL construction of [executeFetchStrategy]. *)

Module Radial.
Import Lqa.
Local Open Scope Z_scope.

(** The distance parameter of the ADSB_LOL and AIRPLANES_LIVE request,
    in nautical miles, with the product taken exactly. The code
    multiplies doubles: [RadialRequest] below has that computation and
    shows that the two agree at every stop of the range slider. *)
Definition rangeNm (rangeKm : Q) : Z :=
  Z.min (Qceiling (rangeKm * 0.539957)) 250.

Definition safeRange (rangeKm : Q) : Z := Z.max (rangeNm rangeKm) 1.

End Radial.

(* ------------------------------------------------------------------ *)
Module OpenSkyBox.
Import JS Normalizer.
Local Open Scope R_scope.

(** The bounding box of the OPENSKY request. *)
Definition clampedRange (rangeKm : R) : R := Rmin rangeKm 500.

Definition latDelta (rangeKm : R) : R := clampedRange rangeKm / 111.

Definition lonDelta (lat rangeKm : R) : R :=
  clampedRange rangeKm / (111 * cos (lat * PI / 180)).

Record Box : Type := mkBox { lamin : R; lomin : R; lamax : R; lomax : R }.

Definition boundingBox (lat lon rangeKm : R) : Box :=
  {| lamin := lat - latDelta rangeKm;
     lomin := lon - lonDelta lat rangeKm;
     lamax := lat + latDelta rangeKm;
     lomax := lon + lonDelta lat rangeKm |}.







End OpenSkyBox.

(* ------------------------------------------------------------------ *)
(** ** Dead reckoning between snapshots

    Source: the flight-API branch of [updateSimLoop] in the application
    component. Time stamps are the integers of [Date.now()]. *)

Module Interpolation.
Import JS Normalizer.
Local Open Scope R_scope.

(** [{...t, position: {x: t.position.x + t.velocity.vx * deltaTime,
                       y: t.position.y + t.velocity.vy * deltaTime}}]. *)
Definition advance (deltaTime : R) (t : RadarTarget) : RadarTarget :=
  {| id := id t;
     callsign := callsign t;
     position_x := position_x t + velocity_vx t * deltaTime;
     position_y := position_y t + velocity_vy t * deltaTime;
     velocity_vx := velocity_vx t;
     velocity_vy := velocity_vy t;
     altitude := altitude t;
     rcs := rcs t;
     status := status t;
     classification := classification t;
     typeCode := typeCode t;
     registration := registration t;
     geo_lat := geo_lat t;
     geo_lon := geo_lon t;
     geo_track := geo_track t |}.

(** One animation frame at time [now]; the state is [lastTimeRef] and
    the target list. *)
Definition updateSimLoop (st : Z * list RadarTarget) (now : Z)
  : Z * list RadarTarget :=
  let deltaTime := IZR (now - fst st) / 1000 in
  (now, map (advance deltaTime) (snd st)).

Lemma advance_0 t : advance 0 t = t.
Proof.
  destruct t. unfold advance. simpl. f_equal; ring.
Qed.

Lemma advance_advance a b t : advance b (advance a t) = advance (a + b) t.
Proof.
  unfold advance. simpl. f_equal; ring.
Qed.

Lemma last_cons {A : Type} (l : list A) :
  forall (x d : A), last (x :: l) d = last l x.
Proof.
  induction l as [|y l IH]; intros x d; [reflexivity|].
  change (last (x :: y :: l) d) with (last (y :: l) d).
  rewrite (IH y d), (IH y x). reflexivity.
Qed.

(** X19. Between two snapshots the displayed position does not depend
    on the frames: after any sequence of animation frames every target
    stands at its snapshot position plus its velocity times the time
    elapsed since the last frame before the snapshot, in the order of
    the snapshot and with every other field (the geodetic position
    included) untouched. *)
Theorem frames_add_up :
  forall (t0 : Z) (targets : list RadarTarget) (frames : list Z),
    let final := fold_left updateSimLoop frames (t0, targets) in
    let elapsed := IZR (fst final - t0) / 1000 in
    fst final = last frames t0
    /\ snd final = map (advance elapsed) targets
    /\ map (fun t => (id t, velocity_vx t, velocity_vy t, geo_lat t, geo_lon t))
           (snd final)
       = map (fun t => (id t, velocity_vx t, velocity_vy t, geo_lat t, geo_lon t))
             targets.
Proof.
  intros t0 targets frames final elapsed.
  assert (E : fst final = last frames t0
              /\ snd final
                 = map (advance (IZR (last frames t0 - t0) / 1000)) targets).
  { subst final elapsed.
    assert (G : forall t1 ts,
               ts = map (advance (IZR (t1 - t0) / 1000)) targets ->
               fst (fold_left updateSimLoop frames (t1, ts)) = last frames t1
               /\ snd (fold_left updateSimLoop frames (t1, ts))
                  = map (advance (IZR (last frames t1 - t0) / 1000)) targets).
    { induction frames as [|now frames IH]; intros t1 ts Hts.
      - simpl. split; [reflexivity|exact Hts].
      - change (fold_left updateSimLoop (now :: frames) (t1, ts))
          with (fold_left updateSimLoop frames (updateSimLoop (t1, ts) now)).
        unfold updateSimLoop at 2 4. simpl fst. simpl snd.
        rewrite last_cons. apply IH. rewrite Hts, map_map.
        apply map_ext. intros t. rewrite advance_advance. f_equal.
        rewrite <- Rdiv_plus_distr, <- plus_IZR. f_equal. f_equal. ring. }
    apply G. replace (t0 - t0)%Z with 0%Z by ring.
    unfold Rdiv. rewrite Rmult_0_l.
    rewrite (map_ext _ (fun t => t) advance_0), map_id. reflexivity. }
  destruct E as [E1 E2]. split; [exact E1|].
  unfold elapsed. rewrite E1. split; [exact E2|].
  rewrite E2, map_map. reflexivity.
Qed.

End Interpolation.

(* ------------------------------------------------------------------ *)
(** ** The stand-alone fetch helpers

    Source: [src/services/flightService.ts]. *)

Module FlightService.
Import JS OpenSkyBox.
Local Open Scope R_scope.

Definition getBoundingBox (lat lon rangeKm : R) : Box :=
  let latDelta := rangeKm / 111 in
  let cosLat := cos (lat * PI / 180) in
  let safeCos := if Rlt_dec (Rabs cosLat) 0.0001 then 0.0001 else cosLat in
  let lonDelta := rangeKm / (111 * safeCos) in
  {| lamin := lat - latDelta;
     lamax := lat + latDelta;
     lomin := lon - lonDelta;
     lomax := lon + lonDelta |}.

Lemma cos_between_the_poles (lat : R) :
  -90 <= lat <= 90 -> 0 <= cos (lat * PI / 180).
Proof.
  intros [L U]. pose proof PI_RGT_0 as P.
  apply cos_ge_0; nra.
Qed.

(** X20. The helper's box is the box the controller builds in line
    wherever the cosine of the latitude is at least 0.0001 and the
    range at most 500 km; unlike the controller's, its longitude
    half-width never exceeds [|rangeKm| / 0.0111] degrees, poles
    included; between the poles and for a range that is not negative it
    is a well-formed box around the origin. *)
Theorem service_box_and_controller_box :
  forall (lat lon rangeKm : R),
    let b := getBoundingBox lat lon rangeKm in
    (0.0001 <= cos (lat * PI / 180) -> rangeKm <= 500 ->
     b = boundingBox lat lon rangeKm)
    /\ Rabs (lomax b - lon) <= Rabs rangeKm / 0.0111
    /\ (-90 <= lat <= 90 -> 0 <= rangeKm ->
        lamin b <= lat <= lamax b /\ lomin b <= lon <= lomax b).
Proof.
  intros lat lon rangeKm b. subst b. unfold getBoundingBox. cbv zeta.
  set (c := cos (lat * PI / 180)).
  split; [|split].
  - intros Hc Hr. unfold boundingBox, latDelta, lonDelta, clampedRange.
    fold c. rewrite Rmin_left by exact Hr.
    destruct (Rlt_dec (Rabs c) 0.0001) as [G|_]; [|reflexivity].
    rewrite Rabs_pos_eq in G by lra. lra.
  - simpl lomax.
    set (s := if Rlt_dec (Rabs c) 0.0001 then 0.0001 else c).
    assert (S : 0.0001 <= Rabs s).
    { subst s. destruct (Rlt_dec (Rabs c) 0.0001) as [G|G].
      - rewrite Rabs_pos_eq; lra.
      - lra. }
    replace (lon + rangeKm / (111 * s) - lon) with (rangeKm / (111 * s))
      by ring.
    assert (Ns : 111 * s <> 0).
    { intros Z. assert (Zs : s = 0) by lra. rewrite Zs, Rabs_R0 in S. lra. }
    unfold Rdiv. rewrite Rabs_mult, Rabs_inv.
    rewrite Rabs_mult, (Rabs_pos_eq 111) by lra.
    apply Rmult_le_compat_l; [apply Rabs_pos|].
    apply Rinv_le_contravar; lra.
  - intros Hl Hr. pose proof (cos_between_the_poles Hl) as C. fold c in C.
    simpl.
    set (s := if Rlt_dec (Rabs c) 0.0001 then 0.0001 else c).
    assert (S : 0 < s).
    { subst s. destruct (Rlt_dec (Rabs c) 0.0001) as [G|G]; [lra|].
      rewrite Rabs_pos_eq in G by exact C. lra. }
    assert (D1 : 0 <= rangeKm / 111).
    { apply Rmult_le_pos; [exact Hr|]. apply Rlt_le, Rinv_0_lt_compat. lra. }
    assert (D2 : 0 <= rangeKm / (111 * s)).
    { apply Rmult_le_pos; [exact Hr|]. apply Rlt_le, Rinv_0_lt_compat. nra. }
    repeat split; lra.
Qed.

(** *** [fetchJson] *)

(** How one call of [fetch] followed by [response.json()] ends: the
    promise rejects (with an [AbortError] when the helper's own
    controller was aborted by the time-out or by the caller's signal),
    or a response arrives, whose body decodes or throws. *)
Inductive Fetched : Type :=
  | Rejects (e : error)
  | Responds (ok : bool) (status statusText : string) (body : result value).

Local Open Scope string_scope.

(** The [try] block. *)
Definition attempt (f : Fetched) : result value :=
  match f with
  | Rejects e => Throw e
  | Responds ok status statusText body =>
      if negb ok then Throw (Error ("HTTP " ++ status ++ ": " ++ statusText))
      else body
  end.

Definition timedOut : error := Error "Request Timeout / Aborted".

(** [fetchJson(url, signal, timeoutMs, retries)]: the environment gives,
    for the [k]-th call of [fetch], how it ends and whether the
    caller's signal is aborted when the [catch] block runs. The result
    comes with the number of [fetch] calls made so far. *)
Fixpoint fetchJson (env : nat -> Fetched * bool) (k : nat) (retries : nat)
  : result value * nat :=
  match attempt (fst (env k)) with
  | Ok json => (Ok json, S k)
  | Throw error =>
      if String.eqb (name error) "AbortError"
         || String.eqb (name error) "TimeoutError"
      then (Throw timedOut, S k)
      else
        match retries with
        | S fewer =>
            if String.eqb (message error) "Failed to fetch"
               || String.eqb (name error) "TypeError"
            then if snd (env k) then (Throw timedOut, S k)
                 else fetchJson env (S k) fewer
            else (Throw error, S k)
        | O => (Throw error, S k)
        end
  end.

Local Open Scope nat_scope.

Definition cancelled (e : error) : bool :=
  String.eqb (name e) "AbortError" || String.eqb (name e) "TimeoutError".

Definition network (e : error) : bool :=
  String.eqb (message e) "Failed to fetch" || String.eqb (name e) "TypeError".

Lemma fetchJson_step env k retries :
  fetchJson env k retries
  = match attempt (fst (env k)) with
    | Ok json => (Ok json, S k)
    | Throw error =>
        if cancelled error then (Throw timedOut, S k)
        else match retries with
             | S fewer =>
                 if network error
                 then if snd (env k) then (Throw timedOut, S k)
                      else fetchJson env (S k) fewer
                 else (Throw error, S k)
             | O => (Throw error, S k)
             end
    end.
Proof. destruct retries; reflexivity. Qed.

Lemma fetchJson_calls env retries :
  forall k, k < snd (fetchJson env k retries) <= k + retries + 1.
Proof.
  induction retries as [|r IH]; intros k; rewrite fetchJson_step;
    destruct (attempt _) as [v|e]; try (simpl; lia);
    destruct (cancelled e); try (simpl; lia).
  destruct (network e); [|simpl; lia].
  destruct (snd (env k)); [simpl; lia|].
  specialize (IH (S k)). lia.
Qed.

Lemma fetchJson_never_abort env retries :
  forall k e, fst (fetchJson env k retries) = Throw e ->
              name e <> "AbortError"%string /\ name e <> "TimeoutError"%string.
Proof.
  assert (T : name timedOut <> "AbortError"%string
              /\ name timedOut <> "TimeoutError"%string)
    by (split; discriminate).
  assert (C : forall e, cancelled e = false ->
                        name e <> "AbortError"%string
                        /\ name e <> "TimeoutError"%string).
  { intros e A. apply orb_false_iff in A as [A1 A2].
    apply String.eqb_neq in A1, A2. split; assumption. }
  induction retries as [|r IH]; intros k e; rewrite fetchJson_step;
    destruct (attempt _) as [v|e0]; try discriminate;
    destruct (cancelled e0) eqn:A;
    try (simpl; intros H; injection H as <-; exact T).
  - simpl. intros H. injection H as <-. apply C, A.
  - destruct (network e0).
    + destruct (snd (env k));
        [simpl; intros H; injection H as <-; exact T|apply IH].
    + simpl. intros H. injection H as <-. apply C, A.
Qed.

(** X21. [fetchJson] with [retries] retries calls [fetch] at least once
    and at most [retries + 1] times (twice for the adapters, which use
    the default of one retry); the error it throws is never named
    [AbortError] or [TimeoutError]; a response whose status is not ok is
    reported as ["HTTP <status>: <statusText>"] without a retry; and a
    failure after the caller's signal was aborted is reported as
    ["Request Timeout / Aborted"] without a retry. *)
Theorem fetchJson_retries_only_network_failures :
  forall (env : nat -> Fetched * bool) (retries : nat),
    let r := fetchJson env 0 retries in
    (1 <= snd r <= retries + 1)
    /\ (forall e, fst r = Throw e ->
                  name e <> "AbortError"%string
                  /\ name e <> "TimeoutError"%string)
    /\ (forall status statusText body,
          fst (env 0) = Responds false status statusText body ->
          r = (Throw (Error ("HTTP " ++ status ++ ": " ++ statusText)), 1))
    /\ (forall e, fst (env 0) = Rejects e -> snd (env 0) = true ->
                  fst r = Throw e \/ fst r = Throw timedOut)
       /\ (forall e, fst (env 0) = Rejects e -> snd (env 0) = true ->
                     snd r = 1).
Proof.
  intros env retries r. subst r.
  split; [pose proof (fetchJson_calls env retries 0); lia|].
  split; [apply fetchJson_never_abort|].
  split; [|split].
  - intros status statusText body E.
    rewrite fetchJson_step, E. simpl. destruct retries; reflexivity.
  - intros e E A. rewrite fetchJson_step, E. simpl.
    destruct (cancelled e); [auto|].
    destruct retries; [auto|]. destruct (network e); [|auto].
    rewrite A. auto.
  - intros e E A. rewrite fetchJson_step, E. simpl.
    destruct (cancelled e); [reflexivity|].
    destruct retries; [reflexivity|]. destruct (network e); [|reflexivity].
    rewrite A. reflexivity.
Qed.

End FlightService.

(* ------------------------------------------------------------------ *)
(** ** The range slider against the radial request

    Source: the range input of the application component
    ([min=10 max=10000 step=10]), whose value the effect hook passes to
    [setConfig] as [rangeKm]. *)

Module Slider.
Import Radial Lqa.
Local Open Scope Z_scope.

Definition RANGE_MIN : Z := 10.
Definition RANGE_MAX : Z := 10000.
Definition RANGE_STEP : Z := 10.

(** The [n]-th stop of the slider. *)
Definition stop (n : Z) : Z := RANGE_MIN + n * RANGE_STEP.

(** The request reaches as far as the configured range. *)
Definition covered (rangeKm : Q) : Prop :=
  (rangeKm * 0.539957 <= inject_Z (safeRange rangeKm))%Q.

(** X22. Of the slider's stops (10 km to 10000 km in steps of 10) the
    ADSB_LOL and AIRPLANES_LIVE requests cover exactly those up to
    460 km: from 470 km on the request is for 250 nautical miles, less
    than the displayed range. *)
Theorem slider_is_covered_up_to_460_km :
  forall (n : Z),
    0 <= n -> stop n <= RANGE_MAX ->
    (covered (inject_Z (stop n)) <-> stop n <= 460)
    /\ (460 < stop n -> safeRange (inject_Z (stop n)) = 250).
Proof.
  intros n N M. unfold covered, stop, RANGE_MIN, RANGE_STEP, RANGE_MAX in *.
  set (v := 10 + n * 10) in *.
  assert (Ten : v <= 460 \/ 470 <= v) by (subst v; lia).
  assert (Pos : 10 <= v) by (subst v; lia).
  clearbody v. unfold safeRange, rangeNm.
  set (nm := (inject_Z v * 0.539957)%Q).
  pose proof (Qle_ceiling nm) as U. pose proof (Qceiling_lt nm) as L.
  set (c := Qceiling nm) in *. clearbody c.
  change (c - 1) with (c + -1) in L.
  rewrite inject_Z_plus in L. change (inject_Z (-1)) with (-1)%Q in L.
  assert (Pv : (inject_Z 10 <= inject_Z v)%Q) by (rewrite <- Zle_Qle; lia).
  change (inject_Z 10) with 10%Q in Pv.
  destruct Ten as [Lo | Hi].
  - assert (Hv : (inject_Z v <= inject_Z 460)%Q) by (rewrite <- Zle_Qle; lia).
    change (inject_Z 460) with 460%Q in Hv.
    assert (C1 : (inject_Z c < inject_Z 250)%Q)
      by (change (inject_Z 250) with 250%Q; subst nm; lra).
    assert (C0 : (inject_Z 0 < inject_Z c)%Q)
      by (change (inject_Z 0) with 0%Q; subst nm; lra).
    rewrite <- Zlt_Qlt in C1, C0.
    replace (Z.max (Z.min c 250) 1) with c by lia.
    split; [split; [intros _; lia|intros _; exact U]|lia].
  - assert (Hv : (inject_Z 470 <= inject_Z v)%Q) by (rewrite <- Zle_Qle; lia).
    change (inject_Z 470) with 470%Q in Hv.
    assert (C1 : (inject_Z 250 < inject_Z c)%Q)
      by (change (inject_Z 250) with 250%Q; subst nm; lra).
    rewrite <- Zlt_Qlt in C1.
    replace (Z.max (Z.min c 250) 1) with 250 by lia.
    split; [split; [|lia]|reflexivity].
    change (inject_Z 250) with 250%Q. intros H. exfalso. subst nm. lra.
Qed.

(** The stops at 460 km and at 470 km. *)
Lemma slider_is_covered_up_to_460_km_witness :
  ((covered (inject_Z (stop 45)) <-> stop 45 <= 460)
   /\ (460 < stop 45 -> safeRange (inject_Z (stop 45)) = 250))
  /\ ((covered (inject_Z (stop 46)) <-> stop 46 <= 460)
      /\ (460 < stop 46 -> safeRange (inject_Z (stop 46)) = 250)).
Proof.
  split.
  - apply (@slider_is_covered_up_to_460_km 45); vm_compute; discriminate.
  - apply (@slider_is_covered_up_to_460_km 46); vm_compute; discriminate.
Defined.

End Slider.

(* ------------------------------------------------------------------ *)
(** ** The radial request in double arithmetic

    Source: the URL construction of [executeFetchStrategy]. The range
    is the double that [setConfig] stored. *)

From Stdlib Require Floats.

Module RadialRequest.
Import Lqa.
Import Stdlib.Floats.PrimFloat.
Local Open Scope Z_scope.

(** A JavaScript number: a double is a rational, an infinity or [NaN]. *)
Inductive number : Type :=
  | NaN
  | Infinity (negative : bool)
  | Finite (q : Q).

(** The value of a binary64 double. *)
Definition valueOf (x : PrimFloat.float) : number :=
  match FloatOps.Prim2SF x with
  | SpecFloat.S754_nan => NaN
  | SpecFloat.S754_infinity s => Infinity s
  | SpecFloat.S754_zero _ => Finite 0
  | SpecFloat.S754_finite s m e =>
      Finite (inject_Z (if s then Z.neg m else Z.pos m) * 2 ^ e)
  end.

Definition Math_ceil (x : number) : number :=
  match x with
  | Finite q => Finite (inject_Z (Qceiling q))
  | other => other
  end.

Definition Math_min (a b : number) : number :=
  match a, b with
  | NaN, _ | _, NaN => NaN
  | Infinity true, _ | _, Infinity true => Infinity true
  | Infinity false, other | other, Infinity false => other
  | Finite p, Finite q => if Qle_bool p q then a else b
  end.

Definition Math_max (a b : number) : number :=
  match a, b with
  | NaN, _ | _, NaN => NaN
  | Infinity false, _ | _, Infinity false => Infinity false
  | Infinity true, other | other, Infinity true => other
  | Finite p, Finite q => if Qle_bool p q then b else a
  end.

#[local] Set Warnings "-inexact-float".

(** [this.rangeKm * 0.539957], a product of doubles. *)
Definition nauticalMiles (rangeKm : PrimFloat.float) : PrimFloat.float :=
  PrimFloat.mul rangeKm 0.539957%float.

#[local] Set Warnings "inexact-float".

Definition rangeNm (rangeKm : PrimFloat.float) : number :=
  Math_min (Math_ceil (valueOf (nauticalMiles rangeKm))) (Finite 250).

Definition safeRange (rangeKm : PrimFloat.float) : number :=
  Math_max (rangeNm rangeKm) (Finite 1).

Lemma clamp_integer (c : Z) :
  Math_max (Math_min (Finite (inject_Z c)) (Finite 250)) (Finite 1)
  = Finite (inject_Z (Z.max (Z.min c 250) 1)).
Proof.
  unfold Math_min, Math_max.
  assert (E1 : Qle_bool (inject_Z c) 250 = (c <=? 250))
    by (unfold Qle_bool; simpl; rewrite Z.mul_1_r; reflexivity).
  rewrite E1. destruct (c <=? 250) eqn:L1.
  - assert (E2 : Qle_bool (inject_Z c) 1 = (c <=? 1))
      by (unfold Qle_bool; simpl; rewrite Z.mul_1_r; reflexivity).
    rewrite E2. apply Z.leb_le in L1.
    destruct (c <=? 1) eqn:L2; [apply Z.leb_le in L2|apply Z.leb_gt in L2].
    + replace (Z.max (Z.min c 250) 1) with 1 by lia. reflexivity.
    + replace (Z.max (Z.min c 250) 1) with c by lia. reflexivity.
  - apply Z.leb_gt in L1. simpl.
    replace (Z.max (Z.min c 250) 1) with 250 by lia. reflexivity.
Qed.

Definition ofZ (z : Z) : PrimFloat.float :=
  PrimFloat.of_uint63 (Uint63.of_Z z).

(** A range at which the double product is exactly 5 although the
    exact product is larger. *)
Definition just_above_5 : PrimFloat.float :=
  FloatOps.SF2Prim (SpecFloat.S754_finite false 5212914671180409 (-49)).

(** The request is the one of the exact product. *)
Definition agrees (rangeKm : Z) : bool :=
  match safeRange (ofZ rangeKm) with
  | Finite q => Qeq_bool q (inject_Z (Radial.safeRange (inject_Z rangeKm)))
  | _ => false
  end.

Lemma agrees_at_the_stops :
  forallb (fun n => agrees (Slider.stop (Z.of_nat n))) (seq 0 1000) = true.
Proof. vm_compute. reflexivity. Qed.

Lemma safeRange_finite rangeKm nm :
  valueOf (nauticalMiles rangeKm) = Finite nm ->
  safeRange rangeKm = Finite (inject_Z (Z.max (Z.min (Qceiling nm) 250) 1)).
Proof.
  intros E. unfold safeRange, rangeNm. rewrite E. apply clamp_integer.
Qed.

Lemma safeRange_shape rangeKm :
  safeRange rangeKm = NaN \/ exists z, safeRange rangeKm = Finite (inject_Z z).
Proof.
  unfold safeRange, rangeNm.
  destruct (valueOf (nauticalMiles rangeKm)) as [|[|]|nm]; simpl Math_ceil.
  - left. reflexivity.
  - right. exists 1. reflexivity.
  - right. exists 250. reflexivity.
  - right. eexists. apply clamp_integer.
Qed.

Lemma agrees_sound rangeKm :
  agrees rangeKm = true ->
  safeRange (ofZ rangeKm)
  = Finite (inject_Z (Radial.safeRange (inject_Z rangeKm))).
Proof.
  unfold agrees.
  destruct (safeRange_shape (ofZ rangeKm)) as [-> | (z & ->)];
    [discriminate|].
  intros H. apply Qeq_bool_iff in H. unfold Qeq in H. simpl in H.
  f_equal. f_equal. lia.
Qed.

(** X16. The radial providers are asked for [NaN] when the product of
    the range and 0.539957 is [NaN], and otherwise for a whole number of
    nautical miles between 1 and 250. When the product, as the code
    computes it in doubles, is finite: up to 250 the request covers it
    and exceeds it by less than one mile; beyond, the request is cut to
    250 and covers less; a product that is not positive is sent as 1.
    At every stop of the range slider the request is the one that the
    exact product gives; at other ranges it need not be: at
    5212914671180409 / 2^49 km the double product is exactly 5 and 5
    is requested, where the exact product needs 6. *)
Theorem radial_request_in_doubles :
  (forall (rangeKm : PrimFloat.float),
      match valueOf (nauticalMiles rangeKm) with
      | NaN => safeRange rangeKm = NaN
      | Infinity negative =>
          safeRange rangeKm = Finite (if negative then 1 else 250)
      | Finite nm =>
          exists n : Z,
            safeRange rangeKm = Finite (inject_Z n)
            /\ 1 <= n <= 250
            /\ ((nm <= 250)%Q -> (nm <= inject_Z n)%Q)
            /\ ((0 < nm)%Q -> (inject_Z n < nm + 1)%Q)
            /\ ((250 < nm)%Q -> n = 250)
            /\ ((nm <= 0)%Q -> n = 1)
      end)
  /\ (forall (n : Z),
        0 <= n -> Slider.stop n <= Slider.RANGE_MAX ->
        safeRange (ofZ (Slider.stop n))
        = Finite (inject_Z (Radial.safeRange (inject_Z (Slider.stop n)))))
  /\ (valueOf just_above_5 = Finite (5212914671180409 # 2 ^ 49)
      /\ (exists nm, valueOf (nauticalMiles just_above_5) = Finite nm
                     /\ (nm == 5)%Q)
      /\ safeRange just_above_5 = Finite 5
      /\ Radial.safeRange (5212914671180409 # 2 ^ 49) = 6).
Proof.
  split; [|split].
  - intros rangeKm.
    destruct (valueOf (nauticalMiles rangeKm)) as [|neg|nm] eqn:E.
    + unfold safeRange, rangeNm. rewrite E. reflexivity.
    + unfold safeRange, rangeNm. rewrite E. destruct neg; reflexivity.
    + rewrite (safeRange_finite _ E).
      exists (Z.max (Z.min (Qceiling nm) 250) 1). split; [reflexivity|].
      pose proof (Qle_ceiling nm) as U. pose proof (Qceiling_lt nm) as L.
      set (c := Qceiling nm) in *. clearbody c.
      change (c - 1) with (c + -1) in L.
      rewrite inject_Z_plus in L. change (inject_Z (-1)) with (-1)%Q in L.
      split; [lia|]. split; [|split; [|split]].
      * intros H.
        assert (C : (inject_Z c < inject_Z 251)%Q)
          by (change (inject_Z 251) with 251%Q; lra).
        rewrite <- Zlt_Qlt in C.
        assert (M : (inject_Z c <= inject_Z (Z.max (Z.min c 250) 1))%Q)
          by (rewrite <- Zle_Qle; lia).
        lra.
      * intros H.
        assert (C : (inject_Z 0 < inject_Z c)%Q)
          by (change (inject_Z 0) with 0%Q; lra).
        rewrite <- Zlt_Qlt in C.
        assert (M : (inject_Z (Z.max (Z.min c 250) 1) <= inject_Z c)%Q)
          by (rewrite <- Zle_Qle; lia).
        lra.
      * intros H.
        assert (C : (inject_Z 250 < inject_Z c)%Q)
          by (change (inject_Z 250) with 250%Q; lra).
        rewrite <- Zlt_Qlt in C. lia.
      * intros H.
        assert (C : (inject_Z c < inject_Z 1)%Q)
          by (change (inject_Z 1) with 1%Q; lra).
        rewrite <- Zlt_Qlt in C. lia.
  - intros n N M. apply agrees_sound.
    pose proof agrees_at_the_stops as A.
    rewrite forallb_forall in A.
    assert (K : In (Z.to_nat n) (seq 0 1000)).
    { apply in_seq. unfold Slider.stop, Slider.RANGE_MIN, Slider.RANGE_STEP,
        Slider.RANGE_MAX in M. lia. }
    specialize (A _ K). rewrite Z2Nat.id in A by exact N. exact A.
  - split; [vm_compute; reflexivity|]. split; [|split].
    + eexists. split; [vm_compute; reflexivity|]. reflexivity.
    + vm_compute. reflexivity.
    + vm_compute. reflexivity.
Qed.

(** The stop at 460 km: 249 nautical miles are requested. *)
Lemma radial_request_in_doubles_witness :
  Slider.stop 45 = 460
  /\ safeRange (ofZ (Slider.stop 45)) = Finite 249
  /\ Radial.safeRange (inject_Z (Slider.stop 45)) = 249.
Proof.
  destruct radial_request_in_doubles as (_ & S & _).
  split; [reflexivity|]. split; [|vm_compute; reflexivity].
  rewrite (S 45); [vm_compute; reflexivity|lia|vm_compute; discriminate].
Defined.

End RadialRequest.

(* ------------------------------------------------------------------ *)
(** ** Simulated targets

    Source: the spawn of [updateSimLoop] in the application component.
    The values of [Math.random()] are parameters. *)

Module Simulation.
Import JS Normalizer.
Local Open Scope R_scope.

Definition RADAR_MAX_RANGE_METERS : R := 100000.

Record AircraftType : Type := mkType {
  type : string; type_rcs : R; maxSpeed : R; maxAlt : R }.

Definition MOCK_AIRCRAFT_TYPES : list AircraftType :=
  [mkType "Cessna 172" 2 60 4000;
   mkType "Boeing 737" 20 250 12000;
   mkType "F-16 Fighter" 1.2 600 15000;
   mkType "Drone (Quad)" 0.1 20 500;
   mkType "Unknown Obj" 5 100 2000]%string.

(** The locals of the spawn for the random values [angleRoll] and
    [headRoll]. *)
Definition angle (angleRoll : R) : R := angleRoll * PI * 2.
Definition dist : R := RADAR_MAX_RANGE_METERS * 0.8.
Definition speed (typeDef : AircraftType) : R := maxSpeed typeDef * 0.514444.
Definition head (angleRoll headRoll : R) : R :=
  angle angleRoll + PI + (headRoll - 0.5).

(** [position] and [velocity] of the pushed target. *)
Definition spawn_x (angleRoll : R) : R := sin (angle angleRoll) * dist.
Definition spawn_y (angleRoll : R) : R := cos (angle angleRoll) * dist.
Definition spawn_vx (typeDef : AircraftType) (angleRoll headRoll : R) : R :=
  sin (head angleRoll headRoll) * speed typeDef.
Definition spawn_vy (typeDef : AircraftType) (angleRoll headRoll : R) : R :=
  cos (head angleRoll headRoll) * speed typeDef.

Lemma speed_positive typeDef :
  In typeDef MOCK_AIRCRAFT_TYPES -> 0 < speed typeDef.
Proof.
  unfold speed. intros [<- | [<- | [<- | [<- | [<- | []]]]]]; simpl; lra.
Qed.

Lemma half_radian : 0 < cos (1 / 2) /\ forall d, -1/2 <= d <= 1/2 -> 0 < cos d.
Proof.
  pose proof PI2_1 as P.
  assert (G : forall d, -1/2 <= d <= 1/2 -> 0 < cos d)
    by (intros d [L U]; apply cos_gt_0; lra).
  split; [apply G; lra|exact G].
Qed.

(** X23. A simulated target appears exactly 80 km from the origin, in
    any direction, and flies inward: its velocity has a negative
    component along its position for every aircraft type and every
    random heading. A target at that position is outside the square the
    scope draws whenever the range scale is below 56 km, the default of
    50 km included, so a new simulated target is not drawn at first. *)
Theorem simulated_targets_start_at_80_km_inbound :
  forall (typeDef : AircraftType) (angleRoll headRoll : R) (t : RadarTarget),
    In typeDef MOCK_AIRCRAFT_TYPES ->
    0 <= headRoll < 1 ->
    position_x t = spawn_x angleRoll ->
    position_y t = spawn_y angleRoll ->
    velocity_vx t = spawn_vx typeDef angleRoll headRoll ->
    velocity_vy t = spawn_vy typeDef angleRoll headRoll ->
    (position_x t) ^ 2 + (position_y t) ^ 2 = 80000 ^ 2
    /\ position_x t * velocity_vx t + position_y t * velocity_vy t < 0
    /\ (forall rangeScale, rangeScale <= 56 ->
                           Scope.drawn rangeScale t = false).
Proof.
  intros typeDef angleRoll headRoll t Hty Hh Px Py Vx Vy.
  assert (R80 : (position_x t) ^ 2 + (position_y t) ^ 2 = 80000 ^ 2).
  { rewrite Px, Py. unfold spawn_x, spawn_y, dist, RADAR_MAX_RANGE_METERS.
    set (a := angle angleRoll).
    pose proof (sin2_cos2 a) as SC. unfold Rsqr in SC.
    replace (100000 * 0.8) with 80000 by lra.
    replace ((sin a * 80000) ^ 2 + (cos a * 80000) ^ 2)
      with ((sin a * sin a + cos a * cos a) * 80000 ^ 2) by ring.
    rewrite SC. ring. }
  split; [exact R80|]. split.
  - rewrite Px, Py, Vx, Vy.
    unfold spawn_x, spawn_y, spawn_vx, spawn_vy, head.
    set (a := angle angleRoll). set (d := headRoll - 0.5).
    pose proof (speed_positive Hty) as S.
    assert (D : 0 < dist) by (unfold dist, RADAR_MAX_RANGE_METERS; lra).
    assert (C : 0 < cos d) by (apply half_radian; unfold d; lra).
    replace (sin a * dist * (sin (a + PI + d) * speed typeDef)
             + cos a * dist * (cos (a + PI + d) * speed typeDef))
      with (dist * speed typeDef
            * (cos (a + PI + d) * cos a + sin (a + PI + d) * sin a)) by ring.
    rewrite <- cos_minus.
    replace (a + PI + d - a) with (d + PI) by ring.
    rewrite neg_cos.
    assert (DS : 0 < dist * speed typeDef) by (apply Rmult_lt_0_compat; lra).
    nra.
  - intros rangeScale Hr. unfold Scope.drawn, Scope.maxRangeM.
    destruct (Rgt_dec (Rabs (position_x t)) (rangeScale * 1000)) as [|Nx];
      [reflexivity|].
    destruct (Rgt_dec (Rabs (position_y t)) (rangeScale * 1000)) as [|Ny];
      [reflexivity|].
    exfalso. apply Rnot_gt_le in Nx, Ny.
    apply Scope.abs_le_inv in Nx, Ny. nra.
Qed.

Local Open Scope string_scope.

(** An airliner spawned due north, heading straight for the origin. *)
Definition spawned : RadarTarget :=
  mkTarget "SIM-1000" "SIM-1000"
           (spawn_x 0) (spawn_y 0)
           (spawn_vx (mkType "Boeing 737" 20 250 12000) 0 0.5)
           (spawn_vy (mkType "Boeing 737" 20 250 12000) 0 0.5)
           (12000 / 3.28) 20 UNKNOWN "" "Boeing 737" "" 0 0
           (head 0 0.5 * 180 / PI).

Lemma simulated_targets_start_at_80_km_inbound_witness :
  (position_x spawned) ^ 2 + (position_y spawned) ^ 2 = 80000 ^ 2
  /\ position_x spawned * velocity_vx spawned
     + position_y spawned * velocity_vy spawned < 0
  /\ Scope.drawn 50 spawned = false.
Proof.
  assert (Hty : In (mkType "Boeing 737" 20 250 12000) MOCK_AIRCRAFT_TYPES)
    by (right; left; reflexivity).
  assert (Hh : 0 <= 0.5 < 1) by lra.
  destruct (@simulated_targets_start_at_80_km_inbound
              (mkType "Boeing 737" 20 250 12000) 0 0.5 spawned Hty Hh
              eq_refl eq_refl eq_refl eq_refl) as (A & B & C).
  split; [exact A|]. split; [exact B|]. apply C. lra.
Defined.

End Simulation.

(* ------------------------------------------------------------------ *)
(** ** The simulation loop

    Source: the simulation branch of [updateSimLoop]. An optional text
    field that the pushed object leaves out is the empty string: every
    reader tests these fields with [||]. *)

Module SimLoop.
Import JS Normalizer Simulation.
Local Open Scope R_scope.

(** The values one frame draws from [Math.random()]; [idDigits] is the
    decimal numeral of [Math.floor(Math.random() * 9000) + 1000]. *)
Record Draws : Type := mkDraws {
  spawnRoll : R;
  typeDef : AircraftType;   (* MOCK_AIRCRAFT_TYPES[Math.floor(random * length)] *)
  angleRoll : R;
  headRoll : R;
  idDigits : string
}.

(** The callback of [prev.map]: [None] is the [null] that
    [filter(Boolean)] removes. *)
Definition moved (deltaTime : R) (t : RadarTarget) : option RadarTarget :=
  if negb (startsWith (id t) "SIM") then None
  else Some (Interpolation.advance deltaTime t).

Fixpoint keep (l : list (option RadarTarget)) : list RadarTarget :=
  match l with
  | [] => []
  | Some t :: rest => t :: keep rest
  | None :: rest => keep rest
  end.

(** The object pushed by the spawn. *)
Definition pushed (d : Draws) : RadarTarget :=
  let id := ("SIM-" ++ idDigits d)%string in
  {| id := id;
     position_x := spawn_x (angleRoll d);
     position_y := spawn_y (angleRoll d);
     velocity_vx := spawn_vx (typeDef d) (angleRoll d) (headRoll d);
     velocity_vy := spawn_vy (typeDef d) (angleRoll d) (headRoll d);
     altitude := maxAlt (typeDef d) / 3.28;
     rcs := type_rcs (typeDef d);
     status := UNKNOWN;
     callsign := id;
     typeCode := type (typeDef d);
     classification := "";
     registration := "";
     geo_lat := 0;
     geo_lon := 0;
     geo_track := head (angleRoll d) (headRoll d) * 180 / PI |}.

(** The updater passed to [setTargets] in simulation mode. *)
Definition simulate (prev : list RadarTarget) (frame : R * Draws)
  : list RadarTarget :=
  let (deltaTime, d) := frame in
  let next := keep (map (moved deltaTime) prev) in
  if (List.length next <? 5)%nat then
    if Rlt_dec (spawnRoll d) 0.05 then next ++ [pushed d] else next
  else next.

Definition isSim (t : RadarTarget) : bool := startsWith (id t) "SIM".

Lemma moved_sim dt t :
  isSim t = true -> moved dt t = Some (Interpolation.advance dt t).
Proof. unfold isSim, moved. intros ->. reflexivity. Qed.

Lemma moved_other dt t : isSim t = false -> moved dt t = None.
Proof. unfold isSim, moved. intros ->. reflexivity. Qed.

Lemma keep_moved dt prev :
  Forall (fun t => isSim t = true) (keep (map (moved dt) prev))
  /\ List.length (keep (map (moved dt) prev)) = List.length (filter isSim prev).
Proof.
  induction prev as [|t prev [IH1 IH2]];
    [split; [constructor|reflexivity]|].
  change (map (moved dt) (t :: prev)) with (moved dt t :: map (moved dt) prev).
  change (filter isSim (t :: prev))
    with (if isSim t then t :: filter isSim prev else filter isSim prev).
  destruct (isSim t) eqn:E.
  - rewrite (moved_sim dt t E). simpl keep. simpl List.length. split.
    + constructor; [exact E|exact IH1].
    + rewrite IH2. reflexivity.
  - rewrite (moved_other dt t E). simpl keep. split; assumption.
Qed.

Lemma filter_all_sim l :
  Forall (fun t => isSim t = true) l -> filter isSim l = l.
Proof.
  induction 1 as [|t l H _ IH]; simpl; [reflexivity|]. rewrite H, IH.
  reflexivity.
Qed.

Lemma pushed_is_sim d : isSim (pushed d) = true.
Proof. reflexivity. Qed.

Lemma simulate_step prev frame :
  let next := simulate prev frame in
  Forall (fun t => isSim t = true) next
  /\ (List.length (filter isSim prev) <= List.length next)%nat
  /\ (List.length next <= Nat.max (List.length (filter isSim prev)) 5)%nat.
Proof.
  destruct frame as [dt d]. unfold simulate.
  destruct (keep_moved dt prev) as [A L].
  set (next := keep (map (moved dt) prev)) in *. clearbody next.
  rewrite <- L. cbv zeta.
  destruct (List.length next <? 5)%nat eqn:E.
  - apply Nat.ltb_lt in E.
    destruct (Rlt_dec (spawnRoll d) 0.05).
    + split; [|rewrite length_app; simpl; lia].
      apply Forall_app. split; [exact A|].
      constructor; [apply pushed_is_sim|constructor].
    + split; [exact A|lia].
  - split; [exact A|lia].
Qed.

(** X24. In simulation mode the first frame drops every target whose id
    does not begin with SIM, and from then on the list holds simulated
    targets only; a frame adds at most one target and only while there
    are fewer than five, and no frame ever removes a simulated target:
    their number never decreases and never exceeds five, unless more
    than five were there from the start. *)
Theorem simulation_keeps_at_most_five :
  forall (prev : list RadarTarget) (frame : R * Draws)
         (frames : list (R * Draws)),
    let final := fold_left simulate (frame :: frames) prev in
    let before := List.length (filter isSim prev) in
    Forall (fun t => startsWith (id t) "SIM" = true) final
    /\ (before <= List.length final <= Nat.max before 5)%nat.
Proof.
  intros prev frame frames. cbv zeta.
  change (fold_left simulate (frame :: frames) prev)
    with (fold_left simulate frames (simulate prev frame)).
  destruct (simulate_step prev frame) as (A & L1 & L2).
  set (first := simulate prev frame) in *. clearbody first.
  set (n := List.length (filter isSim prev)) in *. clearbody n.
  revert first A L1 L2.
  induction frames as [|f frames IH]; intros cur A L1 L2; simpl.
  - split; [exact A|lia].
  - destruct (simulate_step cur f) as (A' & L1' & L2').
    rewrite (filter_all_sim A) in L1', L2'.
    apply IH; [exact A'|lia|lia].
Qed.

End SimLoop.
